(** * Personalized email campaign API: event matching, scheduling, tracking

    A shallow embedding of the campaign service
    ([services/campaign.service.js]), the email service
    ([services/email.service.js]), the Campaign, Email and Event models
    and the tracking controller, followed by the properties of the
    specification that were checked against them.

    Conventions.
    - A JavaScript string is a [string]: one [ascii] per code unit, so
      the strings covered are those whose code units are below 256.
    - A JavaScript number is a [Z] (integer-valued numbers); [NaN] is a
      value of its own.
    - A date is its epoch time in milliseconds, a [Z].
    - An [ObjectId] is its 24-digit hexadecimal rendering.
    - An [async] function is a function from the world (the collections,
      the outbox of the SMTP transport and a journal of writes) to an
      outcome and the world it leaves; a [throw] keeps the writes made
      before it.
    - The models are Mongoose models, of the version 7 that
      [package.json] asks for: [save] validates the document before it
      runs the [pre('save')] hooks of the schema, a cast that fails when
      a document is built is reported by that validation, and
      [mongoose.Types.ObjectId] is a class. *)

From Stdlib Require Import Bool Arith ZArith NArith Lia List.
From Stdlib Require Import Ascii String.
Import ListNotations.

Local Open Scope list_scope.
Local Open Scope string_scope.

Set Implicit Arguments.
Set Warnings "-register-all".

(* ================================================================== *)
(** * Part I. The program *)
(* ================================================================== *)

(** ** ECMAScript strings, numbers and values *)

Module Js.

(** The double quote, written by its code so that it can be spliced into
    literals. *)
Definition dquote : ascii := ascii_of_nat 34.
Definition dq : string := String dquote EmptyString.

Definition chr (c : ascii) (n : nat) : bool := Nat.eqb (nat_of_ascii c) n.

(** [\s] of a regular expression, on code units below 256: TAB, LF, VT,
    FF, CR, SP and NBSP. *)
Definition isSpace (c : ascii) : bool :=
  let n := nat_of_ascii c in
  (Nat.leb 9 n && Nat.leb n 13) || Nat.eqb n 32 || Nat.eqb n 160.

(** The line terminators below 256 ([.] does not match them). *)
Definition isLineTerminator (c : ascii) : bool :=
  chr c 10 || chr c 13.

Definition isLower (c : ascii) : bool :=
  let n := nat_of_ascii c in Nat.leb 97 n && Nat.leb n 122.

(** Case-insensitive match of a pattern character given in lower case
    (flag [i]): a letter matches itself and its ASCII capital, any other
    character matches itself only. *)
Definition eqLetterCI (lower c : ascii) : bool :=
  Ascii.eqb c lower
  || (isLower lower && Nat.eqb (nat_of_ascii c + 32) (nat_of_ascii lower)).

Fixpoint drop (n : nat) (s : string) : string :=
  match n, s with
  | O, _ => s
  | S n', String _ s' => drop n' s'
  | S _, EmptyString => EmptyString
  end.

Fixpoint take (n : nat) (s : string) : string :=
  match n, s with
  | S n', String c s' => String c (take n' s')
  | _, _ => EmptyString
  end.

(** [String.prototype.startsWith]. *)
Fixpoint startsWith (s p : string) : bool :=
  match p, s with
  | EmptyString, _ => true
  | String a p', String b s' => Ascii.eqb a b && startsWith s' p'
  | String _ _, EmptyString => false
  end.

(** Case-insensitive prefix test, the pattern in lower case. *)
Fixpoint startsWithCI (s p : string) : bool :=
  match p, s with
  | EmptyString, _ => true
  | String a p', String b s' => eqLetterCI a b && startsWithCI s' p'
  | String _ _, EmptyString => false
  end.

Fixpoint allChars (f : ascii -> bool) (s : string) : bool :=
  match s with
  | EmptyString => true
  | String c s' => f c && allChars f s'
  end.

(** [String.prototype.indexOf]: position of the first occurrence. *)
Fixpoint indexOf (s p : string) : option nat :=
  if startsWith s p then Some 0
  else match s with
       | EmptyString => None
       | String _ s' => option_map S (indexOf s' p)
       end.

(** [GetSubstitution] for a string pattern (no captures): [$$], [$&],
    [$`] and [$'] are expanded, every other character is literal. *)
Fixpoint getSubstitution (matched before after r : string) : string :=
  match r with
  | EmptyString => EmptyString
  | String c r1 =>
      if chr c 36 then
        match r1 with
        | String d r2 =>
            if chr d 36 then String c (getSubstitution matched before after r2)
            else if chr d 38 then matched ++ getSubstitution matched before after r2
            else if chr d 96 then before ++ getSubstitution matched before after r2
            else if chr d 39 then after ++ getSubstitution matched before after r2
            else String c (getSubstitution matched before after r1)
        | EmptyString => String c EmptyString
        end
      else String c (getSubstitution matched before after r1)
  end.

(** [String.prototype.replace] with a string pattern: the first
    occurrence only. *)
Definition replace (s p r : string) : string :=
  match indexOf s p with
  | None => s
  | Some i =>
      let before := take i s in
      let after := drop (i + String.length p) s in
      before ++ getSubstitution p before after r ++ after
  end.

(** [String.prototype.split] on a one-character separator. *)
Fixpoint split (sep : ascii) (s : string) : list string :=
  match s with
  | EmptyString => [EmptyString]
  | String c s' =>
      if Ascii.eqb c sep then EmptyString :: split sep s'
      else match split sep s' with
           | h :: t => String c h :: t
           | [] => [String c EmptyString]
           end
  end.

(** [String.prototype.trim], on the white space below 256. *)
Fixpoint trimStart (s : string) : string :=
  match s with
  | String c s' => if isSpace c then trimStart s' else s
  | EmptyString => EmptyString
  end.

Fixpoint trimEnd (s : string) : string :=
  match s with
  | EmptyString => EmptyString
  | String c s' =>
      match trimEnd s' with
      | EmptyString => if isSpace c then EmptyString else String c EmptyString
      | t => String c t
      end
  end.

Definition trim (s : string) : string := trimEnd (trimStart s).

(** *** Numbers to strings *)

Definition digitChar (d : N) : ascii :=
  if (d <? 10)%N then ascii_of_N (48 + d) else ascii_of_N (87 + d).

Fixpoint digitsAux (fuel : nat) (radix n : N) (acc : string) : string :=
  match fuel with
  | O => acc
  | S f =>
      let acc' := String (digitChar (n mod radix)) acc in
      if (n / radix =? 0)%N then acc' else digitsAux f radix (n / radix) acc'
  end.

Definition digits (radix n : N) : string :=
  digitsAux (S (N.size_nat n)) radix n EmptyString.

(** [Number.prototype.toString(radix)] on an integer. *)
Definition toStringRadix (radix : N) (z : Z) : string :=
  if (z <? 0)%Z then "-" ++ digits radix (Z.abs_N z) else digits radix (Z.to_N z).

(** The conversion of a template literal, [`${n}`]. *)
Definition numToString (z : Z) : string := toStringRadix 10 z.

Definition isDigit (c : ascii) : bool :=
  let n := nat_of_ascii c in Nat.leb 48 n && Nat.leb n 57.

Definition digitVal (c : ascii) : Z := Z.of_nat (nat_of_ascii c - 48).

Fixpoint readDigits (s : string) (acc : Z) : Z :=
  match s with
  | String c s' => if isDigit c then readDigits s' (acc * 10 + digitVal c)%Z else acc
  | EmptyString => acc
  end.

(** [parseInt(s, 10)]: leading white space, an optional sign, then the
    longest run of decimal digits; [None] is [NaN]. *)
Definition parseInt10 (s : string) : option Z :=
  match trimStart s with
  | String c s' =>
      if chr c 45 then
        match s' with
        | String d _ => if isDigit d then Some (- readDigits s' 0)%Z else None
        | EmptyString => None
        end
      else if chr c 43 then
        match s' with
        | String d _ => if isDigit d then Some (readDigits s' 0) else None
        | EmptyString => None
        end
      else if isDigit c then Some (readDigits (String c s') 0) else None
  | EmptyString => None
  end.

Definition isLetter (c : ascii) : bool :=
  let n := nat_of_ascii c in
  (Nat.leb 65 n && Nat.leb n 90) || (Nat.leb 97 n && Nat.leb n 122).

(** A property key that begins as an identifier does: with a letter,
    [$] or [_]. *)
Definition identifierKey (key : string) : bool :=
  match key with
  | String c _ => isLetter c || chr c 36 || chr c 95
  | EmptyString => false
  end.

(** A property key that is an array index: the canonical decimal
    rendering of a natural number. *)
Definition arrayIndex (key : string) : option nat :=
  match key with
  | EmptyString => None
  | String c _ =>
      if allChars isDigit key && String.eqb (numToString (readDigits key 0)) key
      then Some (Z.to_nat (readDigits key 0)) else None
  end.

(** *** Values *)

Inductive value : Type :=
| VUndefined
| VNull
| VBool (b : bool)
| VNum (n : Z)
| VNaN
| VStr (s : string)
| VObj (props : list (string * value))   (* a plain object, keys in insertion order *)
| VArr (items : list value)
| VHost.                                 (* a host object: ObjectId, Date *)

(** [ToBoolean]. *)
Definition toBoolean (v : value) : bool :=
  match v with
  | VUndefined | VNull | VNaN => false
  | VBool b => b
  | VNum n => negb (n =? 0)%Z
  | VStr s => negb (String.eqb s EmptyString)
  | VObj _ | VArr _ | VHost => true
  end.

Fixpoint lookup (A : Type) (key : string) (props : list (string * A)) : option A :=
  match props with
  | [] => None
  | (k, v) :: rest => if String.eqb k key then Some v else lookup key rest
  end.

(** Property read [v[key]] on a value that is neither [null] nor
    [undefined]: own data properties, the elements and [length] of an
    array, the code units and [length] of a string.  Members inherited
    from a prototype are not modelled. *)
Definition getProp (v : value) (key : string) : value :=
  match v with
  | VObj props => match lookup key props with Some x => x | None => VUndefined end
  | VArr items =>
      if String.eqb key "length" then VNum (Z.of_nat (List.length items))
      else match arrayIndex key with
           | Some i => nth i items VUndefined
           | None => VUndefined
           end
  | VStr s =>
      if String.eqb key "length" then VNum (Z.of_nat (String.length s))
      else match arrayIndex key with
           | Some i => match String.get i s with
                       | Some c => VStr (String c EmptyString)
                       | None => VUndefined
                       end
           | None => VUndefined
           end
  | _ => VUndefined
  end.

(** [typeof v === 'object']. *)
Definition typeofObject (v : value) : bool :=
  match v with
  | VNull | VObj _ | VArr _ | VHost => true
  | _ => false
  end.

(** Strict equality [===].  Two objects are equal only when they are the
    same object; the values compared here come from different documents,
    so objects are never equal. *)
Definition strictEq (a b : value) : bool :=
  match a, b with
  | VUndefined, VUndefined => true
  | VNull, VNull => true
  | VBool x, VBool y => Bool.eqb x y
  | VNum x, VNum y => (x =? y)%Z
  | VStr x, VStr y => String.eqb x y
  | _, _ => false
  end.

(** [ToNumber] on the primitives that need no parsing; [None] is [NaN]. *)
Definition toNumberPrim (v : value) : option Z :=
  match v with
  | VNull => Some 0%Z
  | VBool b => Some (if b then 1 else 0)%Z
  | VNum n => Some n
  | _ => None
  end.

Definition needsCoercion (v : value) : bool :=
  match v with
  | VStr _ | VObj _ | VArr _ | VHost => true
  | _ => false
  end.

(** What the engine and the environment provide. *)
Class Runtime : Type := {
  (** [a <= b] and [a >= b] when an operand is a string or an object and
      the operands are not two strings (the comparison then goes through
      [ToPrimitive] and the parsing of numeric strings).  [None] is the
      [TypeError] that [ToPrimitive] throws for an object it cannot
      convert (neither [valueOf] nor [toString] gives a primitive). *)
  coercedLe : value -> value -> option bool;
  coercedGe : value -> value -> option bool;
  (** For a property key that is neither an array index nor [length]:
      whether an array of subdocuments resolves it to a truthy member
      (a method of the array or of its prototype chain). *)
  arrayMember : string -> bool;
  (** [process.env]. *)
  API_BASE_URL : option string;
  EMAIL_FROM_NAME : option string;
  EMAIL_FROM : option string
}.

(** [v || default] for a variable of the environment: an unset or empty
    variable gives the default. *)
Definition orDefault (v : option string) (default : string) : string :=
  match v with
  | Some s => if String.eqb s EmptyString then default else s
  | None => default
  end.

(** [`${v}`] for a variable of the environment. *)
Definition interpolate (v : option string) : string :=
  match v with Some s => s | None => "undefined" end.

Section Relational.
Context {R : Runtime}.

(** [a <= b]; [None] is a [TypeError]. *)
Definition le (a b : value) : option bool :=
  match a, b with
  | VStr x, VStr y => Some (String.leb x y)
  | _, _ =>
      if needsCoercion a || needsCoercion b then coercedLe a b
      else match toNumberPrim a, toNumberPrim b with
           | Some x, Some y => Some (x <=? y)%Z
           | _, _ => Some false
           end
  end.

(** [a >= b]; [None] is a [TypeError]. *)
Definition ge (a b : value) : option bool :=
  match a, b with
  | VStr x, VStr y => Some (String.leb y x)
  | _, _ =>
      if needsCoercion a || needsCoercion b then coercedGe a b
      else match toNumberPrim a, toNumberPrim b with
           | Some x, Some y => Some (y <=? x)%Z
           | _, _ => Some false
           end
  end.

End Relational.

End Js.

Import Js.

(** ** Documents *)

Module CampaignDoc.

Inductive status := draft | active | paused | completed | archived.

Record counters := {
  sent : Z; opened : Z; clicked : Z;
  bounced : Z; unsubscribed : Z; complained : Z
}.

Record t := {
  _id : string;
  name : string;
  templateId : string;
  triggerEvent : string;
  delay : Z;                              (* seconds *)
  conditions : list (string * value);     (* a Mixed object, default {} *)
  audience : list string;
  excludedAudience : list string;
  startDate : Z;
  endDate : option Z;
  state : status;                         (* the path [status] *)
  analytics : counters
}.

Definition status_eqb (a b : status) : bool :=
  match a, b with
  | draft, draft | active, active | paused, paused
  | completed, completed | archived, archived => true
  | _, _ => false
  end.

Definition setAnalytics (a : counters) (c : t) : t :=
  {| _id := _id c; name := name c; templateId := templateId c;
     triggerEvent := triggerEvent c; delay := delay c;
     conditions := conditions c; audience := audience c;
     excludedAudience := excludedAudience c; startDate := startDate c;
     endDate := endDate c; state := state c; analytics := a |}.

Definition incSent (a : counters) : counters :=
  {| sent := sent a + 1; opened := opened a; clicked := clicked a;
     bounced := bounced a; unsubscribed := unsubscribed a;
     complained := complained a |}.

Definition incOpened (a : counters) : counters :=
  {| sent := sent a; opened := opened a + 1; clicked := clicked a;
     bounced := bounced a; unsubscribed := unsubscribed a;
     complained := complained a |}.

Definition incClicked (a : counters) : counters :=
  {| sent := sent a; opened := opened a; clicked := clicked a + 1;
     bounced := bounced a; unsubscribed := unsubscribed a;
     complained := complained a |}.

Definition incBounced (a : counters) : counters :=
  {| sent := sent a; opened := opened a; clicked := clicked a;
     bounced := bounced a + 1; unsubscribed := unsubscribed a;
     complained := complained a |}.

End CampaignDoc.

Module TemplateDoc.

Record t := {
  _id : string;
  subject : string;
  body : string;
  isHtml : bool
}.

End TemplateDoc.

Module UserDoc.

Record t := {
  _id : string;
  name : string;
  email : string;
  attributes : list (string * value)
}.

End UserDoc.

Module EventDoc.

Inductive triggerStatus := scheduled | sent | failed.

Record triggered := {
  campaignId : string;
  processedAt : Z;
  status : triggerStatus;
  scheduledFor : Z
}.

Record t := {
  _id : string;
  userId : string;
  eventType : string;
  timestamp : Z;
  metadata : value;
  processed : bool;
  triggeredCampaigns : list triggered;
  (** The remaining paths of the schema that hold a value: [source],
      [sessionId], [ip], [userAgent]. *)
  otherPaths : list (string * value)
}.

Definition setTriggeredCampaigns (l : list triggered) (e : t) : t :=
  {| _id := _id e; userId := userId e; eventType := eventType e;
     timestamp := timestamp e; metadata := metadata e;
     processed := processed e; triggeredCampaigns := l;
     otherPaths := otherPaths e |}.

Definition setProcessed (b : bool) (e : t) : t :=
  {| _id := _id e; userId := userId e; eventType := eventType e;
     timestamp := timestamp e; metadata := metadata e;
     processed := b; triggeredCampaigns := triggeredCampaigns e;
     otherPaths := otherPaths e |}.

Definition triggerStatusName (s : triggerStatus) : string :=
  match s with scheduled => "scheduled" | sent => "sent" | failed => "failed" end.

Definition triggeredValue (x : triggered) : value :=
  VObj [("campaignId", VHost); ("processedAt", VHost);
        ("status", VStr (triggerStatusName (status x)));
        ("scheduledFor", VHost); ("_id", VHost)].

(** The document as the object whose properties [event[part]] reads:
    the paths of the schema.  What Mongoose adds to a document is left
    out: the timestamps [createdAt] and [updatedAt], the version key
    and the members a document inherits, some of which change at every
    [save].  A read of [event[part]] is therefore modelled for the
    paths of the schema only. *)
Definition asValue (e : t) : value :=
  VObj ([("_id", VHost); ("userId", VHost);
         ("eventType", VStr (eventType e)); ("timestamp", VHost);
         ("metadata", metadata e); ("processed", VBool (processed e));
         ("triggeredCampaigns", VArr (map triggeredValue (triggeredCampaigns e)))]
        ++ otherPaths e)%list.

End EventDoc.

Module EmailDoc.

Inductive status :=
| scheduled | sending | sent | delivered | opened | clicked
| bounced | rejected | failed | complained | unsubscribed.

Definition status_eqb (a b : status) : bool :=
  match a, b with
  | scheduled, scheduled | sending, sending | sent, sent
  | delivered, delivered | opened, opened | clicked, clicked
  | bounced, bounced | rejected, rejected | failed, failed
  | complained, complained | unsubscribed, unsubscribed => true
  | _, _ => false
  end.

Record link := {
  original : string;
  tracking : string;
  clicks : Z;
  lastClickedAt : option Z
}.

Record t := {
  _id : string;
  userId : string;
  to : string;
  from : string;
  subject : string;
  body : string;
  isHtml : bool;
  templateId : string;
  campaignId : string;
  eventId : string;
  state : status;                         (* the path [status] *)
  scheduledFor : Z;
  sentAt : option Z;
  deliveredAt : option Z;
  openedAt : option Z;
  clickedAt : option Z;
  variables : list (string * value);
  messageId : option string;
  trackingId : option string;
  links : list link;
  errorMessage : option string
}.

(** The paths the service writes after construction. *)
Record patch := {
  p_state : option status;
  p_sentAt : option Z;
  p_deliveredAt : option Z;
  p_openedAt : option Z;
  p_clickedAt : option Z;
  p_messageId : option string;
  p_trackingId : option string;
  p_links : option (list link);
  p_errorMessage : option string
}.

Definition noPatch : patch :=
  {| p_state := None; p_sentAt := None; p_deliveredAt := None;
     p_openedAt := None; p_clickedAt := None; p_messageId := None;
     p_trackingId := None; p_links := None; p_errorMessage := None |}.

(** The patch of an assignment to [status] alone. *)
Definition onlyState (s : status) : patch :=
  {| p_state := Some s; p_sentAt := None; p_deliveredAt := None;
     p_openedAt := None; p_clickedAt := None; p_messageId := None;
     p_trackingId := None; p_links := None; p_errorMessage := None |}.

Definition orKeep (A : Type) (new : option A) (old : option A) : option A :=
  match new with Some x => Some x | None => old end.

(** [$set] of the paths of a patch. *)
Definition apply (p : patch) (e : t) : t :=
  {| _id := _id e; userId := userId e; to := to e; from := from e;
     subject := subject e; body := body e; isHtml := isHtml e;
     templateId := templateId e; campaignId := campaignId e;
     eventId := eventId e;
     state := match p_state p with Some s => s | None => state e end;
     scheduledFor := scheduledFor e;
     sentAt := orKeep (p_sentAt p) (sentAt e);
     deliveredAt := orKeep (p_deliveredAt p) (deliveredAt e);
     openedAt := orKeep (p_openedAt p) (openedAt e);
     clickedAt := orKeep (p_clickedAt p) (clickedAt e);
     variables := variables e;
     messageId := orKeep (p_messageId p) (messageId e);
     trackingId := orKeep (p_trackingId p) (trackingId e);
     links := match p_links p with Some l => l | None => links e end;
     errorMessage := orKeep (p_errorMessage p) (errorMessage e) |}.

End EmailDoc.

(** ** The world: collections, transport, journal *)

Inductive exn :=
| TypeError (msg : string)
| Error (msg : string)
| ValidationError (path : string)
| DuplicateKeyError (path : string)
| TransportError (msg : string).

Definition message (e : exn) : string :=
  match e with
  | TypeError m | Error m | TransportError m => m
  | ValidationError p => "Path " ++ p ++ " is required."
  | DuplicateKeyError p => "E11000 duplicate key error, index: " ++ p
  end.

Inductive outcome (A : Type) :=
| Ok (a : A)
| Throw (e : exn).

Arguments Ok {A} a.
Arguments Throw {A} e.

(** What [sendMail] is given. *)
Record mail := {
  m_from : string;
  m_to : string;
  m_subject : string;
  m_body : string;
  m_isHtml : bool
}.

Record world := {
  events : list EventDoc.t;
  emails : list EmailDoc.t;
  campaigns : list CampaignDoc.t;
  templates : list TemplateDoc.t;
  users : list UserDoc.t;
  (** Messages the SMTP server accepted, oldest first. *)
  outbox : list mail;
  (** Ids given to [Event.findByIdAndUpdate(id, {processed: true})],
      oldest first. *)
  finalized : list string;
  (** Counter from which fresh ObjectIds are drawn. *)
  nextId : N
}.

Definition setEvents (l : list EventDoc.t) (w : world) : world :=
  {| events := l; emails := emails w; campaigns := campaigns w;
     templates := templates w; users := users w; outbox := outbox w;
     finalized := finalized w; nextId := nextId w |}.

Definition setEmails (l : list EmailDoc.t) (w : world) : world :=
  {| events := events w; emails := l; campaigns := campaigns w;
     templates := templates w; users := users w; outbox := outbox w;
     finalized := finalized w; nextId := nextId w |}.

Definition setCampaigns (l : list CampaignDoc.t) (w : world) : world :=
  {| events := events w; emails := emails w; campaigns := l;
     templates := templates w; users := users w; outbox := outbox w;
     finalized := finalized w; nextId := nextId w |}.

Definition setOutbox (l : list mail) (w : world) : world :=
  {| events := events w; emails := emails w; campaigns := campaigns w;
     templates := templates w; users := users w; outbox := l;
     finalized := finalized w; nextId := nextId w |}.

Definition setFinalized (l : list string) (w : world) : world :=
  {| events := events w; emails := emails w; campaigns := campaigns w;
     templates := templates w; users := users w; outbox := outbox w;
     finalized := l; nextId := nextId w |}.

Definition setNextId (n : N) (w : world) : world :=
  {| events := events w; emails := emails w; campaigns := campaigns w;
     templates := templates w; users := users w; outbox := outbox w;
     finalized := finalized w; nextId := n |}.

(** An [async] computation. *)
Definition M (A : Type) : Type := world -> outcome A * world.

Definition ret (A : Type) (a : A) : M A := fun w => (Ok a, w).

Definition bind (A B : Type) (m : M A) (k : A -> M B) : M B :=
  fun w =>
    match m w with
    | (Ok a, w') => k a w'
    | (Throw e, w') => (Throw e, w')
    end.

Definition throw (A : Type) (e : exn) : M A := fun w => (Throw e, w).

(** [try { body } catch (error) { handler }]. *)
Definition tryCatch (A : Type) (body : M A) (handler : exn -> M A) : M A :=
  fun w =>
    match body w with
    | (Ok a, w') => (Ok a, w')
    | (Throw e, w') => handler e w'
    end.

Definition get : M world := fun w => (Ok w, w).
Definition modify (f : world -> world) : M unit := fun w => (Ok tt, f w).

(** A call that cannot fail lifted out of an outcome. *)
Definition lift (A : Type) (o : outcome A) : M A := fun w => (o, w).

Arguments ret {A} a _.
Arguments throw {A} e _.
Arguments bind {A B} m k _.
Arguments tryCatch {A} body handler _.
Arguments lift {A} o _.

Declare Scope async_scope.
Delimit Scope async_scope with async.
Notation "x <- m ;; k" := (bind m (fun x => k))
  (at level 61, m at next level, right associativity) : async_scope.
Notation "m ;; k" := (bind m (fun _ => k))
  (at level 61, right associativity) : async_scope.
Local Open Scope async_scope.

(** [Model.findById]. *)
Fixpoint findBy (A : Type) (key : A -> string) (id : string) (l : list A) : option A :=
  match l with
  | [] => None
  | x :: rest => if String.eqb (key x) id then Some x else findBy key id rest
  end.

(** An update of the stored document with the given [_id]. *)
Fixpoint updateBy (A : Type) (key : A -> string) (id : string) (f : A -> A)
  (l : list A) : list A :=
  match l with
  | [] => []
  | x :: rest =>
      if String.eqb (key x) id then f x :: rest
      else x :: updateBy key id f rest
  end.

(** A fresh [ObjectId]: 24 hexadecimal digits. *)
Fixpoint zeros (n : nat) : string :=
  match n with
  | O => EmptyString
  | S n' => String "0" (zeros n')
  end.

Definition hex24 (n : N) : string :=
  let d := digits 16 (n mod 2 ^ 96)%N in
  zeros (24 - String.length d) ++ d.

Definition ObjectId : M string :=
  fun w => (Ok (hex24 (nextId w)), setNextId (nextId w + 1)%N w).

(** ** models/campaign.model.js *)

Module Campaign.

Import CampaignDoc.

(** The virtual [isDateActive], at the time [now] of the read. *)
Definition isDateActive (now : Z) (c : t) : bool :=
  let isAfterStart := (startDate c <=? now)%Z in
  let isBeforeEnd :=
    match endDate c with
    | None => true
    | Some e => (now <=? e)%Z
    end in
  isAfterStart && isBeforeEnd.

Definition includes (l : list string) (x : string) : bool :=
  existsb (String.eqb x) l.

Definition shouldSendToUser (c : t) (userId : string) : bool :=
  if Nat.ltb 0 (List.length (audience c)) && negb (includes (audience c) userId)
  then false
  else if includes (excludedAudience c) userId then false
  else true.

(** The descent along the parts of a dotted key: [None] is the
    [return false] inside the inner loop. *)
Fixpoint descend (parts : list string) (eventValue : value) : option value :=
  match parts with
  | [] => Some eventValue
  | part :: rest =>
      if negb (toBoolean eventValue) || negb (toBoolean (getProp eventValue part))
      then None
      else descend rest (getProp eventValue part)
  end.

Definition isUndefined (v : value) : bool :=
  match v with VUndefined => true | _ => false end.

Section Conditions.
Context {R : Runtime}.

(** The body of the outer loop for one entry: [Ok true] lets the loop
    go on, [Ok false] is a [return false]. *)
Definition checkEntry (entry : string * value) (event : value) : outcome bool :=
  let (key, v) := entry in
  match descend (split "." key) event with
  | None => Ok false
  | Some eventValue =>
      if typeofObject v then
        match v with
        | VNull => Throw (TypeError "Cannot read properties of null (reading 'exists')")
        | _ =>
            let checkLt :=
              if negb (isUndefined (getProp v "lt")) then
                match Js.ge eventValue (getProp v "lt") with
                | Some true => Ok false
                | Some false => Ok true
                | None => Throw (TypeError "Cannot convert object to primitive value")
                end
              else Ok true in
            if negb (isUndefined (getProp v "exists"))
               && negb (strictEq (VBool (toBoolean eventValue)) (getProp v "exists"))
            then Ok false
            else if negb (isUndefined (getProp v "equals"))
                    && negb (strictEq eventValue (getProp v "equals"))
            then Ok false
            else if negb (isUndefined (getProp v "gt")) then
              match Js.le eventValue (getProp v "gt") with
              | Some true => Ok false
              | Some false => checkLt
              | None => Throw (TypeError "Cannot convert object to primitive value")
              end
            else checkLt
        end
      else if negb (strictEq eventValue v) then Ok false else Ok true
  end.

Fixpoint checkEntries (entries : list (string * value)) (event : value) : outcome bool :=
  match entries with
  | [] => Ok true
  | entry :: rest =>
      match checkEntry entry event with
      | Ok true => checkEntries rest event
      | Ok false => Ok false
      | Throw e => Throw e
      end
  end.

Definition matchesConditions (c : t) (event : EventDoc.t) : outcome bool :=
  if Nat.eqb (List.length (conditions c)) 0 then Ok true
  else checkEntries (conditions c) (EventDoc.asValue event).

End Conditions.

End Campaign.

(** ** The Event model *)

Module Event.

Import EventDoc.

(** The in-memory effect of [addTriggeredCampaign]: the entry is pushed;
    [scheduledFor || new Date()] keeps a date that is given. *)
Definition pushTriggered (now : Z) (campaignId : string) (status : triggerStatus)
  (scheduledFor : Z) (e : t) : t :=
  setTriggeredCampaigns
    (triggeredCampaigns e ++
       [{| campaignId := campaignId; processedAt := now;
           status := status; scheduledFor := scheduledFor |}])%list e.

(** A time value a [Date] can hold; [new Date] of a number out of this
    range is an invalid date, which the cast of a [Date] path refuses. *)
Definition validDate (z : Z) : bool :=
  (-8640000000000000 <=? z)%Z && (z <=? 8640000000000000)%Z.

(** [save] of the document [e] in memory after a push.  The whole
    document is validated, the entries pushed earlier included: an
    entry whose [scheduledFor] is an invalid date fails this save and
    every save of [e] that follows.  Then the new entries are appended
    to the stored array ([$push]). *)
Definition savePushed (e : t) (entries : list triggered) : M unit :=
  fun w =>
    if negb (forallb (fun x => validDate (scheduledFor x)) (triggeredCampaigns e))
    then (Throw (ValidationError "triggeredCampaigns"), w)
    else
      match findBy _id (_id e) (events w) with
      | None => (Throw (Error "No document found for query"), w)
      | Some _ =>
          (Ok tt,
           setEvents (updateBy _id (_id e)
                        (fun x => setTriggeredCampaigns
                                    (triggeredCampaigns x ++ entries)%list x)
                        (events w)) w)
      end.

Definition addTriggeredCampaign (now : Z) (campaignId : string)
  (status : triggerStatus) (scheduledFor : Z) (e : t) : M t :=
  let e' := pushTriggered now campaignId status scheduledFor e in
  savePushed e'
    [{| campaignId := campaignId; processedAt := now;
        status := status; scheduledFor := scheduledFor |}] ;;
  ret e'.

(** [Event.findByIdAndUpdate(id, { processed: true })]. *)
Definition markProcessedById (id : string) : M unit :=
  modify (fun w =>
            setFinalized (finalized w ++ [id])%list
              (setEvents (updateBy _id id (setProcessed true) (events w)) w)).

(** Stable insertion by ascending key, for [sort({ key: 1 })]. *)
Fixpoint insertBy (A : Type) (key : A -> Z) (x : A) (l : list A) : list A :=
  match l with
  | [] => [x]
  | y :: rest => if (key x <? key y)%Z then x :: l else y :: insertBy key x rest
  end.

Definition sortBy (A : Type) (key : A -> Z) (l : list A) : list A :=
  fold_right (insertBy key) [] l.

(** [limit(n)]: zero means no limit. *)
Definition limit (A : Type) (n : nat) (l : list A) : list A :=
  if Nat.eqb n 0 then l else firstn n l.

(** [Event.find({ processed: false }).sort({ timestamp: 1 }).limit(n)]. *)
Definition findUnprocessed (batchSize : nat) (w : world) : list t :=
  limit batchSize (sortBy timestamp (filter (fun e => negb (processed e)) (events w))).

End Event.

(** ** The Email model *)

Module Email.

Import EmailDoc.

Definition required (path : string) (s : string) : M unit :=
  if String.eqb s EmptyString then throw (ValidationError path) else ret tt.

(** A key that the cast to a [Map] accepts: it does not begin with [$]
    and holds no dot. *)
Definition mapKey (key : string) : bool :=
  negb (startsWith key "$")
  && match indexOf key "." with Some _ => false | None => true end.

(** Validation: the required paths, and the cast of [variables] to a
    [Map], whose failure at construction is reported by [save]. *)
Definition validate (e : t) : M unit :=
  required "to" (to e) ;;
  required "from" (from e) ;;
  required "subject" (subject e) ;;
  required "body" (body e) ;;
  if forallb (fun kv => mapKey (fst kv)) (variables e) then ret tt
  else throw (ValidationError "variables").

(** The [pre('save')] hook.  For a document without a [trackingId] it
    calls [mongoose.Types.ObjectId()], a class constructor, without
    [new]: a [TypeError], and no id is assigned. *)
Definition preSave (e : t) : M t :=
  let missing :=
    match trackingId e with
    | None => true
    | Some s => String.eqb s EmptyString
    end in
  if missing then
    throw (TypeError "Class constructor ObjectId cannot be invoked without 'new'")
  else ret e.

Definition sameTracking (a b : option string) : bool :=
  match a, b with
  | Some x, Some y => String.eqb x y
  | _, _ => false
  end.

(** [save] of a new document: validation, the hook, then the insert,
    which the unique index on [trackingId] can refuse. *)
Definition saveNew (e : t) : M t :=
  validate e ;;
  e' <- preSave e ;;
  w <- get ;;
  if existsb (fun x => sameTracking (trackingId x) (trackingId e')) (emails w)
  then throw (DuplicateKeyError "trackingId")
  else modify (setEmails (emails w ++ [e'])%list) ;; ret e'.

(** [save] of a loaded document: the modified paths are [$set] on the
    stored document.  The stored documents are taken to pass validation
    and the hook (the required paths filled, a [trackingId] present);
    the paths the service modifies do not change that. *)
Definition saveModified (id : string) (p : patch) : M unit :=
  fun w =>
    match findBy _id id (emails w) with
    | None => (Throw (Error "No document found for query"), w)
    | Some _ => (Ok tt, setEmails (updateBy _id id (apply p) (emails w)) w)
    end.

(** [findPendingEmails(limit)]. *)
Definition findPendingEmails (now : Z) (n : nat) (w : world) : list t :=
  Event.limit n
    (Event.sortBy scheduledFor
       (filter (fun e => status_eqb (state e) scheduled && (scheduledFor e <=? now)%Z)
          (emails w))).

(** [findOne({ trackingId })]. *)
Fixpoint findOneByTrackingId (tid : string) (l : list t) : option t :=
  match l with
  | [] => None
  | e :: rest =>
      if sameTracking (trackingId e) (Some tid) then Some e
      else findOneByTrackingId tid rest
  end.

(** [q] over [p], path by path. *)
Definition merge (p q : patch) : patch :=
  {| p_state := orKeep (p_state q) (p_state p);
     p_sentAt := orKeep (p_sentAt q) (p_sentAt p);
     p_deliveredAt := orKeep (p_deliveredAt q) (p_deliveredAt p);
     p_openedAt := orKeep (p_openedAt q) (p_openedAt p);
     p_clickedAt := orKeep (p_clickedAt q) (p_clickedAt p);
     p_messageId := orKeep (p_messageId q) (p_messageId p);
     p_trackingId := orKeep (p_trackingId q) (p_trackingId p);
     p_links := orKeep (p_links q) (p_links p);
     p_errorMessage := orKeep (p_errorMessage q) (p_errorMessage p) |}.

(** The assignments of [updateStatus] before its [save]: the status and
    the timestamp that goes with it. *)
Definition statusPatch (now : Z) (s : status) : patch :=
  {| p_state := Some s;
     p_sentAt := match s with sent => Some now | _ => None end;
     p_deliveredAt := match s with delivered => Some now | _ => None end;
     p_openedAt := match s with opened => Some now | _ => None end;
     p_clickedAt := match s with clicked => Some now | _ => None end;
     p_messageId := None; p_trackingId := None; p_links := None;
     p_errorMessage := None |}.

(** [updateStatus(status, additionalData)]; [dirty] holds the paths the
    caller modified on the document and has not saved yet. *)
Definition updateStatus (now : Z) (s : status) (additionalData dirty : patch)
  (e : t) : M t :=
  let p := merge dirty (merge (statusPatch now s) additionalData) in
  saveModified (_id e) p ;;
  ret (apply p e).

Fixpoint updateNth (A : Type) (n : nat) (f : A -> A) (l : list A) : list A :=
  match l, n with
  | [], _ => []
  | x :: rest, O => f x :: rest
  | x :: rest, S n' => x :: updateNth n' f rest
  end.

Definition clickLink (now : Z) (l : link) : link :=
  {| original := original l; tracking := tracking l;
     clicks := clicks l + 1; lastClickedAt := Some now |}.

(** [this.links[linkIndex]] for a number. *)
Definition linkAt (e : t) (linkIndex : option Z) : option link :=
  match linkIndex with
  | Some z => if (z <? 0)%Z then None else nth_error (links e) (Z.to_nat z)
  | None => None
  end.

(** [trackClick(linkIndex)]; the argument is the result of [parseInt]. *)
Definition trackClick (now : Z) (linkIndex : option Z) (e : t) : M t :=
  match linkAt e linkIndex, linkIndex with
  | Some _, Some z =>
      let links' := updateNth (Z.to_nat z) (clickLink now) (links e) in
      updateStatus now clicked noPatch
        {| p_state := None; p_sentAt := None; p_deliveredAt := None;
           p_openedAt := None; p_clickedAt := None; p_messageId := None;
           p_trackingId := None; p_links := Some links';
           p_errorMessage := None |} e
  | _, _ => ret e
  end.

End Email.

(** ** services/email.service.js *)

(** The collaborators the services call and this development leaves
    open: the SMTP transport, and the construction and substitution of the
    template variables (no property below depends on the rendered text). *)
Class Collaborators : Type := {
  (** [transporter.sendMail]: the message id, or the error it raises. *)
  sendMail : mail -> outcome string;
  (** The properties [scheduleEmail] gives to [variables] after the
      spread: the user's name and email, the company name, the
      unsubscribe link, the user's attributes and the primitive values
      of the event's metadata. *)
  variablesFor : CampaignDoc.t -> UserDoc.t -> EventDoc.t -> list (string * value);
  (** [renderTemplate(template, variables)]. *)
  renderTemplate : string -> list (string * value) -> string
}.

Module EmailService.

(** *** The regular expression of [addTracking]
    [<a\s+(?:[^>]*?\s+)?href=(Q)(.*?)\1] with the flags [g] and [i], where
    [Q] is the class of the double and the single quote, as a
    backtracking matcher in continuation-passing style.  A match yields
    the second group and the text after the match, from which the next
    [exec] resumes (the expression looks neither behind nor at anchors,
    so a search from [lastIndex] only reads the text from there). *)

Definition capture : Type := (string * string)%type.

(** [(.*?)\1] once the quote [q] is known: the shortest run of
    characters other than line terminators that is followed by [q]. *)
Fixpoint lazyDotsThenQuote (q : ascii) (s : string) : option capture :=
  match s with
  | EmptyString => None
  | String c s' =>
      if Ascii.eqb c q then Some (EmptyString, s')
      else if isLineTerminator c then None
      else match lazyDotsThenQuote q s' with
           | Some (u, rest) => Some (String c u, rest)
           | None => None
           end
  end.

Definition isQuote (c : ascii) : bool := chr c 34 || chr c 39.

(** [href=(Q)(.*?)\1]. *)
Definition hrefAttr (s : string) : option capture :=
  if startsWithCI s "href=" then
    match drop 5 s with
    | String q s' => if isQuote q then lazyDotsThenQuote q s' else None
    | EmptyString => None
    end
  else None.

(** [\s+] followed by [k]: greedy, one more white space is tried before
    the continuation. *)
Fixpoint spaces1 (k : string -> option capture) (s : string) : option capture :=
  match s with
  | String c s' =>
      if isSpace c then
        match spaces1 k s' with
        | Some r => Some r
        | None => k s'
        end
      else None
  | EmptyString => None
  end.

(** [[^>]*?] followed by [k]: lazy, the continuation is tried before one
    more character is taken. *)
Fixpoint lazyNotGt (k : string -> option capture) (s : string) : option capture :=
  match k s with
  | Some r => Some r
  | None =>
      match s with
      | String c s' => if chr c 62 then None else lazyNotGt k s'
      | EmptyString => None
      end
  end.

(** [(?:[^>]*?\s+)?href=...]: the group is tried first. *)
Definition optGroupThenHref (s : string) : option capture :=
  match lazyNotGt (spaces1 hrefAttr) s with
  | Some r => Some r
  | None => hrefAttr s
  end.

(** The whole expression at the start of [s]. *)
Definition matchHere (s : string) : option capture :=
  match s with
  | String lt (String a s') =>
      if chr lt 60 && eqLetterCI "a" a then spaces1 optGroupThenHref s' else None
  | _ => None
  end.

(** [linkRegex.exec] on the text from [lastIndex] on: the leftmost
    match. *)
Fixpoint exec (s : string) : option capture :=
  match matchHere s with
  | Some r => Some r
  | None =>
      match s with
      | String _ s' => exec s'
      | EmptyString => None
      end
  end.

(** *** addTracking *)

Definition trackingPixel (trackingBaseUrl trackingId : string) : string :=
  "<img src=" ++ dq ++ trackingBaseUrl ++ "/track/open/" ++ trackingId ++ dq
  ++ " width=" ++ dq ++ "1" ++ dq ++ " height=" ++ dq ++ "1" ++ dq
  ++ " alt=" ++ dq ++ dq ++ " style=" ++ dq ++ "display:none;" ++ dq ++ " />".

Definition clickUrl (trackingBaseUrl trackingId : string) (index : nat) : string :=
  trackingBaseUrl ++ "/track/click/" ++ trackingId ++ "/"
  ++ numToString (Z.of_nat index).

Definition hrefOf (url : string) : string := "href=" ++ dq ++ url ++ dq.

(** The test that guards the body of the loop. *)
Definition toTrack (originalUrl : string) : bool :=
  negb (String.eqb originalUrl EmptyString)
  && negb (startsWith originalUrl "#")
  && negb (startsWith originalUrl "mailto:").

Definition newLink (original tracking : string) : EmailDoc.link :=
  {| EmailDoc.original := original; EmailDoc.tracking := tracking;
     EmailDoc.clicks := 0; EmailDoc.lastClickedAt := None |}.

(** The [while] loop.  [rest] is the text of [html] from [lastIndex]
    on; every match consumes at least one character, so a fuel of the
    length of [html] plus one is never exhausted ([trackLinks_fuel]
    below). *)
Fixpoint trackLinks (fuel : nat) (trackingBaseUrl trackingId : string)
  (rest trackedHtml : string) (links : list EmailDoc.link) (index : nat)
  : string * list EmailDoc.link :=
  match fuel with
  | O => (trackedHtml, links)
  | S fuel' =>
      match exec rest with
      | None => (trackedHtml, links)
      | Some (originalUrl, rest') =>
          if toTrack originalUrl then
            let trackingUrl := clickUrl trackingBaseUrl trackingId index in
            trackLinks fuel' trackingBaseUrl trackingId rest'
              (replace trackedHtml (hrefOf originalUrl) (hrefOf trackingUrl))
              (links ++ [newLink originalUrl trackingUrl])%list
              (S index)
          else
            trackLinks fuel' trackingBaseUrl trackingId rest' trackedHtml links index
      end
  end.

Definition addTracking (html trackingId trackingBaseUrl : string)
  : string * list EmailDoc.link :=
  let trackedHtml := html ++ trackingPixel trackingBaseUrl trackingId in
  trackLinks (S (String.length html)) trackingBaseUrl trackingId
    html trackedHtml [] 0.

(** *** sendEmail *)

Section Sending.
Context {R : Runtime} {C : Collaborators}.

Definition defaultFrom : string :=
  dq ++ interpolate EMAIL_FROM_NAME ++ dq
  ++ " <" ++ interpolate EMAIL_FROM ++ ">".

(** The message is handed to the transport; an accepted message goes to
    the outbox. *)
Definition sendEmail (options : mail) : M string :=
  tryCatch
    (let mailOptions :=
       {| m_from := if String.eqb (m_from options) EmptyString
                    then defaultFrom else m_from options;
          m_to := m_to options; m_subject := m_subject options;
          m_body := m_body options; m_isHtml := m_isHtml options |} in
     messageId <- lift (sendMail mailOptions) ;;
     modify (fun w => setOutbox (outbox w ++ [mailOptions])%list w) ;;
     ret messageId)
    (fun error => throw error).

End Sending.

End EmailService.

(** ** services/campaign.service.js *)

Module CampaignService.

Section Service.
Context {R : Runtime} {C : Collaborators}.

(** [Campaign.findByIdAndUpdate(id, { $inc: ... })]. *)
Definition incAnalytics (campaignId : string)
  (f : CampaignDoc.counters -> CampaignDoc.counters) : M unit :=
  modify (fun w =>
            setCampaigns
              (updateBy CampaignDoc._id campaignId
                 (fun c => CampaignDoc.setAnalytics (f (CampaignDoc.analytics c)) c)
                 (campaigns w)) w).

Definition trackingBaseUrl : string :=
  orDefault API_BASE_URL "http://localhost:3000".

(** The tracking id [scheduleEmail] computes for an HTML template. *)
Definition localTrackingId (campaign : CampaignDoc.t) (event : EventDoc.t)
  (now : Z) : string :=
  CampaignDoc._id campaign ++ "-" ++ EventDoc._id event ++ "-" ++ numToString now.

(** [{ ...map }] for a Mongoose map, as [campaign.defaultVariables] is:
    the spread copies the own enumerable properties of the object,
    which are the three bookkeeping fields its constructor assigns; the
    entries of a map are not properties of it. *)
Definition spreadOfMap (path : string) : list (string * value) :=
  [("$__parent", VHost); ("$__path", VStr path); ("$__schemaType", VHost)].

(** The object [variables] of [scheduleEmail]. *)
Definition variablesOf (campaign : CampaignDoc.t) (user : UserDoc.t)
  (event : EventDoc.t) : list (string * value) :=
  (spreadOfMap "defaultVariables" ++ variablesFor campaign user event)%list.

(** [new Email({ ... })] in [scheduleEmail], with the [_id] the
    constructor drew. *)
Definition newEmail (now : Z) (id : string) (campaign : CampaignDoc.t)
  (event : EventDoc.t) (user : UserDoc.t) (scheduledTime : Z)
  (template : TemplateDoc.t) : EmailDoc.t :=
  let variables := variablesOf campaign user event in
  let subject := renderTemplate (TemplateDoc.subject template) variables in
  let body := renderTemplate (TemplateDoc.body template) variables in
  let (trackingHtml, links) :=
    if TemplateDoc.isHtml template then
      let trackingId := localTrackingId campaign event now in
      EmailService.addTracking body trackingId trackingBaseUrl
    else (body, []) in
  {| EmailDoc._id := id;
     EmailDoc.userId := UserDoc._id user;
     EmailDoc.to := trim (UserDoc.email user);
     EmailDoc.from :=
       trim (interpolate EMAIL_FROM_NAME ++ " <"
             ++ interpolate EMAIL_FROM ++ ">");
     EmailDoc.subject := trim subject;
     EmailDoc.body := trackingHtml;
     EmailDoc.isHtml := TemplateDoc.isHtml template;
     EmailDoc.templateId := TemplateDoc._id template;
     EmailDoc.campaignId := CampaignDoc._id campaign;
     EmailDoc.eventId := EventDoc._id event;
     EmailDoc.state := EmailDoc.scheduled;
     EmailDoc.scheduledFor := scheduledTime;
     EmailDoc.sentAt := None;
     EmailDoc.deliveredAt := None;
     EmailDoc.openedAt := None;
     EmailDoc.clickedAt := None;
     EmailDoc.variables := variables;
     EmailDoc.messageId := None;
     EmailDoc.trackingId := None;
     EmailDoc.links := links;
     EmailDoc.errorMessage := None |}.

Definition scheduleEmail (now : Z) (campaign : CampaignDoc.t) (event : EventDoc.t)
  (user : UserDoc.t) (scheduledTime : Z) : M EmailDoc.t :=
  tryCatch
    (w <- get ;;
     match findBy TemplateDoc._id (CampaignDoc.templateId campaign) (templates w) with
     | None =>
         throw (Error ("Template " ++ CampaignDoc.templateId campaign
                       ++ " not found for campaign " ++ CampaignDoc._id campaign))
     | Some template =>
         id <- ObjectId ;;
         Email.saveNew (newEmail now id campaign event user scheduledTime template)
     end)
    (fun error => throw error).

(** The body of the [for] loop of [processEvent] for one campaign.  The
    in-memory event keeps the pushed entry whether or not the [try]
    block completes. *)
Definition processCampaign (now : Z) (user : UserDoc.t) (campaign : CampaignDoc.t)
  (acc : EventDoc.t * list CampaignDoc.t) : M (EventDoc.t * list CampaignDoc.t) :=
  let (event, triggeredCampaigns) := acc in
  if negb (Campaign.isDateActive now campaign) then ret acc
  else if negb (Campaign.shouldSendToUser campaign (EventDoc.userId event)) then ret acc
  else
    matches <- lift (Campaign.matchesConditions campaign event) ;;
    if negb matches then ret acc
    else
      let scheduledTime := (EventDoc.timestamp event + CampaignDoc.delay campaign * 1000)%Z in
      let triggeredCampaigns' := (triggeredCampaigns ++ [campaign])%list in
      let event' :=
        Event.pushTriggered now (CampaignDoc._id campaign) EventDoc.scheduled
          scheduledTime event in
      tryCatch
        (Event.addTriggeredCampaign now (CampaignDoc._id campaign) EventDoc.scheduled
           scheduledTime event ;;
         scheduleEmail now campaign event' user scheduledTime ;;
         ret tt)
        (fun error => ret tt) ;;
      ret (event', triggeredCampaigns').

Fixpoint processCampaigns (now : Z) (user : UserDoc.t) (cs : list CampaignDoc.t)
  (acc : EventDoc.t * list CampaignDoc.t) : M (EventDoc.t * list CampaignDoc.t) :=
  match cs with
  | [] => ret acc
  | campaign :: rest =>
      acc' <- processCampaign now user campaign acc ;;
      processCampaigns now user rest acc'
  end.

(** [Campaign.find({ triggerEvent, status: 'active' })]. *)
Definition findCandidates (eventType : string) (w : world) : list CampaignDoc.t :=
  filter (fun c => String.eqb (CampaignDoc.triggerEvent c) eventType
                   && CampaignDoc.status_eqb (CampaignDoc.state c) CampaignDoc.active)
    (campaigns w).

Definition processEvent (now : Z) (event : EventDoc.t) : M (list CampaignDoc.t) :=
  tryCatch
    (w <- get ;;
     let campaigns := findCandidates (EventDoc.eventType event) w in
     if Nat.eqb (List.length campaigns) 0 then
       Event.markProcessedById (EventDoc._id event) ;; ret []
     else
       match findBy UserDoc._id (EventDoc.userId event) (users w) with
       | None => Event.markProcessedById (EventDoc._id event) ;; ret []
       | Some user =>
           r <- processCampaigns now user campaigns (event, []) ;;
           Event.markProcessedById (EventDoc._id event) ;;
           ret (snd r)
       end)
    (fun error => throw error).

(** The [for] loop of [processScheduledEmails]. *)
Definition sendOne (now : Z) (email : EmailDoc.t) (sentCount : nat) : M nat :=
  tryCatch
    (Email.saveModified (EmailDoc._id email) (EmailDoc.onlyState EmailDoc.sending) ;;
     messageId <- EmailService.sendEmail
       {| m_to := EmailDoc.to email; m_from := EmailDoc.from email;
          m_subject := EmailDoc.subject email; m_body := EmailDoc.body email;
          m_isHtml := EmailDoc.isHtml email |} ;;
     Email.updateStatus now EmailDoc.sent
       {| EmailDoc.p_state := None; EmailDoc.p_sentAt := Some now;
          EmailDoc.p_deliveredAt := None; EmailDoc.p_openedAt := None;
          EmailDoc.p_clickedAt := None; EmailDoc.p_messageId := Some messageId;
          EmailDoc.p_trackingId := None; EmailDoc.p_links := None;
          EmailDoc.p_errorMessage := None |}
       EmailDoc.noPatch email ;;
     incAnalytics (EmailDoc.campaignId email) CampaignDoc.incSent ;;
     ret (S sentCount))
    (fun error =>
       Email.updateStatus now EmailDoc.failed
         {| EmailDoc.p_state := None; EmailDoc.p_sentAt := None;
            EmailDoc.p_deliveredAt := None; EmailDoc.p_openedAt := None;
            EmailDoc.p_clickedAt := None; EmailDoc.p_messageId := None;
            EmailDoc.p_trackingId := None; EmailDoc.p_links := None;
            EmailDoc.p_errorMessage := Some (message error) |}
         EmailDoc.noPatch email ;;
       incAnalytics (EmailDoc.campaignId email) CampaignDoc.incBounced ;;
       ret sentCount).

Fixpoint sendAll (now : Z) (pendingEmails : list EmailDoc.t) (sentCount : nat) : M nat :=
  match pendingEmails with
  | [] => ret sentCount
  | email :: rest =>
      n <- sendOne now email sentCount ;;
      sendAll now rest n
  end.

Definition processScheduledEmails (now : Z) (batchSize : nat) : M nat :=
  tryCatch
    (w <- get ;;
     let pendingEmails := Email.findPendingEmails now batchSize w in
     if Nat.eqb (List.length pendingEmails) 0 then ret 0
     else sendAll now pendingEmails 0)
    (fun error => throw error).

(** The [for] loop of [processUnprocessedEvents]. *)
Fixpoint processAll (now : Z) (evs : list EventDoc.t) (processedCount : nat) : M nat :=
  match evs with
  | [] => ret processedCount
  | event :: rest =>
      n <- tryCatch (processEvent now event ;; ret (S processedCount))
             (fun error => ret processedCount) ;;
      processAll now rest n
  end.

Definition processUnprocessedEvents (now : Z) (batchSize : nat) : M nat :=
  tryCatch
    (w <- get ;;
     let evs := Event.findUnprocessed batchSize w in
     if Nat.eqb (List.length evs) 0 then ret 0
     else processAll now evs 0)
    (fun error => throw error).

Definition trackEmailOpen (now : Z) (trackingId : string) : M (option EmailDoc.t) :=
  tryCatch
    (w <- get ;;
     match Email.findOneByTrackingId trackingId (emails w) with
     | None => ret None
     | Some email =>
         if negb (EmailDoc.status_eqb (EmailDoc.state email) EmailDoc.opened) then
           email' <- Email.updateStatus now EmailDoc.opened EmailDoc.noPatch
                       EmailDoc.noPatch email ;;
           incAnalytics (EmailDoc.campaignId email') CampaignDoc.incOpened ;;
           ret (Some email')
         else ret (Some email)
     end)
    (fun error => throw error).

(** What [trackEmailClick] resolves to.  In [url], [None] is [null] or
    [undefined]: the one reader of the field tests it for truthiness. *)
Record clickResult := {
  url : option string;
  email : option EmailDoc.t
}.

(** What a property read on the array [email.links] finds: a link, a
    truthy member of the array that is not a link (a method, a
    non-zero [length]), or nothing truthy. *)
Inductive member : Type :=
| Element (l : EmailDoc.link)
| Member
| Absent.

(** [email.links[linkIndex]] for the string of the route: an array
    index reads the element at that position; [length] reads the
    number of links; any other key reads the member of that name that
    the array object inherits, whose names begin as identifiers do. *)
Definition linkByKey (e : EmailDoc.t) (linkIndex : string) : member :=
  match arrayIndex linkIndex with
  | Some i =>
      match nth_error (EmailDoc.links e) i with
      | Some l => Element l
      | None => Absent
      end
  | None =>
      if String.eqb linkIndex "length" then
        if Nat.eqb (List.length (EmailDoc.links e)) 0 then Absent else Member
      else if identifierKey linkIndex && arrayMember linkIndex then Member
      else Absent
  end.

Definition trackEmailClick (now : Z) (trackingId linkIndex : string) : M clickResult :=
  tryCatch
    (w <- get ;;
     match Email.findOneByTrackingId trackingId (emails w) with
     | None => ret {| url := None; email := None |}
     | Some email0 =>
         email1 <- Email.trackClick now (parseInt10 linkIndex) email0 ;;
         (if negb (EmailDoc.status_eqb (EmailDoc.state email1) EmailDoc.clicked)
          then incAnalytics (EmailDoc.campaignId email1) CampaignDoc.incClicked
          else ret tt) ;;
         let originalUrl :=
           match linkByKey email1 linkIndex with
           | Element l => Some (EmailDoc.original l)
           | Member => None
           | Absent => Some "/"
           end in
         ret {| url := originalUrl; email := Some email1 |}
     end)
    (fun error => throw error).

End Service.

End CampaignService.

(** ** controllers/tracking.controller.js *)

Module TrackingController.

Inductive response :=
| Image (status : nat) (headers : list (string * string)) (payload : list N)
| Redirect (location : string).

(** [Buffer.from(s, 'base64')]. *)
Definition sextet (c : ascii) : option N :=
  let n := N_of_ascii c in
  if (65 <=? n)%N && (n <=? 90)%N then Some (n - 65)%N
  else if (97 <=? n)%N && (n <=? 122)%N then Some (n - 71)%N
  else if (48 <=? n)%N && (n <=? 57)%N then Some (n + 4)%N
  else if (n =? 43)%N || (n =? 45)%N then Some 62%N
  else if (n =? 47)%N || (n =? 95)%N then Some 63%N
  else None.

Fixpoint sextets (s : string) : list N :=
  match s with
  | EmptyString => []
  | String c s' =>
      if chr c 61 then []
      else match sextet c with
           | Some x => x :: sextets s'
           | None => sextets s'
           end
  end.

Fixpoint octets (l : list N) : list N :=
  match l with
  | a :: b :: c :: d :: rest =>
      (a * 4 + b / 16 :: (b mod 16) * 16 + c / 4 :: (c mod 4) * 64 + d
         :: octets rest)%N
  | [a; b; c] => [a * 4 + b / 16; (b mod 16) * 16 + c / 4]%N
  | [a; b] => [a * 4 + b / 16]%N
  | _ => []
  end.

Definition bufferFromBase64 (s : string) : list N := octets (sextets s).

Definition transparentGif : list N :=
  bufferFromBase64 "R0lGODlhAQABAIAAAAAAAP///yH5BAEAAAAALAAAAAABAAEAAAIBRAA7".

(** The callback given to [setTimeout], for a service call [service]. *)
Definition deferred (service : M (option EmailDoc.t)) : M unit :=
  tryCatch (service ;; ret tt) (fun error => ret tt).

(** The body of [trackEmailOpen(req, res)]: the response, and the task it
    left on the timer queue. *)
Definition openHandler (service : M (option EmailDoc.t)) : M (response * M unit) :=
  tryCatch
    (let task := deferred service in
     ret (Image 200
            [("Content-Type", "image/gif");
             ("Content-Length", numToString (Z.of_nat (List.length transparentGif)));
             ("Cache-Control", "no-store, no-cache, must-revalidate, max-age=0");
             ("Pragma", "no-cache");
             ("Expires", "Mon, 01 Jan 1990 00:00:00 GMT")]
            transparentGif,
          task))
    (fun error =>
       ret (Image 200
              [("Content-Type", "image/gif");
               ("Content-Length", numToString (Z.of_nat (List.length transparentGif)))]
              transparentGif,
            ret tt)).

Definition trackEmailOpen (now : Z) (trackingId : string) : M (response * M unit) :=
  openHandler (CampaignService.trackEmailOpen now trackingId).

(** The body of [trackEmailClick(req, res)], for a service call
    [service]. *)
Definition clickHandler (service : M CampaignService.clickResult) : M response :=
  tryCatch
    (result <- service ;;
     match CampaignService.url result with
     | None => ret (Redirect "/")
     | Some u =>
         if String.eqb u EmptyString then ret (Redirect "/")
         else ret (Redirect u)
     end)
    (fun error => ret (Redirect "/")).

Definition trackEmailClick {R : Runtime} (now : Z) (trackingId linkIndex : string) :
  M response :=
  clickHandler (CampaignService.trackEmailClick now trackingId linkIndex).

End TrackingController.

(** ** Notions of the specification *)

(** The path as the specification reads it: plain property reads, with
    no test on the values met on the way. *)
Definition resolvePath (parts : list string) (v : value) : value :=
  fold_left getProp parts v.

(** [Subseq l1 l2]: [l1] is [l2] with some elements left out. *)
Inductive Subseq (A : Type) : list A -> list A -> Prop :=
| Subseq_nil : Subseq [] []
| Subseq_skip (x : A) (l1 l2 : list A) : Subseq l1 l2 -> Subseq l1 (x :: l2)
| Subseq_keep (x : A) (l1 l2 : list A) : Subseq l1 l2 -> Subseq (x :: l1) (x :: l2).

(** The loop of [processEvent] without the world: which candidates are
    triggered, and the entries pushed on the event in memory. *)
Section Evaluation.
Context {R : Runtime}.

Definition evaluate (now : Z) (c : CampaignDoc.t)
  (acc : EventDoc.t * list CampaignDoc.t) : outcome (EventDoc.t * list CampaignDoc.t) :=
  let (event, triggered) := acc in
  if negb (Campaign.isDateActive now c) then Ok acc
  else if negb (Campaign.shouldSendToUser c (EventDoc.userId event)) then Ok acc
  else match Campaign.matchesConditions c event with
       | Throw e => Throw e
       | Ok false => Ok acc
       | Ok true =>
           Ok (Event.pushTriggered now (CampaignDoc._id c) EventDoc.scheduled
                 (EventDoc.timestamp event + CampaignDoc.delay c * 1000)%Z event,
               (triggered ++ [c])%list)
       end.

Fixpoint evaluateAll (now : Z) (cs : list CampaignDoc.t)
  (acc : EventDoc.t * list CampaignDoc.t) : outcome (EventDoc.t * list CampaignDoc.t) :=
  match cs with
  | [] => Ok acc
  | c :: rest =>
      match evaluate now c acc with
      | Ok acc' => evaluateAll now rest acc'
      | Throw e => Throw e
      end
  end.

End Evaluation.

(** What a computation leaves alone. *)
Definition sameButEmails (w w' : world) : Prop :=
  events w' = events w /\ campaigns w' = campaigns w
  /\ templates w' = templates w /\ users w' = users w
  /\ outbox w' = outbox w /\ finalized w' = finalized w.

(** What a run of the loop of [processEvent] that triggers the campaigns
    [sel] for the event [id] does to the world: entries for some of
    [sel] are appended to the stored event, the rest is left alone. *)
Definition matcherEffect (id : string) (sel : list CampaignDoc.t) (w w' : world) : Prop :=
  campaigns w' = campaigns w /\ templates w' = templates w
  /\ users w' = users w /\ outbox w' = outbox w /\ finalized w' = finalized w
  /\ (exists entries,
        Subseq (map EventDoc.campaignId entries) (map CampaignDoc._id sel)
        /\ events w'
           = updateBy EventDoc._id id
               (fun e => EventDoc.setTriggeredCampaigns
                           (EventDoc.triggeredCampaigns e ++ entries)%list e)
               (events w))
  /\ emails w' = emails w.

(** When the email of a campaign triggered by an event is due: the
    timestamp of the event plus the delay of the campaign, in seconds. *)
Definition dueFor (event : EventDoc.t) (c : CampaignDoc.t) : Z :=
  (EventDoc.timestamp event + CampaignDoc.delay c * 1000)%Z.

(** Every entry of the event in memory carries a date that is valid. *)
Definition datesValid (e : EventDoc.t) : bool :=
  forallb (fun x => Event.validDate (EventDoc.scheduledFor x))
    (EventDoc.triggeredCampaigns e).

(** Classes of characters. *)
Definition notLt (c : ascii) : bool := negb (chr c 60).
Definition notEq (c : ascii) : bool := negb (chr c 61).
Definition notH (c : ascii) : bool := negb (Ascii.eqb "h" c).
Definition notDollar (c : ascii) : bool := negb (chr c 36).
Definition notDquote (c : ascii) : bool := negb (chr c 34).
Definition notSpace (c : ascii) : bool := negb (isSpace c).

(** Text between tags; a base URL or a tracking id; a URL in an
    attribute. *)
Definition plainChar (c : ascii) : bool := notLt c && notEq c.
Definition idChar (c : ascii) : bool := notEq c && notDquote c && notDollar c.
Definition urlChar (c : ascii) : bool := notSpace c && notDquote c.

(** An anchor element, and a body with two of them. *)
Definition anchorTag (url : string) : string := "<a " ++ EmailService.hrefOf url ++ ">".
Definition anchor (url text : string) : string := anchorTag url ++ text ++ "</a>".

Definition twoAnchorBody (url1 url2 pre t1 mid t2 post : string) : string :=
  pre ++ anchor url1 t1 ++ mid ++ anchor url2 t2 ++ post.

(** [indexOf] goes through [x] without finding [p]. *)
Definition skips (x rest p : string) : Prop :=
  indexOf (x ++ rest) p = option_map (Nat.add (String.length x)) (indexOf rest p).

(** The aggregate counters of a campaign. *)
Definition openedOf (c : CampaignDoc.t) : Z :=
  CampaignDoc.opened (CampaignDoc.analytics c).

Definition clickedOf (c : CampaignDoc.t) : Z :=
  CampaignDoc.clicked (CampaignDoc.analytics c).

(** The patch [trackClick] saves for a click on the link at [z]. *)
Definition clickPatch (now : Z) (z : Z) (e : EmailDoc.t) : EmailDoc.patch :=
  {| EmailDoc.p_state := Some EmailDoc.clicked; EmailDoc.p_sentAt := None;
     EmailDoc.p_deliveredAt := None; EmailDoc.p_openedAt := None;
     EmailDoc.p_clickedAt := Some now; EmailDoc.p_messageId := None;
     EmailDoc.p_trackingId := None;
     EmailDoc.p_links :=
       Some (Email.updateNth (Z.to_nat z) (Email.clickLink now) (EmailDoc.links e));
     EmailDoc.p_errorMessage := None |}.

(** ** Sample data *)

Module Sample.

Definition runtime : Runtime :=
  {| coercedLe := fun _ _ => Some false;
     coercedGe := fun _ _ => Some false;
     arrayMember := fun key =>
       existsb (String.eqb key) ["push"; "pop"; "map"; "constructor"; "toString"];
     API_BASE_URL := Some "https://mail.example";
     EMAIL_FROM_NAME := Some "Shop";
     EMAIL_FROM := Some "shop@example.com" |}.

Definition collaborators : Collaborators :=
  {| sendMail := fun _ => Ok "<1@smtp.example>";
     variablesFor := fun _ _ _ => [];
     renderTemplate := fun template _ => template |}.

Definition zeroCounters : CampaignDoc.counters :=
  {| CampaignDoc.sent := 0; CampaignDoc.opened := 0; CampaignDoc.clicked := 0;
     CampaignDoc.bounced := 0; CampaignDoc.unsubscribed := 0;
     CampaignDoc.complained := 0 |}.

Definition campaignWith (id template : string) (conds : list (string * value))
  : CampaignDoc.t :=
  {| CampaignDoc._id := id; CampaignDoc.name := "Welcome " ++ id;
     CampaignDoc.templateId := template;
     CampaignDoc.triggerEvent := "purchase"; CampaignDoc.delay := 60;
     CampaignDoc.conditions := conds; CampaignDoc.audience := [];
     CampaignDoc.excludedAudience := []; CampaignDoc.startDate := 0;
     CampaignDoc.endDate := None; CampaignDoc.state := CampaignDoc.active;
     CampaignDoc.analytics := zeroCounters |}.

Definition campaign : CampaignDoc.t :=
  campaignWith "64b0000000000000000000c1" "64b0000000000000000000a1" [].

(** Two anchors with the same URL, as in the example of the
    specification. *)
Definition twoAnchors : string :=
  twoAnchorBody "https://x.test" "https://x.test" EmptyString "A" EmptyString "B"
    EmptyString.

Definition template : TemplateDoc.t :=
  {| TemplateDoc._id := "64b0000000000000000000a1";
     TemplateDoc.subject := "Thanks";
     TemplateDoc.body := twoAnchors;
     TemplateDoc.isHtml := true |}.

Definition user : UserDoc.t :=
  {| UserDoc._id := "64b0000000000000000000b1"; UserDoc.name := "Ada";
     UserDoc.email := "ada@example.com"; UserDoc.attributes := [] |}.

Definition eventWith (meta : value) : EventDoc.t :=
  {| EventDoc._id := "64b0000000000000000000e1";
     EventDoc.userId := "64b0000000000000000000b1";
     EventDoc.eventType := "purchase"; EventDoc.timestamp := 1000;
     EventDoc.metadata := meta; EventDoc.processed := false;
     EventDoc.triggeredCampaigns := [];
     EventDoc.otherPaths := [("source", VStr "api")] |}.

Definition event : EventDoc.t := eventWith (VObj [("count", VNum 0)]).

Definition world0 : world :=
  {| events := [event]; emails := []; campaigns := [campaign];
     templates := [template]; users := [user]; outbox := [];
     finalized := []; nextId := 1 |}.

(** A delivery with one link, in a given status. *)
Definition delivery (s : EmailDoc.status) : EmailDoc.t :=
  {| EmailDoc._id := "64b0000000000000000000d1";
     EmailDoc.userId := "64b0000000000000000000b1";
     EmailDoc.to := "ada@example.com"; EmailDoc.from := "Shop <shop@example.com>";
     EmailDoc.subject := "Thanks"; EmailDoc.body := "<p>Hello</p>";
     EmailDoc.isHtml := true;
     EmailDoc.templateId := "64b0000000000000000000a1";
     EmailDoc.campaignId := "64b0000000000000000000c1";
     EmailDoc.eventId := "64b0000000000000000000e1";
     EmailDoc.state := s; EmailDoc.scheduledFor := 2000;
     EmailDoc.sentAt := None; EmailDoc.deliveredAt := None;
     EmailDoc.openedAt := None; EmailDoc.clickedAt := None;
     EmailDoc.variables := []; EmailDoc.messageId := None;
     EmailDoc.trackingId := Some "64b0000000000000000000f1loyw3v28";
     EmailDoc.links :=
       [EmailService.newLink "https://x.test"
          "https://mail.example/track/click/t/0"];
     EmailDoc.errorMessage := None |}.

Definition deliveryTrackingId : string := "64b0000000000000000000f1loyw3v28".

Definition worldWith (s : EmailDoc.status) : world :=
  {| events := [event]; emails := [delivery s]; campaigns := [campaign];
     templates := [template]; users := [user]; outbox := [];
     finalized := []; nextId := 1 |}.

(** The composer run on the sample event. *)
Definition scheduledRun : outcome EmailDoc.t * world :=
  CampaignService.scheduleEmail (R := runtime) (C := collaborators)
    1700000000000 campaign event user 61000 world0.

(** The document that run hands to [save]. *)
Definition builtEmail : EmailDoc.t :=
  CampaignService.newEmail (R := runtime) (C := collaborators)
    1700000000000 "000000000000000000000001" campaign event user 61000 template.

Definition encodedId : string :=
  "64b0000000000000000000c1-64b0000000000000000000e1-1700000000000".



(** The sweep fetches the unprocessed events, the dispatch that follows
    the ingestion of the sample event runs the matcher on it, and the
    sweep then goes through the documents it fetched. *)
Definition sweepDocs : list EventDoc.t := Event.findUnprocessed 100 world0.

Definition afterDispatch : world :=
  snd (CampaignService.processEvent (R := runtime) (C := collaborators)
         5000 event world0).

Definition afterSweep : world :=
  snd (CampaignService.processAll (R := runtime) (C := collaborators)
         5001 sweepDocs 0 afterDispatch).

(** Two runs of the delivery worker that both query the due items
    before either claims them. *)
Definition due : list EmailDoc.t :=
  Email.findPendingEmails 5000 10 (worldWith EmailDoc.scheduled).

Definition afterRunA : world :=
  snd (CampaignService.sendAll (R := runtime) (C := collaborators) 5000 due 0
         (worldWith EmailDoc.scheduled)).

Definition afterRunB : world :=
  snd (CampaignService.sendAll (R := runtime) (C := collaborators) 5000 due 0
         afterRunA).

Definition acceptedMail : mail :=
  {| m_from := "Shop <shop@example.com>"; m_to := "ada@example.com";
     m_subject := "Thanks"; m_body := "<p>Hello</p>"; m_isHtml := true |}.

(** Conditions on a path the sample event does not have, and on one it
    has with the value 0. *)
Definition existsFalse : value := VObj [("exists", VBool false)].

Definition campaignMissing : CampaignDoc.t :=
  campaignWith "64b0000000000000000000c2" "64b0000000000000000000a1"
    [("metadata.productId", existsFalse)].

Definition campaignZero : CampaignDoc.t :=
  campaignWith "64b0000000000000000000c3" "64b0000000000000000000a1"
    [("metadata.count", VNum 0)].

End Sample.

(** ** Further code and notions *)

From Stdlib Require Import Sorted Permutation.

(** ** The Template model *)

Module Template.

(** An element of the path [variables], which [TemplateDoc.t] leaves
    out; the functions below take the array beside the document. *)
Record variable := {
  name : string;
  description : string;
  defaultValue : string
}.

(** *** The regular expression of [detectVariables]
    Two opening braces, a group of one or more characters other than
    the closing brace, two closing braces, with the flag [g].  A match
    yields the group and the text after the match. *)

(** The group and the closing braces: greedy, one more character is
    tried before the closing braces are. *)
Fixpoint nameThenClose (s : string) : option (string * string) :=
  match s with
  | String c s' =>
      if chr c 125 then None
      else match nameThenClose s' with
           | Some (u, rest) => Some (String c u, rest)
           | None =>
               if startsWith s' "}}" then Some (String c EmptyString, drop 2 s')
               else None
           end
  | EmptyString => None
  end.

Definition matchHere (s : string) : option (string * string) :=
  if startsWith s "{{" then nameThenClose (drop 2 s) else None.

(** [regex.exec] on the text from [lastIndex] on: the leftmost match. *)
Fixpoint exec (s : string) : option (string * string) :=
  match matchHere s with
  | Some r => Some r
  | None =>
      match s with
      | String _ s' => exec s'
      | EmptyString => None
      end
  end.

(** [variables.add(x)] on a [Set], kept in insertion order. *)
Definition add (x : string) (variables : list string) : list string :=
  if Campaign.includes variables x then variables else (variables ++ [x])%list.

(** One [while] loop of [detectVariables].  Every match consumes at
    least one character, so a fuel of the length of the text plus one
    is never exhausted ([collect_fuel] below). *)
Fixpoint collect (fuel : nat) (rest : string) (variables : list string) : list string :=
  match fuel with
  | O => variables
  | S fuel' =>
      match exec rest with
      | None => variables
      | Some (group, rest') => collect fuel' rest' (add (trim group) variables)
      end
  end.

Definition detectVariables (t : TemplateDoc.t) : list string :=
  let variables :=
    collect (S (String.length (TemplateDoc.subject t))) (TemplateDoc.subject t) [] in
  collect (S (String.length (TemplateDoc.body t))) (TemplateDoc.body t) variables.

(** The element [push] adds: the schema trims [name] and
    [description]. *)
Definition newVariable (varName : string) : variable :=
  {| name := trim varName;
     description := trim ("Variable for " ++ varName);
     defaultValue := EmptyString |}.

(** The [pre('save')] hook: its effect on the array [variables]. *)
Definition preSave (t : TemplateDoc.t) (variables : list variable) : list variable :=
  let detectedVariables := detectVariables t in
  let existingVarNames := map name variables in
  fold_left
    (fun vars varName =>
       if negb (Campaign.includes existingVarNames varName)
       then (vars ++ [newVariable varName])%list
       else vars)
    detectedVariables variables.

End Template.

(** A character other than the closing brace. *)
Definition notClose (c : ascii) : bool := negb (chr c 125).

(** ** services/email.service.js: renderTemplate *)

Module Rendering.

(** The characters that have a meaning of their own in the source of a
    regular expression: the circumflex, the dollar, the backslash, the
    dot, the star, the plus, the question mark, the parentheses, the
    brackets, the braces and the bar. *)
Definition syntaxChar (c : ascii) : bool :=
  existsb (chr c) [94; 36; 92; 46; 42; 43; 63; 40; 41; 91; 93; 123; 125; 124].

(** A key that [new RegExp] reads as the literal text of the key. *)
Definition plainKey (key : string) : bool :=
  allChars (fun c => negb (syntaxChar c)) key.

(** *** The regular expression built for a plain key
    Two opening braces, white space, the key, white space, two closing
    braces, with the flag [g], as a backtracking matcher in
    continuation-passing style.  A match yields the text after it. *)

(** White space, any number of times, followed by [k]: greedy, one
    more white space is tried before the continuation. *)
Fixpoint spaces0 (k : string -> option string) (s : string) : option string :=
  match s with
  | String c s' =>
      if isSpace c then
        match spaces0 k s' with
        | Some r => Some r
        | None => k s
        end
      else k s
  | EmptyString => k s
  end.

(** The text [p] followed by [k]. *)
Definition literal (p : string) (k : string -> option string) (s : string)
  : option string :=
  if startsWith s p then k (drop (String.length p) s) else None.

(** The whole expression at the start of [s]. *)
Definition matchHere (key s : string) : option string :=
  literal "{{" (spaces0 (literal key (spaces0 (literal "}}" (@Some string))))) s.

(** [rendered.replace(regex, value)] for the expression of [key]:
    [before] is the text already gone through and [rest] the text from
    [lastIndex] on.  Every match consumes at least four characters, so a
    fuel of the length of the text plus one is never exhausted
    ([replaceAll_fuel] below). *)
Fixpoint replaceAll (fuel : nat) (key value before rest : string) : string :=
  match fuel with
  | O => rest
  | S fuel' =>
      match matchHere key rest with
      | Some after =>
          let matched := take (String.length rest - String.length after) rest in
          getSubstitution matched before after value
          ++ replaceAll fuel' key value (before ++ matched) after
      | None =>
          match rest with
          | String c rest' =>
              String c (replaceAll fuel' key value (before ++ String c EmptyString) rest')
          | EmptyString => EmptyString
          end
      end
  end.

Definition replaceKey (rendered key value : string) : string :=
  replaceAll (S (String.length rendered)) key value EmptyString rendered.

(** [renderTemplate(template, variables)], for the entries of
    [variables] in the order of [Object.entries] and values that are
    strings.  [None]: a key holds a character that is special in a
    regular expression; this model does not say what the expression
    built from such a key matches. *)
Definition renderTemplate (template : string) (variables : list (string * string))
  : option string :=
  fold_left
    (fun rendered entry =>
       match rendered with
       | Some r =>
           if plainKey (fst entry) then Some (replaceKey r (fst entry) (snd entry))
           else None
       | None => None
       end)
    variables (Some template).

End Rendering.

(** A character other than the opening brace; a placeholder of a key
    with white space around it. *)
Definition notOpen (c : ascii) : bool := negb (chr c 123).

Definition placeholder (ws1 key ws2 : string) : string :=
  "{{" ++ ws1 ++ key ++ ws2 ++ "}}".

(** ** Notions for the delivery worker *)

(** A stored delivery that passes validation and the hook: the
    required paths filled, the keys of [variables] accepted by the map,
    and a [trackingId]. *)
Definition schemaValid (e : EmailDoc.t) : bool :=
  negb (String.eqb (EmailDoc.to e) EmptyString)
  && negb (String.eqb (EmailDoc.from e) EmptyString)
  && negb (String.eqb (EmailDoc.subject e) EmptyString)
  && negb (String.eqb (EmailDoc.body e) EmptyString)
  && forallb (fun kv => Email.mapKey (fst kv)) (EmailDoc.variables e)
  && match EmailDoc.trackingId e with
     | Some s => negb (String.eqb s EmptyString)
     | None => false
     end.

(** The message of a delivery, with the sender stored on it. *)
Definition messageOf (e : EmailDoc.t) : mail :=
  {| m_from := EmailDoc.from e; m_to := EmailDoc.to e;
     m_subject := EmailDoc.subject e; m_body := EmailDoc.body e;
     m_isHtml := EmailDoc.isHtml e |}.

Section WorkerNotions.
Context {R : Runtime} {C : Collaborators}.

(** Whether the transport accepts the message of a delivery. *)
Definition acceptedMessage (e : EmailDoc.t) : bool :=
  match sendMail (messageOf e) with
  | Ok _ => true
  | Throw _ => false
  end.

(** The message [sendEmail] hands to the transport for a delivery. *)
Definition outgoing (e : EmailDoc.t) : mail :=
  {| m_from := if String.eqb (EmailDoc.from e) EmptyString
               then EmailService.defaultFrom else EmailDoc.from e;
     m_to := EmailDoc.to e; m_subject := EmailDoc.subject e;
     m_body := EmailDoc.body e; m_isHtml := EmailDoc.isHtml e |}.

(** Whether the transport accepts the message of a delivery. *)
Definition accepted (e : EmailDoc.t) : bool :=
  match sendMail (outgoing e) with
  | Ok _ => true
  | Throw _ => false
  end.

(** The status a delivery is left in by the worker. *)
Definition statusAfterSend (e : EmailDoc.t) : EmailDoc.status :=
  if accepted e then EmailDoc.sent else EmailDoc.failed.

(** The deliveries of a batch for one campaign, by what the transport
    did with them. *)
Definition acceptedFor (campaignId : string) (l : list EmailDoc.t) : list EmailDoc.t :=
  filter (fun e => String.eqb (EmailDoc.campaignId e) campaignId && accepted e) l.

Definition rejectedFor (campaignId : string) (l : list EmailDoc.t) : list EmailDoc.t :=
  filter (fun e => String.eqb (EmailDoc.campaignId e) campaignId && negb (accepted e)) l.

End WorkerNotions.

Definition sentOf (c : CampaignDoc.t) : Z :=
  CampaignDoc.sent (CampaignDoc.analytics c).

Definition bouncedOf (c : CampaignDoc.t) : Z :=
  CampaignDoc.bounced (CampaignDoc.analytics c).

(** ** Notions for the matcher *)

Section MatcherNotions.
Context {R : Runtime}.

(** Whether a campaign passes the three tests of the loop of
    [processEvent] for an event. *)
Definition passes (now : Z) (event : EventDoc.t) (c : CampaignDoc.t) : bool :=
  Campaign.isDateActive now c
  && Campaign.shouldSendToUser c (EventDoc.userId event)
  && match Campaign.matchesConditions c event with
     | Ok b => b
     | Throw _ => false
     end.

End MatcherNotions.

(** Whether the run of the matcher over an event resolves. *)
Definition resolves {R : Runtime} {C : Collaborators} (now : Z) (w : world)
  (x : EventDoc.t) : bool :=
  match fst (CampaignService.processEvent now x w) with
  | Ok _ => true
  | Throw _ => false
  end.

(** The [processed] flag of the stored event with a given id. *)
Definition processedFlag (id : string) (w : world) : option bool :=
  option_map EventDoc.processed (findBy EventDoc._id id (events w)).



(** The first part of a dotted key, and whether a condition of a
    campaign starts at the path [triggeredCampaigns], which the loop of
    [processEvent] changes on the event in memory. *)
Definition firstPart (key : string) : string := hd EmptyString (split "." key).

Definition readsTriggered (c : CampaignDoc.t) : bool :=
  existsb (fun entry => String.eqb (firstPart (fst entry)) "triggeredCampaigns")
    (CampaignDoc.conditions c).

(** The paths of the Event schema that neither a push on
    [triggeredCampaigns] nor a [save] of the event changes, and whether
    every condition of a campaign starts at one of them. *)
Definition stablePaths : list string :=
  ["_id"; "userId"; "eventType"; "timestamp"; "metadata"; "processed";
   "source"; "sessionId"; "ip"; "userAgent"].

Definition readsStable (c : CampaignDoc.t) : bool :=
  forallb (fun entry => existsb (String.eqb (firstPart (fst entry))) stablePaths)
    (CampaignDoc.conditions c).

(** ** Notions for the instrumentation *)

(** A character other than the single quote, and an anchor whose
    [href] is quoted with it. *)
Definition squote : ascii := ascii_of_nat 39.
Definition notSquote (c : ascii) : bool := negb (Ascii.eqb c squote).

Definition anchorTagSingle (url : string) : string :=
  "<a href=" ++ String squote url ++ String squote ">".

(** ** Further sample data *)

Module Sample2.

(** A campaign for a closed audience with one excluded user. *)
Definition campaignAudience : CampaignDoc.t :=
  {| CampaignDoc._id := "64b0000000000000000000c4";
     CampaignDoc.name := "Insiders";
     CampaignDoc.templateId := "64b0000000000000000000a1";
     CampaignDoc.triggerEvent := "purchase"; CampaignDoc.delay := 0;
     CampaignDoc.conditions := [];
     CampaignDoc.audience := ["64b0000000000000000000b1"; "64b0000000000000000000b2"];
     CampaignDoc.excludedAudience := ["64b0000000000000000000b2"];
     CampaignDoc.startDate := 0; CampaignDoc.endDate := None;
     CampaignDoc.state := CampaignDoc.active;
     CampaignDoc.analytics := Sample.zeroCounters |}.

(** An event with a price, and campaigns with conditions on it. *)
Definition eventPrice : EventDoc.t :=
  Sample.eventWith (VObj [("price", VNum 150); ("productId", VStr "p1")]).

Definition campaignPrice : CampaignDoc.t :=
  Sample.campaignWith "64b0000000000000000000c5" "64b0000000000000000000a1"
    [("metadata.productId", VObj [("exists", VBool true)]);
     ("metadata.price", VObj [("gt", VNum 100); ("lt", VNum 200)])].

Definition campaignNull : CampaignDoc.t :=
  Sample.campaignWith "64b0000000000000000000c6" "64b0000000000000000000a1"
    [("metadata.price", VNull)].






(** A transport that refuses one recipient, and a batch of two due
    deliveries. *)
Definition collaboratorsPicky : Collaborators :=
  {| sendMail := fun m =>
       if String.eqb (m_to m) "bob@example.com"
       then Throw (TransportError "550 mailbox unavailable")
       else Ok "<1@smtp.example>";
     variablesFor := fun _ _ _ => [];
     renderTemplate := fun template _ => template |}.

Definition deliveryTo (id recipient : string) (due : Z) : EmailDoc.t :=
  {| EmailDoc._id := id;
     EmailDoc.userId := "64b0000000000000000000b1";
     EmailDoc.to := recipient; EmailDoc.from := "Shop <shop@example.com>";
     EmailDoc.subject := "Thanks"; EmailDoc.body := "Hello";
     EmailDoc.isHtml := false;
     EmailDoc.templateId := "64b0000000000000000000a1";
     EmailDoc.campaignId := "64b0000000000000000000c1";
     EmailDoc.eventId := "64b0000000000000000000e1";
     EmailDoc.state := EmailDoc.scheduled; EmailDoc.scheduledFor := due;
     EmailDoc.sentAt := None; EmailDoc.deliveredAt := None;
     EmailDoc.openedAt := None; EmailDoc.clickedAt := None;
     EmailDoc.variables := []; EmailDoc.messageId := None;
     EmailDoc.trackingId := Some id;
     EmailDoc.links := [];
     EmailDoc.errorMessage := None |}.

Definition toAda : EmailDoc.t := deliveryTo "64b0000000000000000000d2" "ada@example.com" 3000.
Definition toBob : EmailDoc.t := deliveryTo "64b0000000000000000000d3" "bob@example.com" 2000.

Definition worldBatch : world :=
  {| events := [Sample.event]; emails := [toAda; toBob];
     campaigns := [Sample.campaign]; templates := [Sample.template];
     users := [Sample.user]; outbox := []; finalized := []; nextId := 1 |}.

(** A world whose second candidate has a [null] condition, and one with
    four candidates for the event with a price. *)
Definition worldNull : world :=
  {| events := [eventPrice]; emails := [];
     campaigns := [Sample.campaign; campaignNull];
     templates := [Sample.template]; users := [Sample.user]; outbox := [];
     finalized := []; nextId := 1 |}.

(** A later event without a price, and a world in which the run over
    the first event of the sweep fails on the [null] condition. *)
Definition eventLater : EventDoc.t :=
  {| EventDoc._id := "64b0000000000000000000e2";
     EventDoc.userId := "64b0000000000000000000b1";
     EventDoc.eventType := "purchase"; EventDoc.timestamp := 2000;
     EventDoc.metadata := VObj [("count", VNum 2)]; EventDoc.processed := false;
     EventDoc.triggeredCampaigns := [];
     EventDoc.otherPaths := [("source", VStr "api")] |}.

Definition worldSweep : world :=
  {| events := [eventLater; eventPrice]; emails := [];
     campaigns := [Sample.campaign; campaignNull];
     templates := [Sample.template]; users := [Sample.user]; outbox := [];
     finalized := []; nextId := 1 |}.

Definition worldFour : world :=
  {| events := [eventPrice]; emails := [];
     campaigns := [Sample.campaign; campaignPrice; Sample.campaignZero; campaignAudience];
     templates := [Sample.template]; users := [Sample.user]; outbox := [];
     finalized := []; nextId := 1 |}.

(** A campaign whose condition reads the entries pushed on the event. *)
Definition campaignChained : CampaignDoc.t :=
  Sample.campaignWith "64b0000000000000000000c7" "64b0000000000000000000a1"
    [("triggeredCampaigns.0.status", VStr "scheduled")].

(** Bodies with one anchor: to a mailbox, and with single quotes. *)
Definition mailtoBody : string := anchor "mailto:shop@example.com" "Write to us".

Definition singleQuoted : string :=
  "See " ++ anchorTagSingle "https://x.test" ++ "the shop".

(** A template that names three variables, one of them twice. *)
Definition templateVars : TemplateDoc.t :=
  {| TemplateDoc._id := "64b0000000000000000000a2";
     TemplateDoc.subject := "Hello {{ firstName }}";
     TemplateDoc.body := "{{firstName}}, your order {{orderId}} ships to {{ city}}.";
     TemplateDoc.isHtml := false |}.

Definition declared : list Template.variable :=
  [{| Template.name := "city"; Template.description := "Where it ships";
      Template.defaultValue := "your town" |}].

End Sample2.

(* ================================================================== *)
(** * Part II. Properties *)
(* ================================================================== *)

(** ** Condition matching *)

Section ConditionFacts.
Context {R : Runtime}.

Lemma checkEntries_app (pre rest : list (string * value)) (ev : value) :
  Campaign.checkEntries pre ev = Ok true ->
  Campaign.checkEntries (pre ++ rest) ev = Campaign.checkEntries rest ev.
Proof.
  induction pre as [|entry pre IH]; simpl; intros H.
  - reflexivity.
  - destruct (Campaign.checkEntry entry ev) as [[|]|e]; try discriminate.
    now apply IH.
Qed.

Lemma checkEntry_unresolved (key : string) (v ev : value) :
  Campaign.descend (split "." key) ev = None ->
  Campaign.checkEntry (key, v) ev = Ok false.
Proof.
  intros H. unfold Campaign.checkEntry. now rewrite H.
Qed.

Lemma matchesConditions_unresolved (c : CampaignDoc.t) (event : EventDoc.t)
  (pre rest : list (string * value)) (key : string) (v : value) :
  CampaignDoc.conditions c = (pre ++ (key, v) :: rest)%list ->
  Campaign.checkEntries pre (EventDoc.asValue event) = Ok true ->
  Campaign.descend (split "." key) (EventDoc.asValue event) = None ->
  Campaign.matchesConditions c event = Ok false.
Proof.
  intros Hc Hpre Hd. unfold Campaign.matchesConditions. rewrite Hc.
  destruct (Nat.eqb _ 0) eqn:E.
  - apply Nat.eqb_eq in E. rewrite length_app in E. simpl in E. lia.
  - rewrite checkEntries_app by exact Hpre. cbn [Campaign.checkEntries].
    now rewrite checkEntry_unresolved by exact Hd.
Qed.

End ConditionFacts.

Lemma descend_falsy (p1 p2 : list string) (v : value) :
  p1 <> [] ->
  toBoolean (resolvePath p1 v) = false ->
  Campaign.descend (p1 ++ p2) v = None.
Proof.
  revert v. induction p1 as [|part p1 IH]; intros v Hne Hf.
  - congruence.
  - simpl.
    destruct (negb (toBoolean v) || negb (toBoolean (getProp v part))) eqn:G.
    + reflexivity.
    + apply orb_false_elim in G as [_ G]. apply negb_false_iff in G.
      destruct p1 as [|part' p1'].
      * simpl in Hf. congruence.
      * apply IH; [discriminate | exact Hf].
Qed.

(** C5 (the code departs from the claim).  When the path of a condition
    does not resolve in the event, evaluation returns a non-match
    without raising an error whatever the entry is: the descent returns
    before the operators are looked at.  This holds for [exists: true],
    [equals], [gt], [lt] and a literal, as claimed, and also for
    [{exists: false}], where the claim asks for a match. *)
Theorem unresolved_path_is_a_non_match {R : Runtime} (c : CampaignDoc.t)
  (event : EventDoc.t) (pre rest : list (string * value)) (key : string)
  (v : value) :
  CampaignDoc.conditions c = (pre ++ (key, v) :: rest)%list ->
  Campaign.checkEntries pre (EventDoc.asValue event) = Ok true ->
  Campaign.descend (split "." key) (EventDoc.asValue event) = None ->
  Campaign.matchesConditions c event = Ok false.
Proof.
  intros Hc Hpre Hd.
  exact (matchesConditions_unresolved c event pre rest key v Hc Hpre Hd).
Qed.

Lemma unresolved_path_is_a_non_match_witness :
  CampaignDoc.conditions Sample.campaignMissing
  = ([] ++ ("metadata.productId", Sample.existsFalse) :: [])%list
  /\ Campaign.checkEntries (R := Sample.runtime) [] (EventDoc.asValue Sample.event)
     = Ok true
  /\ Campaign.descend (split "." "metadata.productId") (EventDoc.asValue Sample.event)
     = None
  /\ Campaign.matchesConditions (R := Sample.runtime) Sample.campaignMissing Sample.event
     = Ok false.
Proof.
  split; [reflexivity|]. split; [reflexivity|]. split; [reflexivity|].
  apply (@unresolved_path_is_a_non_match Sample.runtime Sample.campaignMissing
           Sample.event [] [] "metadata.productId" Sample.existsFalse);
    reflexivity.
Defined.

(** C10.  When the path of a condition leads, at its leaf or on the way,
    to a falsy value (0, the empty string, false, and likewise null,
    undefined or NaN), evaluation returns a non-match whatever the entry
    is, a literal equal to that value and [exists: true] included. *)
Theorem falsy_path_is_a_non_match {R : Runtime} (c : CampaignDoc.t)
  (event : EventDoc.t) (pre rest : list (string * value)) (key : string)
  (v : value) (p1 p2 : list string) :
  CampaignDoc.conditions c = (pre ++ (key, v) :: rest)%list ->
  Campaign.checkEntries pre (EventDoc.asValue event) = Ok true ->
  split "." key = (p1 ++ p2)%list ->
  p1 <> [] ->
  toBoolean (resolvePath p1 (EventDoc.asValue event)) = false ->
  Campaign.matchesConditions c event = Ok false.
Proof.
  intros Hc Hpre Hk Hne Hf.
  apply (matchesConditions_unresolved c event pre rest key v Hc Hpre).
  rewrite Hk. now apply descend_falsy.
Qed.

Lemma falsy_path_is_a_non_match_witness :
  resolvePath ["metadata"; "count"] (EventDoc.asValue Sample.event) = VNum 0
  /\ Campaign.matchesConditions (R := Sample.runtime) Sample.campaignZero Sample.event
     = Ok false.
Proof.
  split; [reflexivity|].
  apply (@falsy_path_is_a_non_match Sample.runtime Sample.campaignZero
           Sample.event [] [] "metadata.count" (VNum 0)
           ["metadata"; "count"] []);
    try reflexivity.
  discriminate.
Defined.

(** ** Collections *)

Section CollectionFacts.
Variable A : Type.
Variable key : A -> string.

Lemma findBy_updateBy_same (id : string) (f : A -> A) (l : list A) :
  (forall x, key (f x) = key x) ->
  findBy key id (updateBy key id f l) = option_map f (findBy key id l).
Proof.
  intros Hf. induction l as [|y l IH]; simpl; [reflexivity|].
  destruct (String.eqb (key y) id) eqn:E; simpl.
  - now rewrite Hf, E.
  - now rewrite E.
Qed.

End CollectionFacts.

(** ** The tracking collector *)

Section CollectorFacts.

(** The write of [updateStatus] on a stored document. *)
Lemma updateStatus_stored (now : Z) (s : EmailDoc.status)
  (extra dirty : EmailDoc.patch) (e : EmailDoc.t) (w : world) :
  findBy EmailDoc._id (EmailDoc._id e) (emails w) = Some e ->
  let p := Email.merge dirty (Email.merge (Email.statusPatch now s) extra) in
  Email.updateStatus now s extra dirty e w
  = (Ok (EmailDoc.apply p e),
     setEmails (updateBy EmailDoc._id (EmailDoc._id e) (EmailDoc.apply p) (emails w)) w).
Proof.
  intros H p. unfold Email.updateStatus, Email.saveModified, bind, ret.
  now rewrite H.
Qed.

Lemma trackEmailOpen_not_opened (now : Z) (tid : string) (w : world) (e : EmailDoc.t) :
  Email.findOneByTrackingId tid (emails w) = Some e ->
  findBy EmailDoc._id (EmailDoc._id e) (emails w) = Some e ->
  EmailDoc.state e <> EmailDoc.opened ->
  CampaignService.trackEmailOpen now tid w
  = (Ok (Some (EmailDoc.apply (Email.statusPatch now EmailDoc.opened) e)),
     setCampaigns
       (updateBy CampaignDoc._id (EmailDoc.campaignId e)
          (fun c => CampaignDoc.setAnalytics
                      (CampaignDoc.incOpened (CampaignDoc.analytics c)) c)
          (campaigns w))
       (setEmails
          (updateBy EmailDoc._id (EmailDoc._id e)
             (EmailDoc.apply (Email.statusPatch now EmailDoc.opened)) (emails w)) w)).
Proof.
  intros Hfind Hstored Hst.
  unfold CampaignService.trackEmailOpen, tryCatch, bind, get.
  rewrite Hfind.
  destruct (EmailDoc.status_eqb (EmailDoc.state e) EmailDoc.opened) eqn:E.
  - destruct (EmailDoc.state e); simpl in E; try discriminate. congruence.
  - cbn [negb]. cbv beta iota.
    rewrite updateStatus_stored by exact Hstored.
    reflexivity.
Qed.

Lemma trackEmailOpen_opened (now : Z) (tid : string) (w : world) (e : EmailDoc.t) :
  Email.findOneByTrackingId tid (emails w) = Some e ->
  EmailDoc.state e = EmailDoc.opened ->
  CampaignService.trackEmailOpen now tid w = (Ok (Some e), w).
Proof.
  intros Hfind Hst.
  unfold CampaignService.trackEmailOpen, tryCatch, bind, get.
  rewrite Hfind, Hst. reflexivity.
Qed.

End CollectorFacts.

(** C8, as the specification states it, fails: an open hit on a delivery
    in status [clicked] leaves it in status [opened]. *)
Lemma open_hit_on_clicked_counterexample :
  option_map EmailDoc.state
    (Email.findOneByTrackingId Sample.deliveryTrackingId
       (emails (Sample.worldWith EmailDoc.clicked)))
  = Some EmailDoc.clicked
  /\ option_map EmailDoc.state
       (Email.findOneByTrackingId Sample.deliveryTrackingId
          (emails (snd (CampaignService.trackEmailOpen
                          5000 Sample.deliveryTrackingId
                          (Sample.worldWith EmailDoc.clicked)))))
     = Some EmailDoc.opened
  /\ EmailDoc.opened <> EmailDoc.clicked.
Proof.
  split; [reflexivity|]. split; [reflexivity|]. discriminate.
Qed.

(** C8, amended.  After an open hit on the trackingId of a stored
    delivery the status is [opened] whatever it was before, [clicked]
    included.  When the status was not [opened] the hit stamps
    [openedAt] and adds one to the opened counter of the campaign; when
    it was [opened] the hit changes nothing. *)
Theorem open_hit_sets_opened (now : Z) (tid : string) (w : world) (e : EmailDoc.t) :
  Email.findOneByTrackingId tid (emails w) = Some e ->
  findBy EmailDoc._id (EmailDoc._id e) (emails w) = Some e ->
  let w' := snd (CampaignService.trackEmailOpen now tid w) in
  option_map EmailDoc.state (findBy EmailDoc._id (EmailDoc._id e) (emails w'))
  = Some EmailDoc.opened
  /\ (EmailDoc.state e <> EmailDoc.opened ->
      option_map EmailDoc.openedAt (findBy EmailDoc._id (EmailDoc._id e) (emails w'))
      = Some (Some now)
      /\ option_map openedOf (findBy CampaignDoc._id (EmailDoc.campaignId e) (campaigns w'))
         = option_map (fun c => openedOf c + 1)%Z
             (findBy CampaignDoc._id (EmailDoc.campaignId e) (campaigns w)))
  /\ (EmailDoc.state e = EmailDoc.opened -> w' = w).
Proof.
  intros Hfind Hstored w'.
  assert (Hopen : EmailDoc.state e = EmailDoc.opened -> w' = w).
  { intros Hst. unfold w'. now rewrite (trackEmailOpen_opened now tid w Hfind Hst). }
  destruct (EmailDoc.status_eqb (EmailDoc.state e) EmailDoc.opened) eqn:E.
  - assert (Hst : EmailDoc.state e = EmailDoc.opened)
      by (destruct (EmailDoc.state e); simpl in E; congruence).
    split; [|split; [congruence | exact Hopen]].
    rewrite (Hopen Hst), Hstored. simpl. now rewrite Hst.
  - assert (Hst : EmailDoc.state e <> EmailDoc.opened)
      by (intros Hst; rewrite Hst in E; discriminate).
    assert (Hw : w' = snd (CampaignService.trackEmailOpen now tid w)) by reflexivity.
    rewrite (trackEmailOpen_not_opened now tid w Hfind Hstored Hst) in Hw.
    simpl in Hw. split; [|split; [|exact Hopen]].
    + rewrite Hw. cbn [emails campaigns setCampaigns setEmails].
      rewrite findBy_updateBy_same by reflexivity. now rewrite Hstored.
    + intros _. rewrite Hw. cbn [emails campaigns setCampaigns setEmails].
      rewrite !findBy_updateBy_same by reflexivity. rewrite Hstored.
      split; [reflexivity|].
      now destruct (findBy CampaignDoc._id (EmailDoc.campaignId e) (campaigns w)).
Qed.

Lemma open_hit_sets_opened_witness :
  option_map EmailDoc.state
    (findBy EmailDoc._id (EmailDoc._id (Sample.delivery EmailDoc.clicked))
       (emails (snd (CampaignService.trackEmailOpen
                       5000 Sample.deliveryTrackingId
                       (Sample.worldWith EmailDoc.clicked)))))
  = Some EmailDoc.opened.
Proof.
  apply (@open_hit_sets_opened 5000
           Sample.deliveryTrackingId (Sample.worldWith EmailDoc.clicked)
           (Sample.delivery EmailDoc.clicked));
    reflexivity.
Defined.

Lemma nth_error_updateNth (A : Type) (f : A -> A) (l : list A) (n : nat) :
  nth_error (Email.updateNth n f l) n = option_map f (nth_error l n).
Proof.
  revert n. induction l as [|x l IH]; intros [|n]; simpl; auto.
Qed.

Lemma linkAt_some (e : EmailDoc.t) (i : option Z) (l : EmailDoc.link) :
  Email.linkAt e i = Some l ->
  exists z, i = Some z /\ (z <? 0)%Z = false
            /\ nth_error (EmailDoc.links e) (Z.to_nat z) = Some l.
Proof.
  unfold Email.linkAt. destruct i as [z|]; [|discriminate].
  destruct (z <? 0)%Z eqn:E; [discriminate|]. intros H. now exists z.
Qed.

Lemma trackClick_valid (now z : Z) (e : EmailDoc.t) (l : EmailDoc.link) (w : world) :
  Email.linkAt e (Some z) = Some l ->
  Email.trackClick now (Some z) e w
  = match findBy EmailDoc._id (EmailDoc._id e) (emails w) with
    | None => (Throw (Error "No document found for query"), w)
    | Some _ =>
        (Ok (EmailDoc.apply (clickPatch now z e) e),
         setEmails (updateBy EmailDoc._id (EmailDoc._id e)
                      (EmailDoc.apply (clickPatch now z e)) (emails w)) w)
    end.
Proof.
  intros H. unfold Email.trackClick. rewrite H.
  unfold Email.updateStatus, Email.saveModified, bind, ret.
  destruct (findBy EmailDoc._id (EmailDoc._id e) (emails w)); reflexivity.
Qed.

(** C2 (the code departs from the claim).  A click on a valid link of a
    delivery never changes a campaign counter, the first click
    included: [trackClick] has already set the status of the document
    to [clicked] when [trackEmailClick] tests it.  The rest of the
    claim holds: the stored status becomes [clicked] and the click
    count of the link goes up by one. *)
Theorem click_on_valid_link_never_counts {R : Runtime} (now : Z) (tid idx : string)
  (w : world) (e : EmailDoc.t) (l : EmailDoc.link) :
  Email.findOneByTrackingId tid (emails w) = Some e ->
  Email.linkAt e (parseInt10 idx) = Some l ->
  let w' := snd (CampaignService.trackEmailClick now tid idx w) in
  campaigns w' = campaigns w
  /\ (findBy EmailDoc._id (EmailDoc._id e) (emails w) = Some e ->
      option_map EmailDoc.state (findBy EmailDoc._id (EmailDoc._id e) (emails w'))
      = Some EmailDoc.clicked
      /\ option_map (fun e' => Email.linkAt e' (parseInt10 idx))
           (findBy EmailDoc._id (EmailDoc._id e) (emails w'))
         = Some (Some (Email.clickLink now l))).
Proof.
  intros Hfind Hlink w'.
  destruct (linkAt_some _ _ Hlink) as (z & Hz & Hneg & Hnth).
  assert (Hw : w' = snd (CampaignService.trackEmailClick now tid idx w)) by reflexivity.
  unfold CampaignService.trackEmailClick, tryCatch, bind, get in Hw.
  rewrite Hfind, Hz in Hw. rewrite Hz in Hlink.
  rewrite (trackClick_valid now z e w Hlink) in Hw.
  destruct (findBy EmailDoc._id (EmailDoc._id e) (emails w)) as [e0|] eqn:Hs.
  - simpl in Hw. split; [now rewrite Hw|].
    intros He0. injection He0 as ->.
    rewrite Hw. cbn [emails setEmails].
    rewrite findBy_updateBy_same by reflexivity. rewrite Hs.
    split; [reflexivity|].
    rewrite Hz. simpl. unfold Email.linkAt. rewrite Hneg. cbn [EmailDoc.links EmailDoc.apply clickPatch EmailDoc.p_links].
    rewrite nth_error_updateNth, Hnth. reflexivity.
  - simpl in Hw. split; [now rewrite Hw | discriminate].
Qed.

Lemma click_on_valid_link_never_counts_witness :
  option_map EmailDoc.state
    (Email.findOneByTrackingId Sample.deliveryTrackingId
       (emails (Sample.worldWith EmailDoc.sent)))
  = Some EmailDoc.sent
  /\ option_map clickedOf
       (findBy CampaignDoc._id "64b0000000000000000000c1"
          (campaigns (Sample.worldWith EmailDoc.sent)))
     = Some 0%Z
  /\ campaigns (snd (CampaignService.trackEmailClick (R := Sample.runtime) 5000
                       Sample.deliveryTrackingId "0" (Sample.worldWith EmailDoc.sent)))
     = campaigns (Sample.worldWith EmailDoc.sent).
Proof.
  split; [reflexivity|]. split; [reflexivity|].
  apply (@click_on_valid_link_never_counts Sample.runtime 5000
           Sample.deliveryTrackingId "0"
           (Sample.worldWith EmailDoc.sent) (Sample.delivery EmailDoc.sent)
           (EmailService.newLink "https://x.test" "https://mail.example/track/click/t/0"));
    reflexivity.
Defined.

(** ** The tracking endpoints *)

Lemma updateNth_originals (now : Z) (n : nat) (l : list EmailDoc.link) :
  map EmailDoc.original (Email.updateNth n (Email.clickLink now) l)
  = map EmailDoc.original l.
Proof.
  revert n. induction l as [|x l IH]; intros [|n]; simpl; try reflexivity.
  now rewrite IH.
Qed.

Lemma trackClick_originals (now : Z) (i : option Z) (e e1 : EmailDoc.t) (w w1 : world) :
  Email.trackClick now i e w = (Ok e1, w1) ->
  map EmailDoc.original (EmailDoc.links e1) = map EmailDoc.original (EmailDoc.links e).
Proof.
  intros H. destruct (Email.linkAt e i) as [l|] eqn:Hl.
  - destruct (linkAt_some _ _ Hl) as (z & -> & _).
    rewrite (trackClick_valid now z e w Hl) in H.
    destruct (findBy EmailDoc._id (EmailDoc._id e) (emails w)); [|discriminate].
    injection H as <- _. simpl. apply updateNth_originals.
  - unfold Email.trackClick in H. rewrite Hl in H.
    injection H as <- _. reflexivity.
Qed.

Lemma linkByKey_originals {R : Runtime} (e e1 : EmailDoc.t) (key : string)
  (l1 : EmailDoc.link) :
  map EmailDoc.original (EmailDoc.links e1) = map EmailDoc.original (EmailDoc.links e) ->
  CampaignService.linkByKey e1 key = CampaignService.Element l1 ->
  exists l, CampaignService.linkByKey e key = CampaignService.Element l
            /\ EmailDoc.original l = EmailDoc.original l1.
Proof.
  unfold CampaignService.linkByKey. intros Hm.
  destruct (arrayIndex key) as [i|].
  - destruct (nth_error (EmailDoc.links e1) i) as [l1'|] eqn:H1; [|discriminate].
    intros H. injection H as ->.
    pose proof (map_nth_error EmailDoc.original i (EmailDoc.links e1) H1) as H.
    rewrite Hm in H. rewrite nth_error_map in H.
    destruct (nth_error (EmailDoc.links e) i) as [l|]; [|discriminate].
    exists l. split; [reflexivity|]. simpl in H. congruence.
  - destruct (String.eqb key "length").
    + destruct (Nat.eqb _ 0); discriminate.
    + destruct (identifierKey key && arrayMember key); discriminate.
Qed.

Lemma clickHandler_redirects (service : M CampaignService.clickResult) (w : world) :
  exists u,
    fst (TrackingController.clickHandler service w) = Ok (TrackingController.Redirect u)
    /\ (u = "/"
        \/ exists r, fst (service w) = Ok r /\ CampaignService.url r = Some u).
Proof.
  unfold TrackingController.clickHandler, tryCatch, bind.
  destruct (service w) as [[r|err] w1].
  - destruct (CampaignService.url r) as [u|] eqn:Hu; cbn.
    + destruct (String.eqb u EmptyString).
      * exists "/". split; [reflexivity | now left].
      * exists u. split; [reflexivity|]. right. exists r. auto.
    + exists "/". split; [reflexivity | now left].
  - exists "/". split; [reflexivity | now left].
Qed.

Lemma trackEmailClick_url {R : Runtime} (now : Z) (tid idx : string) (w : world)
  (r : CampaignService.clickResult) (u : string) :
  fst (CampaignService.trackEmailClick now tid idx w) = Ok r ->
  CampaignService.url r = Some u ->
  u = "/"
  \/ exists e l,
       Email.findOneByTrackingId tid (emails w) = Some e
       /\ CampaignService.linkByKey e idx = CampaignService.Element l
       /\ u = EmailDoc.original l.
Proof.
  unfold CampaignService.trackEmailClick, tryCatch, bind, get.
  destruct (Email.findOneByTrackingId tid (emails w)) as [e|] eqn:Hfind.
  - destruct (Email.trackClick now (parseInt10 idx) e w) as [[e1|err] w1] eqn:Hclick;
      [|discriminate].
    pose proof (trackClick_originals _ _ _ _ Hclick) as Hm.
    assert (Hinc : exists w2,
               (if negb (EmailDoc.status_eqb (EmailDoc.state e1) EmailDoc.clicked)
                then CampaignService.incAnalytics (EmailDoc.campaignId e1)
                       CampaignDoc.incClicked
                else ret tt) w1 = (Ok tt, w2)).
    { destruct (negb _); eexists; reflexivity. }
    destruct Hinc as (w2 & ->). cbn.
    intros H. injection H as <-. cbn.
    destruct (CampaignService.linkByKey e1 idx) as [l1| |] eqn:Hl1;
      intros H; [|discriminate|injection H as <-; now left].
    injection H as <-.
    destruct (@linkByKey_originals R e e1 idx l1 Hm Hl1) as (l & Hl & Ho).
    right. exists e, l. auto.
  - cbn. intros H. injection H as <-. discriminate.
Qed.

Lemma In_findBy (A : Type) (key : A -> string) (x : A) (l : list A) :
  In x l -> exists y, findBy key (key x) l = Some y.
Proof.
  induction l as [|z l IH]; simpl; [tauto|].
  destruct (String.eqb (key z) (key x)) eqn:E; [eauto|].
  intros [->|H]; [|auto]. rewrite String.eqb_refl in E. discriminate.
Qed.

Lemma isDigit_not_space (c : ascii) : isDigit c = true -> isSpace c = false.
Proof.
  unfold isDigit, isSpace. intros H. apply andb_prop in H. destruct H as [H1 H2].
  apply Nat.leb_le in H1. apply Nat.leb_le in H2.
  repeat (apply orb_false_iff; split).
  - apply andb_false_iff. right. apply Nat.leb_gt. lia.
  - apply Nat.eqb_neq. lia.
  - apply Nat.eqb_neq. lia.
Qed.

Lemma readDigits_nonneg (s : string) (a : Z) : (0 <= a)%Z -> (0 <= readDigits s a)%Z.
Proof.
  revert a. induction s as [|c s IH]; intros a Ha; cbn [readDigits]; [exact Ha|].
  destruct (isDigit c); [|exact Ha]. apply IH. unfold digitVal. lia.
Qed.

Lemma parseInt10_digits (c : ascii) (s : string) :
  isDigit c = true -> parseInt10 (String c s) = Some (readDigits (String c s) 0).
Proof.
  intros Hd. unfold parseInt10. cbn [trimStart].
  rewrite (@isDigit_not_space c Hd).
  assert (H45 : chr c 45 = false).
  { unfold chr. unfold isDigit in Hd. apply andb_prop in Hd. destruct Hd as [H1 _].
    apply Nat.leb_le in H1. apply Nat.eqb_neq. lia. }
  assert (H43 : chr c 43 = false).
  { unfold chr. unfold isDigit in Hd. apply andb_prop in Hd. destruct Hd as [H1 _].
    apply Nat.leb_le in H1. apply Nat.eqb_neq. lia. }
  now rewrite H45, H43, Hd.
Qed.

(** A key that is an array index is a string [parseInt] reads as that
    index. *)
Lemma arrayIndex_parseInt10 (key : string) (i : nat) :
  arrayIndex key = Some i -> parseInt10 key = Some (Z.of_nat i).
Proof.
  unfold arrayIndex. destruct key as [|c s]; [discriminate|].
  destruct (allChars isDigit (String c s)) eqn:Hall; [|discriminate].
  destruct (String.eqb _ _); [|discriminate]. cbn [andb]. intros H. injection H as <-.
  cbn [allChars] in Hall. apply andb_prop in Hall. destruct Hall as [Hc _].
  rewrite (@parseInt10_digits c s Hc). f_equal.
  symmetry. apply Z2Nat.id. apply (@readDigits_nonneg (String c s) 0). lia.
Qed.

Lemma findOneByTrackingId_sound (tid : string) (l : list EmailDoc.t) (e : EmailDoc.t) :
  Email.findOneByTrackingId tid l = Some e ->
  In e l /\ EmailDoc.trackingId e = Some tid.
Proof.
  induction l as [|x l IH]; cbn [Email.findOneByTrackingId]; [discriminate|].
  destruct (Email.sameTracking (EmailDoc.trackingId x) (Some tid)) eqn:E.
  - intros H. injection H as <-. split; [now left|].
    unfold Email.sameTracking in E. destruct (EmailDoc.trackingId x); [|discriminate].
    apply String.eqb_eq in E. now subst.
  - intros H. destruct (IH H). split; [now right | assumption].
Qed.

Lemma linkByKey_element {R : Runtime} (e : EmailDoc.t) (key : string)
  (l : EmailDoc.link) :
  CampaignService.linkByKey e key = CampaignService.Element l ->
  exists i, arrayIndex key = Some i /\ nth_error (EmailDoc.links e) i = Some l.
Proof.
  unfold CampaignService.linkByKey.
  destruct (arrayIndex key) as [i|] eqn:Hi.
  - destruct (nth_error (EmailDoc.links e) i) as [l'|] eqn:Hn; [|discriminate].
    intros H. injection H as ->. now exists i.
  - destruct (String.eqb key "length").
    + destruct (Nat.eqb _ 0); discriminate.
    + destruct (identifierKey key && arrayMember key); discriminate.
Qed.

Lemma linkAt_of_nat (e : EmailDoc.t) (i : nat) :
  Email.linkAt e (Some (Z.of_nat i)) = nth_error (EmailDoc.links e) i.
Proof.
  unfold Email.linkAt.
  destruct (Z.of_nat i <? 0)%Z eqn:E; [apply Z.ltb_lt in E; lia|].
  now rewrite Nat2Z.id.
Qed.

Lemma linkByKey_linkAt {R : Runtime} (e : EmailDoc.t) (key : string)
  (l : EmailDoc.link) :
  CampaignService.linkByKey e key = CampaignService.Element l ->
  Email.linkAt e (parseInt10 key) = Some l.
Proof.
  intros H. destruct (linkByKey_element _ _ H) as (i & Hi & Hn).
  rewrite (@arrayIndex_parseInt10 key i Hi). now rewrite linkAt_of_nat.
Qed.

(** The service on a hit whose key reads a link: the click is recorded
    and the original URL of the link is resolved. *)
Lemma trackEmailClick_element {R : Runtime} (now : Z) (tid idx : string) (w : world)
  (e : EmailDoc.t) (l : EmailDoc.link) :
  Email.findOneByTrackingId tid (emails w) = Some e ->
  CampaignService.linkByKey e idx = CampaignService.Element l ->
  exists r, fst (CampaignService.trackEmailClick now tid idx w) = Ok r
            /\ CampaignService.url r = Some (EmailDoc.original l).
Proof.
  intros Hfind Hkey.
  destruct (linkByKey_element _ _ Hkey) as (i & Hidx & Hnth).
  pose proof (@arrayIndex_parseInt10 _ _ Hidx) as Hparse.
  assert (Hlink : Email.linkAt e (Some (Z.of_nat i)) = Some l)
    by now rewrite linkAt_of_nat.
  destruct (@findOneByTrackingId_sound _ _ _ Hfind) as [Hin _].
  destruct (In_findBy EmailDoc._id e (emails w) Hin) as [e0 He0].
  unfold CampaignService.trackEmailClick, tryCatch, bind, get.
  rewrite Hfind, Hparse. rewrite (trackClick_valid now (Z.of_nat i) e w Hlink), He0.
  cbn [EmailDoc.state EmailDoc.apply clickPatch EmailDoc.p_state EmailDoc.status_eqb negb].
  unfold CampaignService.linkByKey. rewrite Hidx.
  cbn [EmailDoc.links EmailDoc.apply clickPatch EmailDoc.p_links]. rewrite Nat2Z.id.
  rewrite nth_error_updateNth, Hnth.
  eexists. split; reflexivity.
Qed.

Lemma clickHandler_resolved (service : M CampaignService.clickResult) (w : world)
  (r : CampaignService.clickResult) (u : string) :
  fst (service w) = Ok r -> CampaignService.url r = Some u -> u <> EmptyString ->
  fst (TrackingController.clickHandler service w) = Ok (TrackingController.Redirect u).
Proof.
  unfold TrackingController.clickHandler, tryCatch, bind.
  destruct (service w) as [o w1]. cbn [fst]. intros -> Hu Hne. rewrite Hu.
  apply String.eqb_neq in Hne. now rewrite Hne.
Qed.

Lemma clickHandler_default (service : M CampaignService.clickResult) (w : world) :
  (forall r, fst (service w) = Ok r ->
             CampaignService.url r = None \/ CampaignService.url r = Some EmptyString) ->
  fst (TrackingController.clickHandler service w) = Ok (TrackingController.Redirect "/").
Proof.
  unfold TrackingController.clickHandler, tryCatch, bind.
  destruct (service w) as [[r|err] w1]; cbn [fst]; [|reflexivity].
  intros H. destruct (H r eq_refl) as [-> | ->]; reflexivity.
Qed.

(** C9.  Whatever the service call does, an exception included: the
    open endpoint answers 200 with the 42 bytes of a 1x1 GIF89a image
    whose only pixel is transparent, and the task it defers lets no
    error escape; the click endpoint answers with a redirect.  The
    redirect goes to the URL the service resolved when it resolved a
    non-empty one, and to the default destination in every other case:
    no URL, an empty one, or an exception.  With the service of this
    program a hit whose trackingId finds a delivery and whose index
    reads one of its links is redirected to the original URL of that
    link, and a hit whose trackingId finds no delivery is redirected to
    the default destination. *)
Theorem tracking_endpoints_never_fail {R : Runtime} :
  (forall (service : M (option EmailDoc.t)) (w : world),
      exists headers task,
        TrackingController.openHandler service w
        = (Ok (TrackingController.Image 200 headers TrackingController.transparentGif,
               task), w)
        /\ forall w1, fst (task w1) = Ok tt)
  /\ TrackingController.transparentGif
     = [71; 73; 70; 56; 57; 97; 1; 0; 1; 0; 128; 0; 0; 0; 0; 0; 255; 255; 255;
        33; 249; 4; 1; 0; 0; 0; 0; 44; 0; 0; 0; 0; 1; 0; 1; 0; 0; 2; 1; 68; 0;
        59]%N
  /\ (forall (service : M CampaignService.clickResult) (w : world),
        exists u,
          fst (TrackingController.clickHandler service w)
          = Ok (TrackingController.Redirect u))
  /\ (forall (now : Z) (tid idx : string) (w : world),
        exists u,
          fst (TrackingController.trackEmailClick now tid idx w)
          = Ok (TrackingController.Redirect u)
          /\ (u = "/"
              \/ exists e l,
                   Email.findOneByTrackingId tid (emails w) = Some e
                   /\ CampaignService.linkByKey e idx = CampaignService.Element l
                   /\ u = EmailDoc.original l))
  /\ (forall (service : M CampaignService.clickResult) (w : world)
             (r : CampaignService.clickResult) (u : string),
        fst (service w) = Ok r -> CampaignService.url r = Some u -> u <> EmptyString ->
        fst (TrackingController.clickHandler service w)
        = Ok (TrackingController.Redirect u))
  /\ (forall (service : M CampaignService.clickResult) (w : world),
        (forall r, fst (service w) = Ok r ->
                   CampaignService.url r = None
                   \/ CampaignService.url r = Some EmptyString) ->
        fst (TrackingController.clickHandler service w)
        = Ok (TrackingController.Redirect "/"))
  /\ (forall (now : Z) (tid idx : string) (w : world) (e : EmailDoc.t)
             (l : EmailDoc.link),
        Email.findOneByTrackingId tid (emails w) = Some e ->
        CampaignService.linkByKey e idx = CampaignService.Element l ->
        EmailDoc.original l <> EmptyString ->
        fst (TrackingController.trackEmailClick now tid idx w)
        = Ok (TrackingController.Redirect (EmailDoc.original l)))
  /\ (forall (now : Z) (tid idx : string) (w : world),
        Email.findOneByTrackingId tid (emails w) = None ->
        fst (TrackingController.trackEmailClick now tid idx w)
        = Ok (TrackingController.Redirect "/")).
Proof.
  split; [|split; [reflexivity|split; [|split; [|split; [|split; [|split]]]]]].
  - intros service w. eexists. eexists. split; [reflexivity|].
    intros w1. unfold TrackingController.deferred, tryCatch, bind.
    destruct (service w1) as [[r|err] w2]; reflexivity.
  - intros service w.
    destruct (clickHandler_redirects service w) as (u & Hu & _). now exists u.
  - intros now tid idx w. unfold TrackingController.trackEmailClick.
    destruct (clickHandler_redirects (CampaignService.trackEmailClick now tid idx) w)
      as (u & Hu & [->|(r & Hr & Hurl)]).
    + exists "/". split; [exact Hu | now left].
    + exists u. split; [exact Hu|].
      exact (trackEmailClick_url now tid idx w Hr Hurl).
  - exact clickHandler_resolved.
  - exact clickHandler_default.
  - intros now tid idx w e l Hfind Hkey Hne.
    destruct (trackEmailClick_element now tid idx w Hfind Hkey) as (r & Hr & Hu).
    unfold TrackingController.trackEmailClick.
    exact (clickHandler_resolved _ _ Hr Hu Hne).
  - intros now tid idx w Hfind. unfold TrackingController.trackEmailClick.
    apply clickHandler_default. intros r.
    unfold CampaignService.trackEmailClick, tryCatch, bind, get. rewrite Hfind.
    cbn. intros H. injection H as <-. now left.
Qed.

Lemma tracking_endpoints_never_fail_witness :
  Email.findOneByTrackingId Sample.deliveryTrackingId
    (emails (Sample.worldWith EmailDoc.sent))
  = Some (Sample.delivery EmailDoc.sent)
  /\ fst (TrackingController.trackEmailClick (R := Sample.runtime) 7000
            Sample.deliveryTrackingId "0" (Sample.worldWith EmailDoc.sent))
     = Ok (TrackingController.Redirect "https://x.test")
  /\ fst (TrackingController.trackEmailClick (R := Sample.runtime) 7000 "nobody" "0"
            (Sample.worldWith EmailDoc.sent))
     = Ok (TrackingController.Redirect "/").
Proof.
  destruct (@tracking_endpoints_never_fail Sample.runtime)
    as (_ & _ & _ & _ & _ & _ & Hlink & Hnone).
  split; [reflexivity|]. split.
  - apply (Hlink 7000%Z Sample.deliveryTrackingId "0" (Sample.worldWith EmailDoc.sent)
             (Sample.delivery EmailDoc.sent)
             (EmailService.newLink "https://x.test"
                "https://mail.example/track/click/t/0"));
      [reflexivity | reflexivity | discriminate].
  - apply (Hnone 7000%Z "nobody" "0" (Sample.worldWith EmailDoc.sent)). reflexivity.
Defined.

(** ** The delivery worker *)

Lemma In_insertBy (A : Type) (key : A -> Z) (x y : A) (l : list A) :
  In y (Event.insertBy key x l) <-> y = x \/ In y l.
Proof.
  induction l as [|z l IH]; simpl.
  - intuition.
  - destruct (key x <? key z)%Z; simpl; rewrite ?IH; intuition.
Qed.

Lemma In_sortBy (A : Type) (key : A -> Z) (y : A) (l : list A) :
  In y (Event.sortBy key l) <-> In y l.
Proof.
  unfold Event.sortBy. induction l as [|x l IH]; simpl.
  - tauto.
  - rewrite In_insertBy, IH. intuition.
Qed.

Lemma In_limit (A : Type) (n : nat) (y : A) (l : list A) :
  In y (Event.limit n l) -> In y l.
Proof.
  unfold Event.limit. destruct (Nat.eqb n 0); [tauto|].
  revert l. induction n as [|n IH]; intros [|x l]; simpl; try tauto.
  intros [->|H]; [now left | right; now apply IH].
Qed.

Lemma In_findPendingEmails (now : Z) (n : nat) (w : world) (x : EmailDoc.t) :
  In x (Email.findPendingEmails now n w) ->
  In x (emails w) /\ EmailDoc.state x = EmailDoc.scheduled
  /\ (EmailDoc.scheduledFor x <= now)%Z.
Proof.
  unfold Email.findPendingEmails. intros H.
  apply In_limit, In_sortBy, filter_In in H. destruct H as [Hin H].
  apply andb_prop in H as [Hs Hd]. split; [exact Hin|].
  split; [destruct (EmailDoc.state x); simpl in Hs; congruence | lia].
Qed.

Lemma In_updateBy_unique (A : Type) (key : A -> string) (id : string)
  (f : A -> A) (l : list A) (x : A) :
  NoDup (map key l) ->
  In x (updateBy key id f l) ->
  (In x l /\ key x <> id) \/ exists y, In y l /\ key y = id /\ x = f y.
Proof.
  induction l as [|y l IH]; simpl; [tauto|].
  intros Hnd. inversion Hnd as [|? ? Hnotin Hnd']; subst.
  destruct (String.eqb (key y) id) eqn:E; simpl.
  - apply String.eqb_eq in E. intros [<-|H].
    + right. exists y. auto.
    + left. split; [now right|]. intros Hk. apply Hnotin.
      rewrite E, <- Hk. now apply in_map.
  - apply String.eqb_neq in E. intros [<-|H]; [left; auto|].
    destruct (IH Hnd' H) as [[Hin Hk]|(z & Hz & Hk & ->)].
    + left. auto.
    + right. exists z. auto.
Qed.

(** ** Tracking ids *)

Lemma allChars_app (f : ascii -> bool) (a b : string) :
  allChars f (a ++ b) = allChars f a && allChars f b.
Proof.
  induction a as [|c a IH]; simpl; [reflexivity|].
  now rewrite IH, andb_assoc.
Qed.

Lemma trackLinks_urls (fuel : nat) (base tid rest html : string)
  (links : list EmailDoc.link) (index : nat) :
  Forall (fun l => exists i, EmailDoc.tracking l = EmailService.clickUrl base tid i) links ->
  Forall (fun l => exists i, EmailDoc.tracking l = EmailService.clickUrl base tid i)
    (snd (EmailService.trackLinks fuel base tid rest html links index)).
Proof.
  revert rest html links index.
  induction fuel as [|fuel IH]; intros rest html links index H; simpl; [exact H|].
  destruct (EmailService.exec rest) as [[url rest']|]; [|exact H].
  destruct (EmailService.toTrack url); [|now apply IH].
  apply IH. apply Forall_app. split; [exact H|].
  constructor; [|constructor]. now exists index.
Qed.

Lemma tryCatch_rethrow (A : Type) (m : M A) (w : world) :
  tryCatch m (fun error => throw error) w = m w.
Proof. unfold tryCatch, throw. now destruct (m w) as [[x|err] w1]. Qed.

Section ComposerFacts.
Context {R : Runtime} {C : Collaborators}.

Lemma newEmail_fields (now : Z) (id : string) (c : CampaignDoc.t) (ev : EventDoc.t)
  (user : UserDoc.t) (t : Z) (template : TemplateDoc.t) :
  let e := CampaignService.newEmail now id c ev user t template in
  EmailDoc.variables e = CampaignService.variablesOf c user ev
  /\ EmailDoc.trackingId e = None
  /\ EmailDoc.campaignId e = CampaignDoc._id c
  /\ EmailDoc.eventId e = EventDoc._id ev
  /\ EmailDoc.scheduledFor e = t
  /\ EmailDoc.state e = EmailDoc.scheduled.
Proof.
  unfold CampaignService.newEmail.
  destruct (if TemplateDoc.isHtml template then _ else _) as [html links].
  cbn. repeat split.
Qed.

(** [save] refuses a new document whose [variables] begin with the
    spread of a map, and stores nothing. *)
Lemma saveNew_spread (e : EmailDoc.t) (path : string) (rest : list (string * value))
  (w : world) :
  EmailDoc.variables e = (CampaignService.spreadOfMap path ++ rest)%list ->
  exists err, Email.saveNew e w = (Throw err, w).
Proof.
  intros Hv. unfold Email.saveNew, Email.validate, Email.required, bind, throw, ret.
  destruct (String.eqb (EmailDoc.to e) EmptyString); [eauto|].
  destruct (String.eqb (EmailDoc.from e) EmptyString); [eauto|].
  destruct (String.eqb (EmailDoc.subject e) EmptyString); [eauto|].
  destruct (String.eqb (EmailDoc.body e) EmptyString); [eauto|].
  rewrite Hv. cbn. eauto.
Qed.

(** [save] refuses a document without a [trackingId]: the hook
    raises. *)
Lemma saveNew_untracked (e : EmailDoc.t) (w : world) :
  EmailDoc.trackingId e = None ->
  exists err, Email.saveNew e w = (Throw err, w).
Proof.
  intros Hv. unfold Email.saveNew, Email.validate, Email.required, bind, throw, ret.
  destruct (String.eqb (EmailDoc.to e) EmptyString); [eauto|].
  destruct (String.eqb (EmailDoc.from e) EmptyString); [eauto|].
  destruct (String.eqb (EmailDoc.subject e) EmptyString); [eauto|].
  destruct (String.eqb (EmailDoc.body e) EmptyString); [eauto|].
  destruct (forallb _ (EmailDoc.variables e)); [|eauto].
  unfold Email.preSave. rewrite Hv. cbn. eauto.
Qed.

(** [scheduleEmail] rejects whatever it is given, and the collections
    are as before. *)
Lemma scheduleEmail_rejects (now : Z) (c : CampaignDoc.t) (ev : EventDoc.t)
  (user : UserDoc.t) (t : Z) (w : world) :
  exists err w',
    CampaignService.scheduleEmail now c ev user t w = (Throw err, w')
    /\ emails w' = emails w /\ sameButEmails w w'.
Proof.
  unfold CampaignService.scheduleEmail. rewrite tryCatch_rethrow.
  unfold bind, get.
  destruct (findBy TemplateDoc._id (CampaignDoc.templateId c) (templates w)) as [tpl|].
  - cbn [ObjectId].
    destruct (newEmail_fields now (hex24 (nextId w)) c ev user t tpl) as (Hv & _).
    destruct (@saveNew_spread _ "defaultVariables" (variablesFor c user ev)
                (setNextId (nextId w + 1)%N w) Hv) as (err & Hs).
    rewrite Hs. exists err. eexists. split; [reflexivity|].
    split; [reflexivity | repeat split].
  - unfold throw. eexists. exists w. split; [reflexivity|].
    split; [reflexivity | repeat split].
Qed.

End ComposerFacts.

(** C1 (the code departs from the claim).  The composer creates no
    delivery: [scheduleEmail] rejects for every input and leaves the
    deliveries as they were.  For an HTML template the document it
    hands to [save] carries the body and the link registry that
    [addTracking] built with the tracking id computed in
    [scheduleEmail], so its click URLs encode that id; the id is not
    given to the document, whose [trackingId] is absent, and [save]
    refuses the document in every world.  An open hit that presents the
    encoded id after the call therefore finds no delivery and changes
    nothing, unless a delivery with that id was stored before. *)
Theorem encoded_tracking_id_is_never_stored {R : Runtime} {C : Collaborators}
  (now : Z) (campaign : CampaignDoc.t) (event : EventDoc.t) (user : UserDoc.t)
  (scheduledTime : Z) (w : world) :
  let run := CampaignService.scheduleEmail now campaign event user scheduledTime w in
  let encoded := CampaignService.localTrackingId campaign event now in
  (exists err, fst run = Throw err)
  /\ emails (snd run) = emails w
  /\ (forall template,
        findBy TemplateDoc._id (CampaignDoc.templateId campaign) (templates w)
        = Some template ->
        run = Email.saveNew
                (CampaignService.newEmail now (hex24 (nextId w)) campaign event user
                   scheduledTime template)
                (setNextId (nextId w + 1)%N w))
  /\ (forall template id,
        TemplateDoc.isHtml template = true ->
        let email :=
          CampaignService.newEmail now id campaign event user scheduledTime template in
        let tracked :=
          EmailService.addTracking
            (renderTemplate (TemplateDoc.body template)
               (CampaignService.variablesOf campaign user event))
            encoded CampaignService.trackingBaseUrl in
        EmailDoc.body email = fst tracked
        /\ EmailDoc.links email = snd tracked
        /\ Forall (fun l => exists i,
                       EmailDoc.tracking l
                       = EmailService.clickUrl CampaignService.trackingBaseUrl encoded i)
             (EmailDoc.links email)
        /\ EmailDoc.trackingId email = None
        /\ forall w0, exists err, Email.saveNew email w0 = (Throw err, w0))
  /\ (forall now',
        Email.findOneByTrackingId encoded (emails w) = None ->
        CampaignService.trackEmailOpen now' encoded (snd run) = (Ok None, snd run)).
Proof.
  intros run encoded.
  destruct (scheduleEmail_rejects now campaign event user scheduledTime w)
    as (err & w' & Hrun & Hem & _).
  fold run in Hrun.
  split; [exists err; now rewrite Hrun|].
  split; [now rewrite Hrun|]. split; [|split].
  - intros template Ht. unfold run, CampaignService.scheduleEmail.
    rewrite tryCatch_rethrow. unfold bind, get. rewrite Ht. reflexivity.
  - intros template id Hhtml email tracked.
    assert (Hbl : EmailDoc.body email = fst tracked /\ EmailDoc.links email = snd tracked).
    { unfold email, CampaignService.newEmail. rewrite Hhtml.
      fold encoded. fold tracked. destruct tracked as [html links]. split; reflexivity. }
    destruct Hbl as [Hb Hl].
    destruct (newEmail_fields now id campaign event user scheduledTime template)
      as (_ & Htid & _).
    split; [exact Hb|]. split; [exact Hl|]. split; [|split; [exact Htid|]].
    + rewrite Hl. apply trackLinks_urls. constructor.
    + intros w0. now apply saveNew_untracked.
  - intros now' Hnone. rewrite Hrun. cbn [snd].
    unfold CampaignService.trackEmailOpen. rewrite tryCatch_rethrow.
    unfold bind, get. rewrite Hem, Hnone. reflexivity.
Qed.

Lemma encoded_tracking_id_is_never_stored_witness :
  findBy TemplateDoc._id (CampaignDoc.templateId Sample.campaign)
    (templates Sample.world0) = Some Sample.template
  /\ TemplateDoc.isHtml Sample.template = true
  /\ (exists err, fst Sample.scheduledRun = Throw err)
  /\ emails (snd Sample.scheduledRun) = []
  /\ EmailDoc.trackingId Sample.builtEmail = None
  /\ Forall (fun l => exists i,
                 EmailDoc.tracking l
                 = EmailService.clickUrl "https://mail.example" Sample.encodedId i)
       (EmailDoc.links Sample.builtEmail)
  /\ CampaignService.trackEmailOpen 1700000001000 Sample.encodedId
       (snd Sample.scheduledRun)
     = (Ok None, snd Sample.scheduledRun).
Proof.
  pose proof (@encoded_tracking_id_is_never_stored Sample.runtime Sample.collaborators
                1700000000000 Sample.campaign Sample.event Sample.user 61000
                Sample.world0) as H.
  cbv zeta in H. destruct H as (Hthrow & Hemails & _ & Hdoc & Hopen).
  destruct (Hdoc Sample.template "000000000000000000000001" eq_refl)
    as (_ & _ & Hurls & Htid & _).
  split; [reflexivity|]. split; [reflexivity|].
  split; [exact Hthrow|]. split; [exact Hemails|]. split; [exact Htid|].
  split; [exact Hurls|].
  apply (Hopen 1700000001000%Z). reflexivity.
Defined.

(** The same on the sample data: the pixel of the body that was built
    carries the encoded id, [save] reports the [variables] it could not
    cast, no id was drawn for the document, and the open hit with the
    encoded id resolves to nothing. *)
Example open_hit_with_encoded_id_misses :
  indexOf (EmailDoc.body Sample.builtEmail)
    ("https://mail.example/track/open/" ++ Sample.encodedId ++ dq) = Some 238
  /\ fst Sample.scheduledRun = Throw (ValidationError "variables")
  /\ fst (Email.preSave Sample.builtEmail Sample.world0)
     = Throw (TypeError "Class constructor ObjectId cannot be invoked without 'new'")
  /\ CampaignService.trackEmailOpen 1700000001000 Sample.encodedId
       (snd Sample.scheduledRun)
     = (Ok None, snd Sample.scheduledRun).
Proof.
  split; [|split; [|split]]; vm_compute; reflexivity.
Qed.

(** ** The matcher *)

Section SubseqFacts.
Variable A : Type.

Lemma Subseq_nil_l (l : list A) : Subseq [] l.
Proof. induction l; constructor; auto. Qed.

Lemma Subseq_refl (l : list A) : Subseq l l.
Proof. induction l; [apply Subseq_nil | now apply Subseq_keep]. Qed.

Lemma Subseq_In (l1 l2 : list A) (x : A) : Subseq l1 l2 -> In x l1 -> In x l2.
Proof.
  induction 1 as [|y l1 l2 _ IH|y l1 l2 _ IH]; simpl; intuition.
Qed.

Lemma Subseq_NoDup (l1 l2 : list A) : Subseq l1 l2 -> NoDup l2 -> NoDup l1.
Proof.
  induction 1 as [|y l1 l2 Hs IH|y l1 l2 Hs IH]; intros Hnd.
  - constructor.
  - inversion Hnd; auto.
  - inversion Hnd as [|? ? Hnotin Hnd']; subst. constructor; [|auto].
    intros Hin. apply Hnotin. eapply Subseq_In; eauto.
Qed.

Lemma Subseq_app (l1 l2 m1 m2 : list A) :
  Subseq l1 l2 -> Subseq m1 m2 -> Subseq (l1 ++ m1) (l2 ++ m2).
Proof.
  induction 1; intros Hm; simpl;
    [exact Hm | apply Subseq_skip; auto | apply Subseq_keep; auto].
Qed.

Lemma Subseq_trans (l1 l2 l3 : list A) : Subseq l1 l2 -> Subseq l2 l3 -> Subseq l1 l3.
Proof.
  intros H12 H23. revert l1 H12.
  induction H23 as [|y l2 l3 _ IH|y l2 l3 _ IH]; intros l1 H12.
  - exact H12.
  - constructor. auto.
  - inversion H12; subst; [apply Subseq_skip | apply Subseq_keep]; auto.
Qed.

End SubseqFacts.

Lemma Subseq_map (A B : Type) (f : A -> B) (l1 l2 : list A) :
  Subseq l1 l2 -> Subseq (map f l1) (map f l2).
Proof.
  induction 1; simpl;
    [apply Subseq_nil | apply Subseq_skip; auto | apply Subseq_keep; auto].
Qed.

Lemma Subseq_filter (A : Type) (f : A -> bool) (l : list A) : Subseq (filter f l) l.
Proof.
  induction l as [|x l IH]; simpl; [constructor|].
  destruct (f x); [apply Subseq_keep | apply Subseq_skip]; auto.
Qed.

Section MatcherFacts.
Context {R : Runtime} {C : Collaborators}.

Lemma scheduleEmail_effect (now : Z) (c : CampaignDoc.t) (ev : EventDoc.t)
  (user : UserDoc.t) (t : Z) (w w' : world) (r : outcome EmailDoc.t) :
  CampaignService.scheduleEmail now c ev user t w = (r, w') ->
  sameButEmails w w' /\ (exists err, r = Throw err) /\ emails w' = emails w.
Proof.
  destruct (scheduleEmail_rejects now c ev user t w) as (err & w1 & Hrun & Hem & Hsame).
  rewrite Hrun. intros H. injection H as <- <-. eauto.
Qed.

End MatcherFacts.

Section UpdateFacts.
Variable A : Type.
Variable key : A -> string.

Lemma updateBy_ext (id : string) (f g : A -> A) (l : list A) :
  (forall x, f x = g x) -> updateBy key id f l = updateBy key id g l.
Proof.
  intros H. induction l as [|y l IH]; simpl; [reflexivity|].
  destruct (String.eqb (key y) id); [now rewrite H | now rewrite IH].
Qed.

Lemma updateBy_same (id : string) (f : A -> A) (l : list A) :
  (forall x, f x = x) -> updateBy key id f l = l.
Proof.
  intros H. induction l as [|y l IH]; simpl; [reflexivity|].
  destruct (String.eqb (key y) id); [now rewrite H | now rewrite IH].
Qed.

Lemma updateBy_updateBy (id : string) (f g : A -> A) (l : list A) :
  (forall x, key (f x) = key x) ->
  updateBy key id g (updateBy key id f l) = updateBy key id (fun x => g (f x)) l.
Proof.
  intros H. induction l as [|y l IH]; simpl; [reflexivity|].
  destruct (String.eqb (key y) id) eqn:E; simpl.
  - now rewrite H, E.
  - now rewrite E, IH.
Qed.

Lemma map_key_updateBy (id : string) (f : A -> A) (l : list A) :
  (forall x, key (f x) = key x) ->
  map key (updateBy key id f l) = map key l.
Proof.
  intros H. induction l as [|y l IH]; simpl; [reflexivity|].
  destruct (String.eqb (key y) id); simpl; [now rewrite H | now rewrite IH].
Qed.

End UpdateFacts.

Lemma setTriggered_app_nil (e : EventDoc.t) :
  EventDoc.setTriggeredCampaigns (EventDoc.triggeredCampaigns e ++ [])%list e = e.
Proof. destruct e. unfold EventDoc.setTriggeredCampaigns. simpl. now rewrite app_nil_r. Qed.

Lemma matcherEffect_none (id : string) (sel : list CampaignDoc.t) (w : world) :
  matcherEffect id sel w w.
Proof.
  unfold matcherEffect. repeat split.
  exists []. split; [apply Subseq_nil_l|].
  symmetry. apply updateBy_same. apply setTriggered_app_nil.
Qed.

Lemma matcherEffect_trans (id : string) (sel1 sel2 : list CampaignDoc.t)
  (w w1 w2 : world) :
  matcherEffect id sel1 w w1 -> matcherEffect id sel2 w1 w2 ->
  matcherEffect id (sel1 ++ sel2) w w2.
Proof.
  intros (Hc1 & Ht1 & Hu1 & Ho1 & Hf1 & (en1 & Hs1 & He1) & Hm1)
         (Hc2 & Ht2 & Hu2 & Ho2 & Hf2 & (en2 & Hs2 & He2) & Hm2).
  unfold matcherEffect.
  split; [congruence|]. split; [congruence|]. split; [congruence|].
  split; [congruence|]. split; [congruence|]. split; [|congruence].
  exists (en1 ++ en2)%list. split.
  - rewrite !map_app. now apply Subseq_app.
  - rewrite He2, He1. rewrite updateBy_updateBy by reflexivity.
    apply updateBy_ext. intros x. destruct x. unfold EventDoc.setTriggeredCampaigns.
    simpl. now rewrite app_assoc.
Qed.

Section MatcherLoop.
Context {R : Runtime} {C : Collaborators}.

Lemma triggerStep_effect (now : Z) (user : UserDoc.t) (c : CampaignDoc.t)
  (event : EventDoc.t) (t : Z) (w w' : world) (r : outcome unit) :
  tryCatch
    (Event.addTriggeredCampaign now (CampaignDoc._id c) EventDoc.scheduled t event ;;
     CampaignService.scheduleEmail now c
       (Event.pushTriggered now (CampaignDoc._id c) EventDoc.scheduled t event)
       user t ;;
     ret tt)%async
    (fun _ => ret tt) w = (r, w') ->
  r = Ok tt /\ matcherEffect (EventDoc._id event) [c] w w'.
Proof.
  unfold tryCatch, bind, Event.addTriggeredCampaign, Event.savePushed, bind, ret.
  destruct (negb (forallb _ _));
    [intros H; injection H as <- <-; split; [reflexivity | apply matcherEffect_none]|].
  cbn [EventDoc._id Event.pushTriggered EventDoc.setTriggeredCampaigns].
  destruct (findBy EventDoc._id (EventDoc._id event) (events w)) as [e0|].
  - match goal with
    | |- context [CampaignService.scheduleEmail now c ?ev user t ?w1] =>
        destruct (CampaignService.scheduleEmail now c ev user t w1) as [r1 w1'] eqn:Hs
    end.
    apply scheduleEmail_effect in Hs.
    destruct Hs as ((He & Hc & Ht & Hu & Ho & Hf) & _ & Hem).
    cbn in He, Hc, Ht, Hu, Ho, Hf, Hem.
    assert (Heff : matcherEffect (EventDoc._id event) [c] w w1').
    { unfold matcherEffect. repeat split; try assumption.
      eexists. split; [|rewrite He; reflexivity]. simpl. apply Subseq_refl. }
    destruct r1; intros H; injection H as <- <-; auto.
  - intros H. injection H as <- <-. split; [reflexivity | apply matcherEffect_none].
Qed.

Lemma processCampaign_effect (now : Z) (user : UserDoc.t) (c : CampaignDoc.t)
  (event : EventDoc.t) (triggered : list CampaignDoc.t) (w w' : world)
  (r : outcome (EventDoc.t * list CampaignDoc.t)) :
  CampaignService.processCampaign now user c (event, triggered) w = (r, w') ->
  r = evaluate now c (event, triggered)
  /\ (forall event' triggered', r = Ok (event', triggered') ->
      exists sel, triggered' = (triggered ++ sel)%list /\ Subseq sel [c]
                  /\ EventDoc._id event' = EventDoc._id event
                  /\ matcherEffect (EventDoc._id event) sel w w')
  /\ (forall err, r = Throw err -> w' = w).
Proof.
  unfold CampaignService.processCampaign, evaluate.
  destruct (negb (Campaign.isDateActive now c)).
  { intros H. injection H as <- <-. split; [reflexivity|]. split; [|discriminate].
    intros ? ? H. injection H as <- <-. exists []. rewrite app_nil_r.
    split; [reflexivity|]. split; [apply Subseq_nil_l|]. split; [reflexivity|].
    apply matcherEffect_none. }
  destruct (negb (Campaign.shouldSendToUser c (EventDoc.userId event))).
  { intros H. injection H as <- <-. split; [reflexivity|]. split; [|discriminate].
    intros ? ? H. injection H as <- <-. exists []. rewrite app_nil_r.
    split; [reflexivity|]. split; [apply Subseq_nil_l|]. split; [reflexivity|].
    apply matcherEffect_none. }
  unfold bind at 1. unfold lift.
  destruct (Campaign.matchesConditions c event) as [[|]|err].
  - cbn [negb]. cbv iota. unfold bind at 1.
    match goal with
    | |- context [tryCatch ?b ?h w] => destruct (tryCatch b h w) as [r0 w0] eqn:Hstep
    end.
    apply triggerStep_effect in Hstep. destruct Hstep as [-> Heff].
    unfold ret. intros H. injection H as <- <-.
    split; [reflexivity|]. split; [|discriminate].
    intros ? ? H. injection H as <- <-. exists [c].
    split; [reflexivity|]. split; [apply Subseq_refl|]. split; [reflexivity|].
    exact Heff.
  - cbn [negb]. cbv iota. unfold ret. intros H. injection H as <- <-.
    split; [reflexivity|]. split; [|discriminate].
    intros ? ? H. injection H as <- <-. exists []. rewrite app_nil_r.
    split; [reflexivity|]. split; [apply Subseq_nil_l|]. split; [reflexivity|].
    apply matcherEffect_none.
  - intros H. injection H as <- <-. split; [reflexivity|].
    split; [discriminate | reflexivity].
Qed.

Lemma processCampaigns_effect (now : Z) (user : UserDoc.t) (cs : list CampaignDoc.t)
  (event : EventDoc.t) (triggered : list CampaignDoc.t) (w w' : world)
  (r : outcome (EventDoc.t * list CampaignDoc.t)) :
  CampaignService.processCampaigns now user cs (event, triggered) w = (r, w') ->
  r = evaluateAll now cs (event, triggered)
  /\ (forall event' triggered', r = Ok (event', triggered') ->
      exists sel, triggered' = (triggered ++ sel)%list /\ Subseq sel cs
                  /\ EventDoc._id event' = EventDoc._id event
                  /\ matcherEffect (EventDoc._id event) sel w w')
  /\ (forall err, r = Throw err -> finalized w' = finalized w).
Proof.
  revert event triggered w w' r.
  induction cs as [|c cs IH]; intros event triggered w w' r;
    cbn [CampaignService.processCampaigns evaluateAll].
  - unfold ret. intros H. injection H as <- <-. split; [reflexivity|].
    split; [|discriminate].
    intros ? ? H. injection H as <- <-. exists []. rewrite app_nil_r.
    split; [reflexivity|]. split; [apply Subseq_nil|]. split; [reflexivity|].
    apply matcherEffect_none.
  - unfold bind.
    destruct (CampaignService.processCampaign now user c (event, triggered) w)
      as [r1 w1] eqn:Hstep.
    apply processCampaign_effect in Hstep. destruct Hstep as (-> & Hok & Herr).
    destruct (evaluate now c (event, triggered)) as [[event1 triggered1]|err] eqn:Hev.
    + destruct (Hok _ _ eq_refl) as (sel1 & -> & Hs1 & Hid1 & Heff1).
      intros H. apply IH in H. destruct H as (-> & Hok2 & Herr2).
      split; [reflexivity|]. split.
      * intros event' triggered' Hr.
        destruct (Hok2 _ _ Hr) as (sel2 & -> & Hs2 & Hid2 & Heff2).
        exists (sel1 ++ sel2)%list. split; [now rewrite app_assoc|].
        split; [change (c :: cs) with ([c] ++ cs)%list; now apply Subseq_app|].
        split; [congruence|].
        rewrite Hid1 in Heff2. eapply matcherEffect_trans; eauto.
      * intros err Hr. rewrite (Herr2 _ Hr).
        now destruct Heff1 as (_ & _ & _ & _ & Hf & _).
    + intros H. injection H as <- <-. split; [reflexivity|].
      split; [discriminate|]. intros ? _. now rewrite (Herr _ eq_refl).
Qed.

Lemma processCampaign_any (now : Z) (user : UserDoc.t) (c : CampaignDoc.t)
  (event : EventDoc.t) (triggered : list CampaignDoc.t) (w w' : world)
  (r : outcome (EventDoc.t * list CampaignDoc.t)) :
  CampaignService.processCampaign now user c (event, triggered) w = (r, w') ->
  exists sel, Subseq sel [c] /\ matcherEffect (EventDoc._id event) sel w w'.
Proof.
  intros H. apply processCampaign_effect in H. destruct H as (-> & Hok & Herr).
  destruct (evaluate now c (event, triggered)) as [[ev1 t1]|err].
  - destruct (Hok _ _ eq_refl) as (sel & _ & Hs & _ & Heff). eauto.
  - rewrite (Herr _ eq_refl). exists [].
    split; [apply Subseq_nil_l | apply matcherEffect_none].
Qed.

(** Whatever the loop returns, it has appended entries for some of the
    candidates to the stored event and left the rest alone. *)
Lemma processCampaigns_any (now : Z) (user : UserDoc.t) (cs : list CampaignDoc.t)
  (event : EventDoc.t) (triggered : list CampaignDoc.t) (w w' : world)
  (r : outcome (EventDoc.t * list CampaignDoc.t)) :
  CampaignService.processCampaigns now user cs (event, triggered) w = (r, w') ->
  exists sel, Subseq sel cs /\ matcherEffect (EventDoc._id event) sel w w'.
Proof.
  revert event triggered w w' r.
  induction cs as [|c cs IH]; intros event triggered w w' r;
    cbn [CampaignService.processCampaigns].
  - unfold ret. intros H. injection H as <- <-. exists [].
    split; [apply Subseq_nil | apply matcherEffect_none].
  - unfold bind.
    destruct (CampaignService.processCampaign now user c (event, triggered) w)
      as [r1 w1] eqn:Hstep.
    destruct (processCampaign_any _ _ _ _ _ _ Hstep) as (sel1 & Hs1 & Heff1).
    apply processCampaign_effect in Hstep. destruct Hstep as (_ & Hok & _).
    destruct r1 as [[event1 triggered1]|err].
    + destruct (Hok _ _ eq_refl) as (_ & _ & _ & Hid & _).
      intros H. apply IH in H. destruct H as (sel2 & Hs2 & Heff2).
      rewrite Hid in Heff2. exists (sel1 ++ sel2)%list.
      split; [change (c :: cs) with ([c] ++ cs)%list; now apply Subseq_app|].
      eapply matcherEffect_trans; eauto.
    + intros H. injection H as <- <-. exists sel1. split; [|exact Heff1].
      change (c :: cs) with ([c] ++ cs)%list.
      rewrite <- (app_nil_r sel1). apply Subseq_app; [exact Hs1 | apply Subseq_nil_l].
Qed.

Lemma evaluate_pushes (now : Z) (c : CampaignDoc.t) (event ev1 : EventDoc.t)
  (triggered t1 : list CampaignDoc.t) :
  evaluate now c (event, triggered) = Ok (ev1, t1) ->
  exists entries sel,
    ev1 = EventDoc.setTriggeredCampaigns
            (EventDoc.triggeredCampaigns event ++ entries)%list event
    /\ t1 = (triggered ++ sel)%list
    /\ map EventDoc.campaignId entries = map CampaignDoc._id sel
    /\ map EventDoc.scheduledFor entries = map (dueFor event) sel.
Proof.
  unfold evaluate.
  assert (Hnone : Ok (event, triggered) = Ok (ev1, t1) ->
                  exists entries sel,
                    ev1 = EventDoc.setTriggeredCampaigns
                            (EventDoc.triggeredCampaigns event ++ entries)%list event
                    /\ t1 = (triggered ++ sel)%list
                    /\ map EventDoc.campaignId entries = map CampaignDoc._id sel
                    /\ map EventDoc.scheduledFor entries = map (dueFor event) sel).
  { intros H. injection H as <- <-. exists [], [].
    rewrite setTriggered_app_nil, app_nil_r. auto. }
  destruct (negb (Campaign.isDateActive now c)); [exact Hnone|].
  destruct (negb (Campaign.shouldSendToUser c (EventDoc.userId event))); [exact Hnone|].
  destruct (Campaign.matchesConditions c event) as [[|]|err];
    [|exact Hnone|discriminate].
  intros H. injection H as <- <-. eexists [_], [c].
  split; [reflexivity|]. split; [reflexivity|]. split; reflexivity.
Qed.

Lemma setTriggered_setTriggered (l1 l2 : list EventDoc.triggered) (e : EventDoc.t) :
  EventDoc.setTriggeredCampaigns
    (EventDoc.triggeredCampaigns
       (EventDoc.setTriggeredCampaigns (EventDoc.triggeredCampaigns e ++ l1)%list e)
     ++ l2)%list
    (EventDoc.setTriggeredCampaigns (EventDoc.triggeredCampaigns e ++ l1)%list e)
  = EventDoc.setTriggeredCampaigns (EventDoc.triggeredCampaigns e ++ l1 ++ l2)%list e.
Proof.
  destruct e. unfold EventDoc.setTriggeredCampaigns. cbn. now rewrite app_assoc.
Qed.

Lemma evaluateAll_pushes (now : Z) (cs : list CampaignDoc.t) (event ev' : EventDoc.t)
  (triggered t' : list CampaignDoc.t) :
  evaluateAll now cs (event, triggered) = Ok (ev', t') ->
  exists entries sel,
    ev' = EventDoc.setTriggeredCampaigns
            (EventDoc.triggeredCampaigns event ++ entries)%list event
    /\ t' = (triggered ++ sel)%list
    /\ map EventDoc.campaignId entries = map CampaignDoc._id sel
    /\ map EventDoc.scheduledFor entries = map (dueFor event) sel.
Proof.
  revert event triggered. induction cs as [|c cs IH]; intros event triggered;
    cbn [evaluateAll].
  - intros H. injection H as <- <-. exists [], [].
    rewrite setTriggered_app_nil, app_nil_r. auto.
  - destruct (evaluate now c (event, triggered)) as [[ev1 t1]|err] eqn:E; [|discriminate].
    intros H. apply IH in H. destruct H as (e2 & s2 & -> & -> & Hm2 & Hd2).
    apply evaluate_pushes in E. destruct E as (e1 & s1 & -> & -> & Hm1 & Hd1).
    exists (e1 ++ e2)%list, (s1 ++ s2)%list.
    split; [apply setTriggered_setTriggered|].
    split; [now rewrite app_assoc|]. rewrite !map_app.
    split; [congruence|]. rewrite Hd1. f_equal. exact Hd2.
Qed.

(** With the event stored and the dates valid, the step appends to the
    stored event exactly the entry it pushed in memory. *)
Lemma processCampaign_exact (now : Z) (user : UserDoc.t) (c : CampaignDoc.t)
  (event ev1 : EventDoc.t) (triggered t1 : list CampaignDoc.t) (w : world)
  (stored : EventDoc.t) :
  findBy EventDoc._id (EventDoc._id event) (events w) = Some stored ->
  evaluate now c (event, triggered) = Ok (ev1, t1) ->
  datesValid ev1 = true ->
  exists entries,
    EventDoc.triggeredCampaigns ev1 = (EventDoc.triggeredCampaigns event ++ entries)%list
    /\ events (snd (CampaignService.processCampaign now user c (event, triggered) w))
       = updateBy EventDoc._id (EventDoc._id event)
           (fun x => EventDoc.setTriggeredCampaigns
                       (EventDoc.triggeredCampaigns x ++ entries)%list x)
           (events w).
Proof.
  intros Hstored. unfold CampaignService.processCampaign, evaluate.
  assert (Hnone : Ok (event, triggered) = Ok (ev1, t1) ->
                  datesValid ev1 = true ->
                  exists entries,
                    EventDoc.triggeredCampaigns ev1
                    = (EventDoc.triggeredCampaigns event ++ entries)%list
                    /\ events (snd (ret (event, triggered) w))
                       = updateBy EventDoc._id (EventDoc._id event)
                           (fun x => EventDoc.setTriggeredCampaigns
                                       (EventDoc.triggeredCampaigns x ++ entries)%list x)
                           (events w)).
  { intros H _. injection H as <- <-. exists []. rewrite app_nil_r.
    split; [reflexivity|]. cbn. symmetry. apply updateBy_same.
    apply setTriggered_app_nil. }
  destruct (negb (Campaign.isDateActive now c)); [exact Hnone|].
  destruct (negb (Campaign.shouldSendToUser c (EventDoc.userId event))); [exact Hnone|].
  unfold bind at 1. unfold lift.
  destruct (Campaign.matchesConditions c event) as [[|]|err];
    [|exact Hnone|discriminate].
  intros H Hv. injection H as <- <-. eexists [_]. split; [reflexivity|].
  cbn [negb]. cbv iota.
  unfold bind, tryCatch, Event.addTriggeredCampaign, Event.savePushed, bind, ret.
  unfold datesValid in Hv. rewrite Hv. cbn [negb].
  cbn [EventDoc._id Event.pushTriggered EventDoc.setTriggeredCampaigns].
  rewrite Hstored.
  match goal with
  | |- context [CampaignService.scheduleEmail now c ?ev user ?t ?w1] =>
      destruct (scheduleEmail_rejects now c ev user t w1)
        as (err & w2 & Hs & _ & (He & _))
  end.
  rewrite Hs. cbn [fst snd]. rewrite He. reflexivity.
Qed.

Lemma processCampaigns_exact (now : Z) (user : UserDoc.t) (cs : list CampaignDoc.t)
  (event ev' : EventDoc.t) (triggered t' : list CampaignDoc.t) (w : world)
  (stored : EventDoc.t) :
  findBy EventDoc._id (EventDoc._id event) (events w) = Some stored ->
  evaluateAll now cs (event, triggered) = Ok (ev', t') ->
  datesValid ev' = true ->
  exists entries,
    EventDoc.triggeredCampaigns ev' = (EventDoc.triggeredCampaigns event ++ entries)%list
    /\ events (snd (CampaignService.processCampaigns now user cs (event, triggered) w))
       = updateBy EventDoc._id (EventDoc._id event)
           (fun x => EventDoc.setTriggeredCampaigns
                       (EventDoc.triggeredCampaigns x ++ entries)%list x)
           (events w).
Proof.
  revert event triggered w stored.
  induction cs as [|c cs IH]; intros event triggered w stored Hstored;
    cbn [CampaignService.processCampaigns evaluateAll].
  - intros H _. injection H as <- <-. exists []. rewrite app_nil_r.
    split; [reflexivity|]. cbn. symmetry. apply updateBy_same.
    apply setTriggered_app_nil.
  - destruct (evaluate now c (event, triggered)) as [[ev1 t1]|err] eqn:E; [|discriminate].
    intros Hrest Hv.
    assert (Hv1 : datesValid ev1 = true).
    { destruct (evaluateAll_pushes _ _ _ _ Hrest) as (e2 & _ & -> & _).
      unfold datesValid in *. cbn in Hv. rewrite forallb_app in Hv.
      now apply andb_prop in Hv. }
    destruct (@processCampaign_exact now user c event ev1 triggered t1 w stored
                Hstored E Hv1) as (e1 & Htc1 & Hev1).
    unfold bind.
    destruct (CampaignService.processCampaign now user c (event, triggered) w)
      as [r1 w1] eqn:Hstep.
    cbn [snd] in Hev1.
    apply processCampaign_effect in Hstep. destruct Hstep as (-> & Hok & _).
    rewrite E in *.
    destruct (Hok _ _ eq_refl) as (_ & _ & _ & Hid & _).
    assert (Hstored1 : findBy EventDoc._id (EventDoc._id ev1) (events w1)
                       = Some (EventDoc.setTriggeredCampaigns
                                 (EventDoc.triggeredCampaigns stored ++ e1)%list stored)).
    { rewrite Hid, Hev1. rewrite findBy_updateBy_same by reflexivity.
      now rewrite Hstored. }
    destruct (IH ev1 t1 w1 _ Hstored1 Hrest Hv) as (e2 & Htc2 & Hev2).
    exists (e1 ++ e2)%list. split; [rewrite Htc2, Htc1; now rewrite app_assoc|].
    rewrite Hev2, Hid, Hev1. rewrite updateBy_updateBy by reflexivity.
    apply updateBy_ext. intros x. destruct x. unfold EventDoc.setTriggeredCampaigns.
    cbn. now rewrite app_assoc.
Qed.

End MatcherLoop.

Section MatcherRun.
Context {R : Runtime} {C : Collaborators}.


(** Whatever a run returns: entries for some of the candidates were
    appended to the stored event, and [processed] was written if and
    only if the run resolved. *)
Lemma processEvent_any (now : Z) (event : EventDoc.t) (w w' : world)
  (r : outcome (list CampaignDoc.t)) :
  CampaignService.processEvent now event w = (r, w') ->
  exists sel w1,
    Subseq sel (CampaignService.findCandidates (EventDoc.eventType event) w)
    /\ matcherEffect (EventDoc._id event) sel w w1
    /\ ((exists err, r = Throw err /\ w' = w1)
        \/ (exists triggered,
               r = Ok triggered
               /\ w' = snd (Event.markProcessedById (EventDoc._id event) w1))).
Proof.
  unfold CampaignService.processEvent. rewrite tryCatch_rethrow. unfold bind, get.
  destruct (Nat.eqb (List.length (CampaignService.findCandidates
                                    (EventDoc.eventType event) w)) 0).
  { cbn. intros H. injection H as <- <-. exists [], w.
    split; [apply Subseq_nil_l|]. split; [apply matcherEffect_none|].
    right. eexists. split; reflexivity. }
  destruct (findBy UserDoc._id (EventDoc.userId event) (users w)) as [user|].
  - destruct (CampaignService.processCampaigns now user
                (CampaignService.findCandidates (EventDoc.eventType event) w)
                (event, []) w) as [r1 w1] eqn:Hloop.
    destruct (processCampaigns_any _ _ _ _ _ _ Hloop) as (sel & Hs & Heff).
    destruct r1 as [[event1 triggered1]|err]; cbn; intros H; injection H as <- <-;
      exists sel; eexists; (split; [exact Hs|]); (split; [exact Heff|]).
    + right. eexists. split; reflexivity.
    + left. eexists. split; reflexivity.
  - cbn. intros H. injection H as <- <-. exists [], w.
    split; [apply Subseq_nil_l|]. split; [apply matcherEffect_none|].
    right. eexists. split; reflexivity.
Qed.

(** With the event stored, its user found, no error in the conditions
    and valid dates: the run resolves to the campaigns [evaluateAll]
    selects, appends one entry for each of them to the stored event,
    in that order, and writes [processed]. *)
Lemma processEvent_exact (now : Z) (event ev' : EventDoc.t) (w : world)
  (user : UserDoc.t) (stored : EventDoc.t) (triggered : list CampaignDoc.t) :
  findBy UserDoc._id (EventDoc.userId event) (users w) = Some user ->
  findBy EventDoc._id (EventDoc._id event) (events w) = Some stored ->
  evaluateAll now (CampaignService.findCandidates (EventDoc.eventType event) w)
    (event, []) = Ok (ev', triggered) ->
  datesValid ev' = true ->
  exists entries,
    (map EventDoc.campaignId entries = map CampaignDoc._id triggered
     /\ map EventDoc.scheduledFor entries = map (dueFor event) triggered)
    /\ EventDoc.triggeredCampaigns ev'
       = (EventDoc.triggeredCampaigns event ++ entries)%list
    /\ fst (CampaignService.processEvent now event w) = Ok triggered
    /\ events (snd (CampaignService.processEvent now event w))
       = updateBy EventDoc._id (EventDoc._id event) (EventDoc.setProcessed true)
           (updateBy EventDoc._id (EventDoc._id event)
              (fun x => EventDoc.setTriggeredCampaigns
                          (EventDoc.triggeredCampaigns x ++ entries)%list x)
              (events w)).
Proof.
  intros Hu Hs Hev Hv.
  destruct (evaluateAll_pushes _ _ _ _ Hev) as (en & sel & Hev' & Hsel & Hmap).
  cbn in Hsel. subst sel.
  unfold CampaignService.processEvent. rewrite tryCatch_rethrow. unfold bind, get.
  destruct (CampaignService.findCandidates (EventDoc.eventType event) w)
    as [|c cs] eqn:Hc.
  - cbn in Hev. injection Hev as <- <-. exists [].
    split; [split; reflexivity|]. split; [now rewrite app_nil_r|]. split; [reflexivity|].
    cbn. f_equal. symmetry. apply updateBy_same. apply setTriggered_app_nil.
  - cbn [List.length Nat.eqb]. rewrite Hu.
    destruct (@processCampaigns_exact R C now user (c :: cs) event ev' [] triggered w
                stored Hs Hev Hv) as (entries & Htc & Hevents).
    assert (Heq : entries = en).
    { rewrite Hev' in Htc. cbn in Htc. now apply app_inv_head in Htc. }
    subst entries.
    destruct (CampaignService.processCampaigns now user (c :: cs) (event, []) w)
      as [r1 w1] eqn:Hloop.
    apply processCampaigns_effect in Hloop. destruct Hloop as (-> & _ & _).
    rewrite Hev. cbn [snd] in Hevents. exists en.
    split; [exact Hmap|]. split; [exact Htc|]. split; [reflexivity|].
    cbn. now rewrite Hevents.
Qed.

Lemma processEvent_result (now : Z) (event : EventDoc.t) (w : world) (user : UserDoc.t) :
  findBy UserDoc._id (EventDoc.userId event) (users w) = Some user ->
  fst (CampaignService.processEvent now event w)
  = match evaluateAll now (CampaignService.findCandidates (EventDoc.eventType event) w)
            (event, []) with
    | Ok (_, triggered) => Ok triggered
    | Throw err => Throw err
    end.
Proof.
  intros Hu. unfold CampaignService.processEvent, tryCatch, bind, get.
  destruct (CampaignService.findCandidates (EventDoc.eventType event) w) as [|c cs] eqn:Hc.
  { reflexivity. }
  cbn [List.length Nat.eqb]. rewrite Hu.
  destruct (CampaignService.processCampaigns now user (c :: cs) (event, []) w)
    as [r1 w1] eqn:Hloop.
  apply processCampaigns_effect in Hloop. destruct Hloop as (-> & _ & _).
  destruct (evaluateAll now (c :: cs) (event, [])) as [[ev' triggered]|err]; reflexivity.
Qed.

End MatcherRun.

Lemma In_findUnprocessed (n : nat) (w : world) (x : EventDoc.t) :
  In x (Event.findUnprocessed n w) ->
  In x (events w) /\ EventDoc.processed x = false.
Proof.
  unfold Event.findUnprocessed. intros H.
  apply In_limit, In_sortBy, filter_In in H. destruct H as [Hin H].
  split; [exact Hin | now apply negb_true_iff].
Qed.


(** C6, amended.  Whatever a run of the matcher over an event returns,
    it appends at most one entry per campaign to the stored event and
    creates no delivery, so it adds no second delivery for any event and
    campaign; once it has written [processed], no sweep selects the
    event.  The run looks at no entry that exists already: with the
    event stored, its user found, no error in the conditions and valid
    dates, the campaigns of the entries it appends are the campaigns it
    triggered, in that order, whatever entries the stored event and the
    event in memory have; a campaign that has an entry gets another. *)
Theorem one_run_triggers_each_campaign_once {R : Runtime} {C : Collaborators}
  (now : Z) (event : EventDoc.t) (w : world) :
  NoDup (map CampaignDoc._id (campaigns w)) ->
  NoDup (map EventDoc._id (events w)) ->
  let w' := snd (CampaignService.processEvent now event w) in
  (exists entries,
      NoDup (map EventDoc.campaignId entries)
      /\ option_map EventDoc.triggeredCampaigns
           (findBy EventDoc._id (EventDoc._id event) (events w'))
         = option_map (fun e => (EventDoc.triggeredCampaigns e ++ entries)%list)
             (findBy EventDoc._id (EventDoc._id event) (events w)))
  /\ emails w' = emails w
  /\ (forall triggered,
        fst (CampaignService.processEvent now event w) = Ok triggered ->
        forall n x, In x (Event.findUnprocessed n w') ->
                    EventDoc._id x <> EventDoc._id event)
  /\ (forall user stored ev' triggered,
        findBy UserDoc._id (EventDoc.userId event) (users w) = Some user ->
        findBy EventDoc._id (EventDoc._id event) (events w) = Some stored ->
        evaluateAll now (CampaignService.findCandidates (EventDoc.eventType event) w)
          (event, []) = Ok (ev', triggered) ->
        datesValid ev' = true ->
        fst (CampaignService.processEvent now event w) = Ok triggered
        /\ option_map (fun e => map EventDoc.campaignId (EventDoc.triggeredCampaigns e))
             (findBy EventDoc._id (EventDoc._id event) (events w'))
           = Some (map EventDoc.campaignId (EventDoc.triggeredCampaigns stored)
                   ++ map CampaignDoc._id triggered)%list).
Proof.
  intros Hndc Hnde w'.
  destruct (CampaignService.processEvent now event w) as [r w1] eqn:Hrun.
  pose proof Hrun as Hany. apply processEvent_any in Hany.
  destruct Hany as (sel & w0 & Hsub & Heff & Hw).
  assert (Hids : NoDup (map CampaignDoc._id sel)).
  { apply (Subseq_NoDup (l2 := map CampaignDoc._id (campaigns w))); [|exact Hndc].
    apply Subseq_map. eapply Subseq_trans; [exact Hsub|]. apply Subseq_filter. }
  destruct Heff as (_ & _ & _ & _ & _ & (entries & Hse & He) & Hm).
  cbn [fst snd] in *. subst w'.
  split; [|split; [|split]].
  - exists entries. split; [eapply Subseq_NoDup; eauto|].
    destruct Hw as [(err & _ & ->)|(t & _ & ->)]; cbn; rewrite He;
      rewrite !findBy_updateBy_same by reflexivity;
      now destruct (findBy EventDoc._id (EventDoc._id event) (events w)).
  - destruct Hw as [(err & _ & ->)|(t & _ & ->)]; cbn; exact Hm.
  - intros triggered Hr n x Hx.
    destruct Hw as [(err & -> & _)|(t & _ & ->)]; [discriminate|].
    apply In_findUnprocessed in Hx. destruct Hx as [Hin Hp].
    cbn in Hin. apply In_updateBy_unique in Hin.
    + destruct Hin as [[_ Hk]|(y & _ & _ & ->)]; [exact Hk | discriminate].
    + rewrite He. rewrite map_key_updateBy by reflexivity. exact Hnde.
  - intros user stored ev' triggered Hu Hs Hev Hv.
    destruct (@processEvent_exact R C now event ev' w user stored triggered
                Hu Hs Hev Hv) as (en & (Hmap & _) & _ & Hr & Hevents).
    rewrite Hrun in Hr, Hevents. cbn [fst snd] in Hr, Hevents.
    split; [exact Hr|]. rewrite Hevents.
    rewrite !findBy_updateBy_same by reflexivity. rewrite Hs. cbn.
    now rewrite map_app, Hmap.
Qed.


(** C6, as the specification states it, fails.  The sweep fetches the
    unprocessed sample event; the dispatch that follows the ingestion
    runs the matcher on it; the sweep then runs the matcher on the
    document it fetched.  The stored event ends with two entries for
    the same campaign. *)
Lemma matcher_driven_twice_counterexample :
  Sample.sweepDocs = [Sample.event]
  /\ option_map (fun e => map EventDoc.campaignId (EventDoc.triggeredCampaigns e))
       (findBy EventDoc._id "64b0000000000000000000e1" (events Sample.afterSweep))
     = Some ["64b0000000000000000000c1"; "64b0000000000000000000c1"]
  /\ ~ NoDup ["64b0000000000000000000c1"; "64b0000000000000000000c1"].
Proof.
  split; [reflexivity|]. split; [reflexivity|].
  intros H. inversion H as [|? ? Hnotin _]; subst. apply Hnotin. now left.
Qed.

Lemma one_run_triggers_each_campaign_once_witness :
  NoDup (map CampaignDoc._id (campaigns Sample.afterDispatch))
  /\ NoDup (map EventDoc._id (events Sample.afterDispatch))
  /\ option_map (fun e => map EventDoc.campaignId (EventDoc.triggeredCampaigns e))
       (findBy EventDoc._id "64b0000000000000000000e1" (events Sample.afterDispatch))
     = Some ["64b0000000000000000000c1"]
  /\ emails (snd (CampaignService.processEvent
                    (R := Sample.runtime) (C := Sample.collaborators)
                    5001 Sample.event Sample.afterDispatch))
     = emails Sample.afterDispatch
  /\ option_map (fun e => map EventDoc.campaignId (EventDoc.triggeredCampaigns e))
       (findBy EventDoc._id "64b0000000000000000000e1"
          (events (snd (CampaignService.processEvent
                          (R := Sample.runtime) (C := Sample.collaborators)
                          5001 Sample.event Sample.afterDispatch))))
     = Some ["64b0000000000000000000c1"; "64b0000000000000000000c1"].
Proof.
  assert (Hc : NoDup (map CampaignDoc._id (campaigns Sample.afterDispatch))).
  { vm_compute. constructor; [simpl; tauto | constructor]. }
  assert (He : NoDup (map EventDoc._id (events Sample.afterDispatch))).
  { vm_compute. constructor; [simpl; tauto | constructor]. }
  split; [exact Hc|]. split; [exact He|]. split; [reflexivity|].
  pose proof (@one_run_triggers_each_campaign_once Sample.runtime Sample.collaborators
                5001 Sample.event Sample.afterDispatch Hc He) as H.
  cbv zeta in H. destruct H as (_ & Hm & _ & Hexact).
  split; [exact Hm|].
  destruct (Hexact Sample.user
              (EventDoc.setProcessed true
                 (Event.pushTriggered 5000 "64b0000000000000000000c1"
                    EventDoc.scheduled 61000 Sample.event))
              (Event.pushTriggered 5001 "64b0000000000000000000c1" EventDoc.scheduled
                 61000 Sample.event)
              [Sample.campaign] eq_refl eq_refl eq_refl eq_refl) as [_ Hstored].
  exact Hstored.
Defined.

(** ** The tracking instrumentor *)

(** ** Strings *)

Lemma append_assoc (a b c : string) : (a ++ b) ++ c = a ++ (b ++ c).
Proof. induction a as [|x a IH]; simpl; [reflexivity | now rewrite IH]. Qed.

Lemma append_nil_r (a : string) : a ++ EmptyString = a.
Proof. induction a as [|x a IH]; simpl; [reflexivity | now rewrite IH]. Qed.

Lemma length_append (a b : string) :
  String.length (a ++ b) = String.length a + String.length b.
Proof. induction a as [|x a IH]; simpl; [reflexivity | now rewrite IH]. Qed.

Lemma append_inj_l (a b c : string) : a ++ b = a ++ c -> b = c.
Proof. induction a as [|x a IH]; simpl; intros H; [exact H | injection H; auto]. Qed.

Lemma take_append (a b : string) : take (String.length a) (a ++ b) = a.
Proof. induction a as [|x a IH]; simpl; [now destruct b | now rewrite IH]. Qed.

Lemma drop_append (a b : string) : drop (String.length a) (a ++ b) = b.
Proof. induction a as [|x a IH]; simpl; [reflexivity | exact IH]. Qed.

Lemma startsWith_append (p r : string) : startsWith (p ++ r) p = true.
Proof.
  induction p as [|x p IH]; simpl; [now destruct r|].
  now rewrite Ascii.eqb_refl, IH.
Qed.

Lemma allChars_take_S (f : ascii -> bool) (n : nat) (s : string) :
  allChars f (take (S n) s) = true -> allChars f (take n s) = true.
Proof.
  revert s. induction n as [|n IH]; intros s; [reflexivity|].
  destruct s as [|c s]; [reflexivity|].
  change (take (S (S n)) (String c s)) with (String c (take (S n) s)).
  change (take (S n) (String c s)) with (String c (take n s)).
  cbn [allChars]. intros H. apply andb_prop in H as [-> H]. now apply IH.
Qed.

Lemma allChars_take_append (f : ascii -> bool) (n : nat) (x rest : string) :
  allChars f x = true ->
  allChars f (take n rest) = true ->
  allChars f (take n (x ++ rest)) = true.
Proof.
  revert n. induction x as [|c x IH]; intros n Hx Hr; [exact Hr|].
  destruct n as [|n]; [reflexivity|].
  simpl in Hx. apply andb_prop in Hx as [Hc Hx].
  simpl. rewrite Hc. apply IH; [exact Hx | now apply allChars_take_S].
Qed.

(** ** First occurrences *)

Lemma skips_nil (rest p : string) : skips EmptyString rest p.
Proof. unfold skips. simpl. now destruct (indexOf rest p). Qed.

Lemma skips_app (a b rest p : string) :
  skips a (b ++ rest) p -> skips b rest p -> skips (a ++ b) rest p.
Proof.
  unfold skips. intros Ha Hb. rewrite append_assoc, Ha, Hb, length_append.
  destruct (indexOf rest p); simpl; [f_equal; lia | reflexivity].
Qed.

Lemma skips_char (c : ascii) (rest p : string) :
  startsWith (String c rest) p = false -> skips (String c EmptyString) rest p.
Proof.
  unfold skips. intros H. cbn [append String.length].
  destruct p as [|a p]; [discriminate|].
  cbn [indexOf]. rewrite H. now destruct (indexOf rest (String a p)).
Qed.

Lemma skips_cons (c : ascii) (x rest p : string) :
  startsWith (String c (x ++ rest)) p = false ->
  skips x rest p -> skips (String c x) rest p.
Proof.
  intros Hc Hx. change (String c x) with (String c EmptyString ++ x).
  apply skips_app; [now apply skips_char | exact Hx].
Qed.

Lemma startsWith_href_h (c : ascii) (s url : string) :
  notH c = true -> startsWith (String c s) (EmailService.hrefOf url) = false.
Proof.
  unfold notH. intros H. apply negb_true_iff in H.
  unfold EmailService.hrefOf. cbn [append startsWith]. now rewrite H.
Qed.

Lemma startsWith_href_eq (s url : string) :
  startsWith s (EmailService.hrefOf url) = true ->
  allChars notEq (take 5 s) = false.
Proof.
  unfold EmailService.hrefOf.
  destruct s as [|c0 [|c1 [|c2 [|c3 [|c4 s]]]]]; cbn [append startsWith];
    try discriminate;
    try (intros H; repeat (apply andb_prop in H; destruct H as [_ H]); discriminate).
  intros H.
  do 4 (apply andb_prop in H; destruct H as [_ H]).
  apply andb_prop in H. destruct H as [H _].
  apply Ascii.eqb_eq in H. subst c4.
  cbn [take allChars].
  replace (notEq "=") with false by reflexivity.
  now rewrite !andb_false_r.
Qed.

Lemma skips_noH (x rest url : string) :
  allChars notH x = true -> skips x rest (EmailService.hrefOf url).
Proof.
  induction x as [|c x IH]; simpl; intros H; [apply skips_nil|].
  apply andb_prop in H as [Hc Hx].
  apply skips_cons; [now apply startsWith_href_h | now apply IH].
Qed.

Lemma skips_noEq (x rest url : string) :
  allChars notEq x = true ->
  allChars notEq (take 4 rest) = true ->
  skips x rest (EmailService.hrefOf url).
Proof.
  intros Hx Hr. induction x as [|c x IH]; [apply skips_nil|].
  simpl in Hx. apply andb_prop in Hx as [Hc Hx].
  apply skips_cons; [|now apply IH].
  destruct (startsWith (String c (x ++ rest)) (EmailService.hrefOf url)) eqn:E;
    [|reflexivity].
  apply startsWith_href_eq in E.
  change (take 5 (String c (x ++ rest))) with (String c (take 4 (x ++ rest))) in E.
  cbn [allChars] in E. rewrite Hc in E.
  rewrite allChars_take_append in E by assumption. discriminate.
Qed.

Lemma notDquote_eqb (c : ascii) :
  notDquote c = true -> Ascii.eqb dquote c = false /\ Ascii.eqb c dquote = false.
Proof.
  intros H. split.
  - destruct (Ascii.eqb dquote c) eqn:E; [|reflexivity].
    apply Ascii.eqb_eq in E. subst c. discriminate H.
  - destruct (Ascii.eqb c dquote) eqn:E; [|reflexivity].
    apply Ascii.eqb_eq in E. subst c. discriminate H.
Qed.

Lemma startsWith_quoted (u t rest : string) :
  allChars notDquote u = true -> allChars notDquote t = true -> u <> t ->
  startsWith (t ++ String dquote rest) (u ++ String dquote EmptyString) = false.
Proof.
  revert t. induction u as [|a u IH]; intros t Hu Ht Hne.
  - destruct t as [|b t]; [congruence|].
    cbn [allChars] in Ht. apply andb_prop in Ht as [Hb _].
    apply notDquote_eqb in Hb as [Hb _].
    cbn [append startsWith]. now rewrite Hb.
  - cbn [allChars] in Hu. apply andb_prop in Hu as [Ha Hu].
    apply notDquote_eqb in Ha as [_ Ha].
    destruct t as [|b t]; cbn [append startsWith].
    + now rewrite Ha.
    + cbn [allChars] in Ht. apply andb_prop in Ht as [_ Ht].
      destruct (Ascii.eqb a b) eqn:E; [|reflexivity]. cbn [andb].
      apply Ascii.eqb_eq in E. subst b.
      apply IH; [exact Hu | exact Ht | congruence].
Qed.

(** The quoted URL at the head of the text is another one. *)
Lemma startsWith_other_url (u t rest : string) :
  allChars notDquote u = true -> allChars notDquote t = true -> u <> t ->
  startsWith (EmailService.hrefOf t ++ rest) (EmailService.hrefOf u) = false.
Proof.
  intros Hu Ht Hne. unfold EmailService.hrefOf, dq.
  cbn [append startsWith]. rewrite !Ascii.eqb_refl. cbn [andb].
  rewrite append_assoc. cbn [append].
  now apply startsWith_quoted.
Qed.

Lemma getSubstitution_plain (m b a r : string) :
  allChars notDollar r = true -> getSubstitution m b a r = r.
Proof.
  induction r as [|c r IH]; simpl; [reflexivity|].
  intros H. apply andb_prop in H as [Hc Hr].
  unfold notDollar in Hc. apply negb_true_iff in Hc. rewrite Hc.
  now rewrite IH.
Qed.

Lemma replace_first (before p after r : string) :
  skips before (p ++ after) p ->
  allChars notDollar r = true ->
  replace (before ++ p ++ after) p r = before ++ r ++ after.
Proof.
  unfold skips, replace. intros Hs Hr. rewrite Hs.
  assert (H0 : indexOf (p ++ after) p = Some 0).
  { destruct p; simpl; [now destruct after|].
    now rewrite Ascii.eqb_refl, startsWith_append. }
  rewrite H0. cbn [option_map]. rewrite Nat.add_0_r.
  rewrite take_append, getSubstitution_plain by assumption.
  rewrite <- (append_assoc before p after).
  rewrite <- length_append, drop_append. reflexivity.
Qed.

(** ** The matcher of anchors *)

Lemma matchHere_notLt (c : ascii) (s : string) :
  notLt c = true -> EmailService.matchHere (String c s) = None.
Proof.
  unfold notLt. intros H. apply negb_true_iff in H.
  destruct s as [|a s]; cbn [EmailService.matchHere]; [reflexivity|].
  now rewrite H.
Qed.

Lemma exec_skip (x s : string) :
  allChars notLt x = true -> EmailService.exec (x ++ s) = EmailService.exec s.
Proof.
  induction x as [|c x IH]; intros H; [reflexivity|].
  cbn [allChars] in H. apply andb_prop in H as [Hc Hx].
  cbn [append EmailService.exec]. rewrite matchHere_notLt by exact Hc.
  now apply IH.
Qed.

Lemma exec_none (x : string) :
  allChars notLt x = true -> EmailService.exec x = None.
Proof.
  intros H. rewrite <- (append_nil_r x). rewrite exec_skip by exact H. reflexivity.
Qed.

(** The closing tag of an anchor starts no match. *)
Lemma exec_closing_tag (s : string) :
  EmailService.exec ("</a>" ++ s) = EmailService.exec s.
Proof.
  cbn [append EmailService.exec].
  change (EmailService.matchHere (String "<" (String "/" (String "a" (String ">" s)))))
    with (@None EmailService.capture).
  apply (exec_skip "/a>" s). reflexivity.
Qed.

Lemma notSpace_lineTerminator (c : ascii) :
  notSpace c = true -> isLineTerminator c = false.
Proof.
  unfold notSpace, isSpace, isLineTerminator, chr. intros H.
  apply negb_true_iff in H.
  apply orb_false_elim in H as [H _]. apply orb_false_elim in H as [H _].
  destruct (Nat.eqb_spec (nat_of_ascii c) 10) as [E|_].
  - rewrite E in H. discriminate.
  - destruct (Nat.eqb_spec (nat_of_ascii c) 13) as [E|_]; [|reflexivity].
    rewrite E in H. discriminate.
Qed.

Lemma lazyDotsThenQuote_url (u rest : string) :
  allChars notDquote u = true -> allChars notSpace u = true ->
  EmailService.lazyDotsThenQuote dquote (u ++ String dquote rest) = Some (u, rest).
Proof.
  induction u as [|c u IH]; intros Hq Hs.
  - cbn [append EmailService.lazyDotsThenQuote]. now rewrite Ascii.eqb_refl.
  - cbn [allChars] in Hq, Hs.
    apply andb_prop in Hq as [Hc Hq]. apply andb_prop in Hs as [Hc' Hs].
    apply notDquote_eqb in Hc as [_ Hc].
    cbn [append EmailService.lazyDotsThenQuote].
    rewrite Hc, (notSpace_lineTerminator _ Hc'), IH by assumption. reflexivity.
Qed.

Lemma spaces1_notSpace (k : string -> option EmailService.capture) (c : ascii) (s : string) :
  notSpace c = true -> EmailService.spaces1 k (String c s) = None.
Proof.
  unfold notSpace. intros H. apply negb_true_iff in H.
  cbn [EmailService.spaces1]. now rewrite H.
Qed.

Lemma lazyNotGt_none (k : string -> option EmailService.capture) (x r : string) :
  allChars notSpace x = true ->
  EmailService.lazyNotGt (EmailService.spaces1 k) (x ++ String ">" r) = None.
Proof.
  induction x as [|c x IH]; intros H.
  - cbn [append EmailService.lazyNotGt].
    rewrite spaces1_notSpace by reflexivity. reflexivity.
  - cbn [allChars] in H. apply andb_prop in H as [Hc Hx].
    cbn [append EmailService.lazyNotGt].
    rewrite spaces1_notSpace by exact Hc.
    destruct (chr c 62); [reflexivity | now apply IH].
Qed.

Lemma hrefAttr_url (u rest : string) :
  allChars notDquote u = true -> allChars notSpace u = true ->
  EmailService.hrefAttr (EmailService.hrefOf u ++ rest) = Some (u, rest).
Proof.
  intros Hq Hs. unfold EmailService.hrefAttr, EmailService.hrefOf, dq.
  cbn [append]. rewrite append_assoc. cbn [append].
  replace (startsWithCI _ "href=") with true by reflexivity.
  cbn [drop].
  replace (EmailService.isQuote dquote) with true by reflexivity.
  now apply lazyDotsThenQuote_url.
Qed.

Lemma allChars_notSpace_href (u : string) :
  allChars notSpace u = true -> allChars notSpace (EmailService.hrefOf u) = true.
Proof.
  intros H. unfold EmailService.hrefOf, dq. cbn [append allChars].
  rewrite allChars_app, H. reflexivity.
Qed.

Lemma matchHere_anchor (u r : string) :
  allChars notDquote u = true -> allChars notSpace u = true ->
  EmailService.matchHere ("<a " ++ EmailService.hrefOf u ++ String ">" r)
  = Some (u, String ">" r).
Proof.
  intros Hq Hs.
  cbn [append EmailService.matchHere].
  replace (chr "<" 60 && eqLetterCI "a" "a") with true by reflexivity.
  cbn [EmailService.spaces1].
  replace (isSpace " ") with true by reflexivity.
  assert (Hh : EmailService.spaces1 EmailService.optGroupThenHref
                 (EmailService.hrefOf u ++ String ">" r) = None).
  { unfold EmailService.hrefOf at 1. cbn [append].
    apply spaces1_notSpace. reflexivity. }
  rewrite Hh. unfold EmailService.optGroupThenHref.
  rewrite lazyNotGt_none by now apply allChars_notSpace_href.
  now apply hrefAttr_url.
Qed.

Lemma exec_anchor (u r : string) :
  allChars notDquote u = true -> allChars notSpace u = true ->
  EmailService.exec ("<a " ++ EmailService.hrefOf u ++ String ">" r)
  = Some (u, String ">" r).
Proof.
  intros Hq Hs.
  pose proof (matchHere_anchor u r Hq Hs) as H.
  cbn [append] in H. cbn [append EmailService.exec]. now rewrite H.
Qed.

Ltac norm_append :=
  repeat first [rewrite append_assoc | progress cbn [append]].

Lemma allChars_impl (f g : ascii -> bool) (s : string) :
  (forall c, f c = true -> g c = true) -> allChars f s = true -> allChars g s = true.
Proof.
  intros Hfg. induction s as [|c s IH]; simpl; [reflexivity|].
  intros H. apply andb_prop in H as [Hc Hs]. now rewrite (Hfg c Hc), IH.
Qed.

Lemma plain_notLt (s : string) : allChars plainChar s = true -> allChars notLt s = true.
Proof. apply allChars_impl. intros c H. now apply andb_prop in H. Qed.

Lemma plain_notEq (s : string) : allChars plainChar s = true -> allChars notEq s = true.
Proof. apply allChars_impl. intros c H. now apply andb_prop in H. Qed.

Lemma id_notEq (s : string) : allChars idChar s = true -> allChars notEq s = true.
Proof.
  apply allChars_impl. intros c H. apply andb_prop in H as [H _].
  now apply andb_prop in H.
Qed.

Lemma id_notDquote (s : string) : allChars idChar s = true -> allChars notDquote s = true.
Proof.
  apply allChars_impl. intros c H. apply andb_prop in H as [H _].
  now apply andb_prop in H.
Qed.

Lemma id_notDollar (s : string) : allChars idChar s = true -> allChars notDollar s = true.
Proof. apply allChars_impl. intros c H. now apply andb_prop in H. Qed.

Lemma url_notSpace (s : string) : allChars urlChar s = true -> allChars notSpace s = true.
Proof. apply allChars_impl. intros c H. now apply andb_prop in H. Qed.

Lemma url_notDquote (s : string) : allChars urlChar s = true -> allChars notDquote s = true.
Proof. apply allChars_impl. intros c H. now apply andb_prop in H. Qed.

Lemma clickUrl_0 (base tid : string) :
  EmailService.clickUrl base tid 0 = base ++ "/track/click/" ++ tid ++ "/0".
Proof. reflexivity. Qed.

Lemma clickUrl_1 (base tid : string) :
  EmailService.clickUrl base tid 1 = base ++ "/track/click/" ++ tid ++ "/1".
Proof. reflexivity. Qed.

Lemma clickUrl_chars (f : ascii -> bool) (base tid : string) (i : nat) :
  allChars f base = true -> allChars f tid = true ->
  allChars f ("/track/click/" ++ "/" ++ numToString (Z.of_nat i)) = true ->
  allChars f (EmailService.clickUrl base tid i) = true.
Proof.
  intros Hb Ht Hc. unfold EmailService.clickUrl.
  rewrite !allChars_app in *. rewrite Hb, Ht.
  apply andb_prop in Hc as [H1 H2]. apply andb_prop in H2 as [H2 H3].
  now rewrite H1, H2, H3.
Qed.

Lemma hrefOf_notDollar (url : string) :
  allChars notDollar url = true -> allChars notDollar (EmailService.hrefOf url) = true.
Proof.
  intros H. unfold EmailService.hrefOf, dq. cbn [append allChars].
  rewrite allChars_app, H. reflexivity.
Qed.

(** [indexOf] goes through the rewritten first anchor. *)
Lemma skips_tracked_href (base tid u r : string) :
  allChars idChar base = true -> allChars idChar tid = true ->
  allChars notDquote u = true -> u <> EmailService.clickUrl base tid 0 ->
  skips (EmailService.hrefOf (EmailService.clickUrl base tid 0)) (">" ++ r)
    (EmailService.hrefOf u).
Proof.
  intros Hb Ht Hu Hne.
  assert (Hshape : EmailService.hrefOf (EmailService.clickUrl base tid 0)
                   = "h" ++ ("ref=" ++ dq) ++ base ++ "/track/click/" ++ tid
                     ++ ("/0" ++ dq)).
  { rewrite clickUrl_0. unfold EmailService.hrefOf, dq. norm_append. reflexivity. }
  assert (Hfirst : startsWith
                     (EmailService.hrefOf (EmailService.clickUrl base tid 0) ++ ">" ++ r)
                     (EmailService.hrefOf u) = false).
  { apply startsWith_other_url; [exact Hu| |exact Hne].
    apply clickUrl_chars; [now apply id_notDquote | now apply id_notDquote | reflexivity]. }
  rewrite Hshape in *.
  apply skips_app.
  { apply skips_char. rewrite !append_assoc in *. exact Hfirst. }
  apply skips_app; [apply skips_noH; reflexivity|].
  apply skips_app; [apply skips_noEq; [now apply id_notEq | reflexivity]|].
  apply skips_app; [apply skips_noH; reflexivity|].
  apply skips_app; [apply skips_noEq; [now apply id_notEq | reflexivity]|].
  apply skips_noH. reflexivity.
Qed.

Lemma trackLinks_two (fuel : nat) (base tid html tracked u r1 r2 : string) :
  3 <= fuel ->
  EmailService.exec html = Some (u, r1) ->
  EmailService.exec r1 = Some (u, r2) ->
  EmailService.exec r2 = None ->
  EmailService.toTrack u = true ->
  EmailService.trackLinks fuel base tid html tracked [] 0
  = (replace
       (replace tracked (EmailService.hrefOf u)
          (EmailService.hrefOf (EmailService.clickUrl base tid 0)))
       (EmailService.hrefOf u)
       (EmailService.hrefOf (EmailService.clickUrl base tid 1)),
     [EmailService.newLink u (EmailService.clickUrl base tid 0);
      EmailService.newLink u (EmailService.clickUrl base tid 1)]).
Proof.
  intros Hfuel H1 H2 H3 Hu.
  destruct fuel as [|[|[|fuel]]]; try lia.
  cbn [EmailService.trackLinks]. rewrite H1, Hu.
  cbn [EmailService.trackLinks]. rewrite H2, Hu.
  cbn [EmailService.trackLinks]. rewrite H3. reflexivity.
Qed.

Section TwoAnchors.
Variables base tid u pre t1 mid t2 post : string.
Hypothesis Hpre : allChars plainChar pre = true.
Hypothesis Ht1 : allChars plainChar t1 = true.
Hypothesis Hmid : allChars plainChar mid = true.
Hypothesis Ht2 : allChars plainChar t2 = true.
Hypothesis Hpost : allChars plainChar post = true.
Hypothesis Hbase : allChars idChar base = true.
Hypothesis Htid : allChars idChar tid = true.
Hypothesis Hu : allChars urlChar u = true.

Let p := EmailService.hrefOf u.

Lemma exec_first_anchor (r : string) :
  EmailService.exec (pre ++ "<a " ++ p ++ ">" ++ r) = Some (u, ">" ++ r).
Proof.
  rewrite exec_skip by now apply plain_notLt.
  apply (exec_anchor u r); [now apply url_notDquote | now apply url_notSpace].
Qed.

Lemma exec_second_anchor (r : string) :
  EmailService.exec (">" ++ t1 ++ "</a>" ++ mid ++ "<a " ++ p ++ ">" ++ r)
  = Some (u, ">" ++ r).
Proof.
  rewrite (exec_skip ">") by reflexivity.
  rewrite exec_skip by now apply plain_notLt.
  rewrite exec_closing_tag.
  rewrite exec_skip by now apply plain_notLt.
  apply (exec_anchor u r); [now apply url_notDquote | now apply url_notSpace].
Qed.

Lemma exec_after_anchors :
  EmailService.exec (">" ++ t2 ++ "</a>" ++ post) = None.
Proof.
  rewrite (exec_skip ">") by reflexivity.
  rewrite exec_skip by now apply plain_notLt.
  rewrite exec_closing_tag.
  apply exec_none. now apply plain_notLt.
Qed.

Lemma replace_first_anchor (r : string) :
  replace (pre ++ "<a " ++ p ++ ">" ++ r) p
    (EmailService.hrefOf (EmailService.clickUrl base tid 0))
  = pre ++ "<a " ++ EmailService.hrefOf (EmailService.clickUrl base tid 0) ++ ">" ++ r.
Proof.
  rewrite <- (append_assoc pre "<a " (p ++ ">" ++ r)).
  rewrite replace_first.
  - now rewrite append_assoc.
  - apply skips_app.
    + apply skips_noEq; [now apply plain_notEq | reflexivity].
    + apply skips_noH. reflexivity.
  - apply hrefOf_notDollar.
    apply clickUrl_chars; [now apply id_notDollar | now apply id_notDollar | reflexivity].
Qed.

Hypothesis Hne : u <> EmailService.clickUrl base tid 0.

Lemma replace_second_anchor (r : string) :
  replace
    (pre ++ "<a " ++ EmailService.hrefOf (EmailService.clickUrl base tid 0) ++ ">"
     ++ t1 ++ "</a>" ++ mid ++ "<a " ++ p ++ ">" ++ r) p
    (EmailService.hrefOf (EmailService.clickUrl base tid 1))
  = pre ++ "<a " ++ EmailService.hrefOf (EmailService.clickUrl base tid 0) ++ ">"
    ++ t1 ++ "</a>" ++ mid ++ "<a "
    ++ EmailService.hrefOf (EmailService.clickUrl base tid 1) ++ ">" ++ r.
Proof.
  set (h0 := EmailService.hrefOf (EmailService.clickUrl base tid 0)).
  set (before := pre ++ "<a " ++ h0 ++ ">" ++ t1 ++ "</a>" ++ mid ++ "<a ").
  assert (Hshape : forall x,
             pre ++ "<a " ++ h0 ++ ">" ++ t1 ++ "</a>" ++ mid ++ "<a " ++ x
             = before ++ x).
  { intros x. unfold before. now rewrite !append_assoc. }
  rewrite !Hshape. apply replace_first.
  - unfold before.
    apply skips_app; [apply skips_noEq; [now apply plain_notEq | reflexivity]|].
    apply skips_app; [apply skips_noH; reflexivity|].
    apply skips_app.
    { rewrite !append_assoc.
      apply skips_tracked_href; [exact Hbase | exact Htid | now apply url_notDquote | exact Hne]. }
    apply skips_app; [apply skips_noH; reflexivity|].
    apply skips_app; [apply skips_noEq; [now apply plain_notEq | reflexivity]|].
    apply skips_app; [apply skips_noH; reflexivity|].
    apply skips_app; [apply skips_noEq; [now apply plain_notEq | reflexivity]|].
    apply skips_noH. reflexivity.
  - apply hrefOf_notDollar.
    apply clickUrl_chars; [now apply id_notDollar | now apply id_notDollar | reflexivity].
Qed.

End TwoAnchors.

(** ** Fuel of the instrumentation loop *)

Lemma length_drop (n : nat) (s : string) :
  String.length (drop n s) <= String.length s.
Proof.
  revert s. induction n as [|n IH]; intros [|c s]; simpl; auto.
Qed.

Lemma lazyDotsThenQuote_shorter (q : ascii) (s u r : string) :
  EmailService.lazyDotsThenQuote q s = Some (u, r) ->
  String.length r < String.length s.
Proof.
  revert u r. induction s as [|c s IH]; intros u r; simpl; [discriminate|].
  destruct (Ascii.eqb c q).
  - intros H. injection H as _ <-. lia.
  - destruct (isLineTerminator c); [discriminate|].
    destruct (EmailService.lazyDotsThenQuote q s) as [[u' r']|]; [|discriminate].
    intros H. injection H as _ <-. specialize (IH u' r' eq_refl). lia.
Qed.

Lemma hrefAttr_shorter (s u r : string) :
  EmailService.hrefAttr s = Some (u, r) -> String.length r < String.length s.
Proof.
  unfold EmailService.hrefAttr.
  destruct (startsWithCI s "href="); [|discriminate].
  destruct (drop 5 s) as [|q s'] eqn:E; [discriminate|].
  destruct (EmailService.isQuote q); [|discriminate].
  intros H. apply lazyDotsThenQuote_shorter in H.
  pose proof (length_drop 5 s) as Hd. rewrite E in Hd. simpl in Hd. lia.
Qed.

Lemma spaces1_shorter (k : string -> option EmailService.capture) (s u r : string) :
  (forall s' u' r', k s' = Some (u', r') -> String.length r' <= String.length s') ->
  EmailService.spaces1 k s = Some (u, r) -> String.length r < String.length s.
Proof.
  intros Hk. induction s as [|c s IH]; simpl; [discriminate|].
  destruct (isSpace c); [|discriminate].
  destruct (EmailService.spaces1 k s) as [[u' r']|].
  - intros H. injection H as <- <-. specialize (IH eq_refl). lia.
  - intros H. apply Hk in H. lia.
Qed.

Lemma lazyNotGt_shorter (k : string -> option EmailService.capture) (s u r : string) :
  (forall s' u' r', k s' = Some (u', r') -> String.length r' <= String.length s') ->
  EmailService.lazyNotGt k s = Some (u, r) -> String.length r <= String.length s.
Proof.
  intros Hk. induction s as [|c s IH]; cbn [EmailService.lazyNotGt].
  - destruct (k EmptyString) as [[u' r']|] eqn:E; [|discriminate].
    intros H. injection H as <- <-. now apply Hk in E.
  - destruct (k (String c s)) as [[u' r']|] eqn:E.
    + intros H. injection H as <- <-. now apply Hk in E.
    + destruct (chr c 62); [discriminate|].
      intros H. specialize (IH H). simpl. lia.
Qed.

Lemma optGroupThenHref_shorter (s u r : string) :
  EmailService.optGroupThenHref s = Some (u, r) -> String.length r <= String.length s.
Proof.
  unfold EmailService.optGroupThenHref.
  destruct (EmailService.lazyNotGt (EmailService.spaces1 EmailService.hrefAttr) s)
    as [[u' r']|] eqn:E.
  - intros H. injection H as <- <-.
    apply lazyNotGt_shorter in E; [exact E|].
    intros s' u'' r'' H. apply spaces1_shorter in H; [lia|].
    intros s2 u2 r2 H2. apply hrefAttr_shorter in H2. lia.
  - intros H. apply hrefAttr_shorter in H. lia.
Qed.

Lemma exec_shorter (s u r : string) :
  EmailService.exec s = Some (u, r) -> String.length r < String.length s.
Proof.
  induction s as [|c s IH]; cbn [EmailService.exec].
  - cbn. discriminate.
  - destruct (EmailService.matchHere (String c s)) as [[u' r']|] eqn:E.
    + intros H. injection H as <- <-.
      unfold EmailService.matchHere in E.
      destruct s as [|a s]; [discriminate|].
      destruct (chr c 60 && eqLetterCI "a" a); [|discriminate].
      apply spaces1_shorter in E; [simpl; lia|].
      intros s' u'' r''. apply optGroupThenHref_shorter.
    + intros H. specialize (IH H). simpl. lia.
Qed.

(** Every fuel above the length of the text that is left gives the same
    result: the fuel [addTracking] starts with is never used up. *)
Lemma trackLinks_fuel (fuel1 fuel2 : nat) (base tid rest html : string)
  (links : list EmailDoc.link) (index : nat) :
  String.length rest < fuel1 -> String.length rest < fuel2 ->
  EmailService.trackLinks fuel1 base tid rest html links index
  = EmailService.trackLinks fuel2 base tid rest html links index.
Proof.
  revert fuel2 rest html links index.
  induction fuel1 as [|fuel1 IH]; intros fuel2 rest html links index H1 H2; [lia|].
  destruct fuel2 as [|fuel2]; [lia|].
  cbn [EmailService.trackLinks].
  destruct (EmailService.exec rest) as [[url rest']|] eqn:E; [|reflexivity].
  apply exec_shorter in E.
  destruct (EmailService.toTrack url); apply IH; lia.
Qed.

Lemma addTracking_fuel (fuel : nat) (html tid base : string) :
  String.length html < fuel ->
  EmailService.addTracking html tid base
  = EmailService.trackLinks fuel base tid html
      (html ++ EmailService.trackingPixel base tid) [] 0.
Proof.
  intros H. unfold EmailService.addTracking. apply trackLinks_fuel; lia.
Qed.

(** C4, as the specification states it, fails.  On the body of its own
    example the two anchors are rewritten to two different URLs, with
    the indices 0 and 1, and the registry gains two entries. *)
Lemma identical_anchors_counterexample :
  EmailService.addTracking Sample.twoAnchors "t1" "https://mail.example"
  = (anchor "https://mail.example/track/click/t1/0" "A"
     ++ anchor "https://mail.example/track/click/t1/1" "B"
     ++ EmailService.trackingPixel "https://mail.example" "t1",
     [EmailService.newLink "https://x.test" "https://mail.example/track/click/t1/0";
      EmailService.newLink "https://x.test" "https://mail.example/track/click/t1/1"])
  /\ List.length (snd (EmailService.addTracking Sample.twoAnchors "t1"
                         "https://mail.example")) = 2
  /\ "https://mail.example/track/click/t1/0" <> "https://mail.example/track/click/t1/1".
Proof.
  split; [reflexivity|]. split; [reflexivity | discriminate].
Qed.

(** C4, amended.  Take a body made of two anchor elements with the same
    literal URL in double quotes, with text free of tags and of equals
    signs before, inside, between and after them; a URL that is tracked,
    holds no white space and no double quote and is not the first click
    URL itself; a base URL and a tracking id free of equals signs, double
    quotes and dollar signs.  Instrumentation rewrites the first anchor
    to the click URL of index 0 and the second to the click URL of
    index 1, which differ, appends the pixel, and the registry gains two
    entries for the URL, one per anchor. *)
Theorem identical_anchors_get_two_indices (base tid u pre t1 mid t2 post : string) :
  allChars plainChar pre = true ->
  allChars plainChar t1 = true ->
  allChars plainChar mid = true ->
  allChars plainChar t2 = true ->
  allChars plainChar post = true ->
  allChars idChar base = true ->
  allChars idChar tid = true ->
  allChars urlChar u = true ->
  EmailService.toTrack u = true ->
  u <> EmailService.clickUrl base tid 0 ->
  EmailService.addTracking (twoAnchorBody u u pre t1 mid t2 post) tid base
  = (twoAnchorBody (EmailService.clickUrl base tid 0) (EmailService.clickUrl base tid 1)
       pre t1 mid t2 post
     ++ EmailService.trackingPixel base tid,
     [EmailService.newLink u (EmailService.clickUrl base tid 0);
      EmailService.newLink u (EmailService.clickUrl base tid 1)])
  /\ EmailService.clickUrl base tid 0 <> EmailService.clickUrl base tid 1.
Proof.
  intros Hpre Ht1 Hmid Ht2 Hpost Hbase Htid Hu Htrack Hne. split.
  - unfold EmailService.addTracking, twoAnchorBody, anchor, anchorTag.
    rewrite !append_assoc.
    rewrite (@trackLinks_two _ base tid _ _ u
               (">" ++ t1 ++ "</a>" ++ mid ++ "<a " ++ EmailService.hrefOf u ++ ">"
                ++ t2 ++ "</a>" ++ post)
               (">" ++ t2 ++ "</a>" ++ post)).
    + rewrite replace_first_anchor by assumption.
      rewrite replace_second_anchor by assumption.
      reflexivity.
    + rewrite !length_append. simpl. lia.
    + now apply exec_first_anchor.
    + now apply exec_second_anchor.
    + now apply exec_after_anchors.
    + exact Htrack.
  - rewrite clickUrl_0, clickUrl_1. intros H.
    do 3 apply append_inj_l in H. discriminate H.
Qed.

Lemma identical_anchors_get_two_indices_witness :
  List.length
    (snd (EmailService.addTracking
            (twoAnchorBody "https://x.test" "https://x.test"
               "Hello " "A" " and " "B" " bye")
            "t1" "https://mail.example")) = 2
  /\ EmailService.clickUrl "https://mail.example" "t1" 0
     <> EmailService.clickUrl "https://mail.example" "t1" 1.
Proof.
  destruct (@identical_anchors_get_two_indices "https://mail.example" "t1"
              "https://x.test" "Hello " "A" " and " "B" " bye")
    as [H1 H2]; try reflexivity.
  - discriminate.
  - split; [now rewrite H1 | exact H2].
Defined.

(** ** The delivery worker, run by run *)

Lemma findBy_updateBy_other (A : Type) (key : A -> string) (id id' : string)
  (f : A -> A) (l : list A) :
  (forall x, key (f x) = key x) ->
  id' <> id ->
  findBy key id' (updateBy key id f l) = findBy key id' l.
Proof.
  intros Hf Hne. induction l as [|y l IH]; simpl; [reflexivity|].
  destruct (String.eqb (key y) id) eqn:E; simpl.
  - rewrite Hf. apply String.eqb_eq in E.
    destruct (String.eqb (key y) id') eqn:E'; [|reflexivity].
    apply String.eqb_eq in E'. congruence.
  - now rewrite IH.
Qed.

Section WorkerFacts.
Context {R : Runtime} {C : Collaborators}.

Lemma sendEmail_outgoing (e : EmailDoc.t) (w : world) :
  EmailService.sendEmail
    {| m_to := EmailDoc.to e; m_from := EmailDoc.from e;
       m_subject := EmailDoc.subject e; m_body := EmailDoc.body e;
       m_isHtml := EmailDoc.isHtml e |} w
  = match sendMail (outgoing e) with
    | Ok messageId => (Ok messageId, setOutbox (outbox w ++ [outgoing e])%list w)
    | Throw err => (Throw err, w)
    end.
Proof.
  unfold EmailService.sendEmail, tryCatch, bind, lift, outgoing. cbn.
  destruct (sendMail _); reflexivity.
Qed.

(** What [sendOne] does to a delivery that is stored. *)
Lemma sendOne_effect (now : Z) (e d : EmailDoc.t) (count : nat) (w : world) :
  findBy EmailDoc._id (EmailDoc._id e) (emails w) = Some d ->
  exists w' f g,
    CampaignService.sendOne now e count w
    = (Ok (if accepted e then S count else count), w')
    /\ outbox w' = (outbox w ++ (if accepted e then [outgoing e] else []))%list
    /\ emails w' = updateBy EmailDoc._id (EmailDoc._id e) f (emails w)
    /\ (forall x, EmailDoc._id (f x) = EmailDoc._id x)
    /\ (forall x, EmailDoc.state (f x) = statusAfterSend e)
    /\ campaigns w' = updateBy CampaignDoc._id (EmailDoc.campaignId e) g (campaigns w)
    /\ (forall c, CampaignDoc._id (g c) = CampaignDoc._id c)
    /\ events w' = events w /\ finalized w' = finalized w.
Proof.
  intros Hd.
  unfold CampaignService.sendOne, tryCatch, bind.
  unfold Email.saveModified at 1. rewrite Hd.
  rewrite sendEmail_outgoing. unfold statusAfterSend, accepted.
  destruct (sendMail (outgoing e)) as [messageId|err].
  - unfold Email.updateStatus, Email.saveModified, bind, ret. cbn [emails setOutbox setEmails].
    rewrite findBy_updateBy_same by reflexivity. rewrite Hd. cbn.
    eexists. eexists. eexists. split; [reflexivity|]. cbn.
    split; [reflexivity|]. split; [apply updateBy_updateBy; reflexivity|].
    split; [reflexivity|]. split; [reflexivity|].
    split; [reflexivity|]. split; [reflexivity|]. split; reflexivity.
  - unfold Email.updateStatus, Email.saveModified, bind, ret. cbn [emails setEmails].
    rewrite findBy_updateBy_same by reflexivity. rewrite Hd. cbn.
    eexists. eexists. eexists. split; [reflexivity|]. cbn.
    split; [now rewrite app_nil_r|]. split; [apply updateBy_updateBy; reflexivity|].
    split; [reflexivity|]. split; [reflexivity|].
    split; [reflexivity|]. split; [reflexivity|]. split; reflexivity.
Qed.

End WorkerFacts.

Lemma findBy_updateBy_some (A : Type) (key : A -> string) (id id' : string)
  (f : A -> A) (l : list A) (d : A) :
  (forall x, key (f x) = key x) ->
  findBy key id' l = Some d ->
  exists d', findBy key id' (updateBy key id f l) = Some d'.
Proof.
  intros Hf Hd. destruct (String.eqb id' id) eqn:E.
  - apply String.eqb_eq in E. subst id'.
    rewrite findBy_updateBy_same by exact Hf. rewrite Hd. simpl. eauto.
  - apply String.eqb_neq in E.
    rewrite findBy_updateBy_other by assumption. eauto.
Qed.

Lemma Permutation_insertBy (A : Type) (key : A -> Z) (x : A) (l : list A) :
  Permutation (Event.insertBy key x l) (x :: l).
Proof.
  induction l as [|y l IH]; cbn [Event.insertBy]; [reflexivity|].
  destruct (key x <? key y)%Z; [reflexivity|].
  rewrite IH. apply perm_swap.
Qed.

Lemma Permutation_sortBy (A : Type) (key : A -> Z) (l : list A) :
  Permutation (Event.sortBy key l) l.
Proof.
  unfold Event.sortBy. induction l as [|x l IH]; simpl; [reflexivity|].
  rewrite Permutation_insertBy. now constructor.
Qed.

Lemma Subseq_firstn (A : Type) (n : nat) (l : list A) : Subseq (firstn n l) l.
Proof.
  revert l. induction n as [|n IH]; intros [|x l]; simpl.
  - apply Subseq_nil.
  - apply Subseq_nil_l.
  - apply Subseq_nil.
  - apply Subseq_keep, IH.
Qed.

Lemma Subseq_limit (A : Type) (n : nat) (l : list A) : Subseq (Event.limit n l) l.
Proof.
  unfold Event.limit. destruct (Nat.eqb n 0); [apply Subseq_refl | apply Subseq_firstn].
Qed.

Lemma findPendingEmails_NoDup (now : Z) (n : nat) (w : world) :
  NoDup (map EmailDoc._id (emails w)) ->
  NoDup (map EmailDoc._id (Email.findPendingEmails now n w)).
Proof.
  intros Hnd. unfold Email.findPendingEmails.
  eapply Subseq_NoDup; [apply Subseq_map, Subseq_limit|].
  eapply Permutation_NoDup; [apply Permutation_map; symmetry; apply Permutation_sortBy|].
  eapply Subseq_NoDup; [apply Subseq_map, Subseq_filter | exact Hnd].
Qed.

Section WorkerBatch.
Context {R : Runtime} {C : Collaborators}.

Lemma sendAll_effect (now : Z) (l : list EmailDoc.t) (count : nat) (w : world) :
  (forall e, In e l -> exists d, findBy EmailDoc._id (EmailDoc._id e) (emails w) = Some d) ->
  exists w',
    CampaignService.sendAll now l count w
    = (Ok (count + List.length (filter accepted l)), w')
    /\ outbox w' = (outbox w ++ map outgoing (filter accepted l))%list
    /\ events w' = events w /\ finalized w' = finalized w
    /\ (forall id, (forall e, In e l -> EmailDoc._id e <> id) ->
                   findBy EmailDoc._id id (emails w') = findBy EmailDoc._id id (emails w))
    /\ (NoDup (map EmailDoc._id l) ->
        forall e, In e l ->
                  option_map EmailDoc.state (findBy EmailDoc._id (EmailDoc._id e) (emails w'))
                  = Some (statusAfterSend e)).
Proof.
  revert count w. induction l as [|e l IH]; intros count w Hstored.
  - exists w. cbn. rewrite Nat.add_0_r, app_nil_r.
    repeat split; try reflexivity. intros _ e [].
  - destruct (Hstored e (or_introl eq_refl)) as [d Hd].
    destruct (sendOne_effect now e count w Hd)
      as (w1 & f & g & Hrun & Hout & Hem & Hf & Hst & _ & _ & Hev & Hfin).
    assert (Hstored1 : forall e', In e' l ->
              exists d', findBy EmailDoc._id (EmailDoc._id e') (emails w1) = Some d').
    { intros e' Hin. destruct (Hstored e' (or_intror Hin)) as [d' Hd'].
      rewrite Hem. eapply findBy_updateBy_some; eauto. }
    destruct (IH (if accepted e then S count else count) w1 Hstored1)
      as (w' & Hrun' & Hout' & Hev' & Hfin' & Hother & Hstatus).
    exists w'. cbn [CampaignService.sendAll]. unfold bind. rewrite Hrun, Hrun'.
    cbn [filter map List.length].
    split; [destruct (accepted e); cbn [List.length]; f_equal; f_equal; lia|].
    split.
    { rewrite Hout', Hout. destruct (accepted e); cbn [map];
        rewrite <- app_assoc; reflexivity. }
    split; [congruence|]. split; [congruence|]. split.
    { intros id Hne. rewrite Hother by (intros e' Hin; apply Hne; now right).
      rewrite Hem. apply findBy_updateBy_other; [exact Hf|].
      intros ->. now apply (Hne e (or_introl eq_refl)). }
    intros Hnd e' [<-|Hin].
    + cbn [map] in Hnd. apply NoDup_cons_iff in Hnd as [Hnotin _].
      rewrite Hother.
      * rewrite Hem, findBy_updateBy_same by exact Hf. rewrite Hd. cbn. now rewrite Hst.
      * intros e' Hin Heq. apply Hnotin. rewrite <- Heq. now apply in_map.
    + cbn [map] in Hnd. apply NoDup_cons_iff in Hnd as [_ Hnd].
      now apply Hstatus.
Qed.

Lemma sendAll_ids (now : Z) (l : list EmailDoc.t) (count : nat) (w : world) :
  (forall e, In e l -> exists d, findBy EmailDoc._id (EmailDoc._id e) (emails w) = Some d) ->
  map EmailDoc._id (emails (snd (CampaignService.sendAll now l count w)))
  = map EmailDoc._id (emails w).
Proof.
  revert count w. induction l as [|e l IH]; intros count w Hstored; [reflexivity|].
  destruct (Hstored e (or_introl eq_refl)) as [d Hd].
  destruct (sendOne_effect now e count w Hd)
    as (w1 & f & g & Hrun & _ & Hem & Hf & _).
  cbn [CampaignService.sendAll]. unfold bind. rewrite Hrun.
  rewrite IH.
  - rewrite Hem. now apply map_key_updateBy.
  - intros e' Hin. destruct (Hstored e' (or_intror Hin)) as [d' Hd'].
    rewrite Hem. eapply findBy_updateBy_some; eauto.
Qed.

End WorkerBatch.

Lemma findBy_NoDup (A : Type) (key : A -> string) (l : list A) (x : A) :
  NoDup (map key l) -> In x l -> findBy key (key x) l = Some x.
Proof.
  induction l as [|y l IH]; cbn [map findBy]; [intros _ []|].
  intros Hnd Hin. apply NoDup_cons_iff in Hnd as [Hnotin Hnd].
  destruct Hin as [->|Hin]; [now rewrite String.eqb_refl|].
  destruct (String.eqb (key y) (key x)) eqn:E; [|now apply IH].
  apply String.eqb_eq in E. exfalso. apply Hnotin. rewrite E. now apply in_map.
Qed.

Section WorkerMessages.
Context {R : Runtime} {C : Collaborators}.

(** For a delivery that is as the schema requires, the message handed
    to the transport carries the sender stored on the delivery. *)
Lemma outgoing_valid (e : EmailDoc.t) : schemaValid e = true -> outgoing e = messageOf e.
Proof.
  unfold schemaValid, outgoing, messageOf. intros H.
  destruct (String.eqb (EmailDoc.from e) EmptyString); [|reflexivity].
  rewrite andb_false_r in H. discriminate H.
Qed.

Lemma accepted_valid (e : EmailDoc.t) :
  schemaValid e = true -> accepted e = acceptedMessage e.
Proof. intros H. unfold accepted, acceptedMessage. now rewrite (outgoing_valid e H). Qed.

End WorkerMessages.

(** C3, as the specification states it, fails.  Two runs of the worker
    that both query the due items before either claims them both send
    the one due delivery: the claim step of the second run succeeds
    although the stored status is [sent] by then, and the transport
    accepts the message twice. *)
Lemma concurrent_runs_counterexample :
  Sample.due = [Sample.delivery EmailDoc.scheduled]
  /\ option_map EmailDoc.state
       (findBy EmailDoc._id "64b0000000000000000000d1" (emails Sample.afterRunA))
     = Some EmailDoc.sent
  /\ Email.saveModified "64b0000000000000000000d1"
       (EmailDoc.onlyState EmailDoc.sending) Sample.afterRunA
     = (Ok tt,
        setEmails
          (updateBy EmailDoc._id "64b0000000000000000000d1"
             (EmailDoc.apply (EmailDoc.onlyState EmailDoc.sending))
             (emails Sample.afterRunA)) Sample.afterRunA)
  /\ fst (CampaignService.sendAll (R := Sample.runtime) (C := Sample.collaborators)
            5000 Sample.due 0 Sample.afterRunA) = Ok 1
  /\ outbox Sample.afterRunB = [Sample.acceptedMail; Sample.acceptedMail].
Proof.
  repeat split; reflexivity.
Qed.

(** C3, amended.  The claim step of the worker is a plain [save] of
    the status [sending]: it does not look at the status it replaces.
    Take stored deliveries with distinct ids that are as the schema
    requires, and two runs of the worker over the batch of due
    deliveries that one query returned.  Both runs complete and both
    hand to the transport every delivery of the batch whose message it
    accepts, so each of these messages goes out twice; the claim step of
    the second run succeeds on every delivery of the batch although the
    first run has left it [sent] or [failed].  What does hold is that
    after the first run no query for due deliveries, at any time and
    with any limit, returns a delivery of the batch. *)
Theorem claim_step_is_unconditional {R : Runtime} {C : Collaborators}
  (now now' : Z) (n : nat) (w : world) :
  NoDup (map EmailDoc._id (emails w)) ->
  Forall (fun e => schemaValid e = true) (emails w) ->
  let due := Email.findPendingEmails now n w in
  let runA := CampaignService.sendAll now due 0 w in
  let runB := CampaignService.sendAll now' due 0 (snd runA) in
  let taken := filter acceptedMessage due in
  fst runA = Ok (List.length taken)
  /\ fst runB = Ok (List.length taken)
  /\ outbox (snd runB) = (outbox w ++ map messageOf taken ++ map messageOf taken)%list
  /\ (forall e, In e due ->
        exists d,
          findBy EmailDoc._id (EmailDoc._id e) (emails (snd runA)) = Some d
          /\ EmailDoc.state d
             = (if acceptedMessage e then EmailDoc.sent else EmailDoc.failed)
          /\ Email.saveModified (EmailDoc._id e) (EmailDoc.onlyState EmailDoc.sending)
               (snd runA)
             = (Ok tt,
                setEmails
                  (updateBy EmailDoc._id (EmailDoc._id e)
                     (EmailDoc.apply (EmailDoc.onlyState EmailDoc.sending))
                     (emails (snd runA))) (snd runA)))
  /\ (forall m k x e,
        In x (Email.findPendingEmails m k (snd runA)) -> In e due ->
        EmailDoc._id x <> EmailDoc._id e).
Proof.
  intros Hnd Hvalid due runA runB taken.
  assert (Hstored : forall e, In e due ->
            exists d, findBy EmailDoc._id (EmailDoc._id e) (emails w) = Some d).
  { intros e Hin. apply In_findPendingEmails in Hin. now apply In_findBy. }
  assert (Hv : forall e, In e due -> schemaValid e = true).
  { intros e Hin. apply In_findPendingEmails in Hin. destruct Hin as [Hin _].
    rewrite Forall_forall in Hvalid. now apply Hvalid. }
  assert (Hacc : filter accepted due = taken).
  { apply filter_ext_in. intros e Hin. now apply accepted_valid, Hv. }
  assert (Hmsg : map outgoing taken = map messageOf taken).
  { apply map_ext_in. intros e Hin. apply filter_In in Hin.
    now apply outgoing_valid, Hv. }
  assert (Hndd : NoDup (map EmailDoc._id due)) by now apply findPendingEmails_NoDup.
  pose proof (sendAll_ids now due 0 w Hstored) as HidsA. fold runA in HidsA.
  destruct (sendAll_effect now due 0 w Hstored)
    as (wA & HrunA & HoutA & _ & _ & _ & HstA).
  specialize (HstA Hndd).
  assert (HstoredA : forall e, In e due ->
            exists d, findBy EmailDoc._id (EmailDoc._id e) (emails wA) = Some d).
  { intros e Hin. specialize (HstA e Hin).
    destruct (findBy EmailDoc._id (EmailDoc._id e) (emails wA)) as [d|];
      [eauto | discriminate]. }
  destruct (sendAll_effect now' due 0 wA HstoredA) as (wB & HrunB & HoutB & _).
  unfold runB, runA in *. rewrite HrunA in *. cbn [fst snd] in *. rewrite HrunB.
  cbn [fst snd]. rewrite Hacc in *. rewrite Hmsg in *.
  split; [reflexivity|]. split; [reflexivity|].
  split; [rewrite HoutB, HoutA; now rewrite <- app_assoc|]. split.
  - intros e Hin. specialize (HstA e Hin).
    destruct (findBy EmailDoc._id (EmailDoc._id e) (emails wA)) as [d|] eqn:Hd;
      [|discriminate].
    exists d. split; [reflexivity|]. split.
    + cbn in HstA. injection HstA as ->. unfold statusAfterSend.
      now rewrite (accepted_valid e (Hv e Hin)).
    + unfold Email.saveModified. now rewrite Hd.
  - intros m k x e Hx Hin Heq.
    apply In_findPendingEmails in Hx. destruct Hx as (Hx & Hstate & _).
    specialize (HstA e Hin). rewrite <- Heq in HstA.
    rewrite (findBy_NoDup EmailDoc._id) in HstA; [|now rewrite HidsA|exact Hx].
    cbn in HstA. injection HstA as Hs. rewrite Hstate in Hs.
    unfold statusAfterSend in Hs. destruct (accepted e); discriminate.
Qed.

Lemma claim_step_is_unconditional_witness :
  NoDup (map EmailDoc._id (emails Sample2.worldBatch))
  /\ Forall (fun e => schemaValid e = true) (emails Sample2.worldBatch)
  /\ Email.findPendingEmails 5000 10 Sample2.worldBatch = [Sample2.toBob; Sample2.toAda]
  /\ outbox (snd (CampaignService.sendAll (R := Sample.runtime)
                    (C := Sample2.collaboratorsPicky) 5001
                    [Sample2.toBob; Sample2.toAda] 0
                    (snd (CampaignService.sendAll (R := Sample.runtime)
                            (C := Sample2.collaboratorsPicky) 5000
                            [Sample2.toBob; Sample2.toAda] 0 Sample2.worldBatch))))
     = [messageOf Sample2.toAda; messageOf Sample2.toAda].
Proof.
  assert (Hnd : NoDup (map EmailDoc._id (emails Sample2.worldBatch))).
  { simpl. constructor; [|constructor; [simpl; tauto | constructor]].
    simpl. intros [H|[]]. discriminate H. }
  assert (Hv : Forall (fun e => schemaValid e = true) (emails Sample2.worldBatch)).
  { repeat constructor. }
  split; [exact Hnd|]. split; [exact Hv|]. split; [reflexivity|].
  pose proof (@claim_step_is_unconditional Sample.runtime Sample2.collaboratorsPicky
                5000 5001 10 Sample2.worldBatch Hnd Hv) as H.
  cbv zeta in H. destruct H as (_ & _ & Hout & _).
  exact Hout.
Defined.

(* ================================================================== *)
(** * Part III. Further properties of the code *)
(* ================================================================== *)

(** ** The Campaign model *)

Lemma includes_In (l : list string) (x : string) :
  Campaign.includes l x = true <-> In x l.
Proof.
  unfold Campaign.includes. rewrite existsb_exists. split.
  - intros (y & Hy & E). apply String.eqb_eq in E. now subst.
  - intros H. exists x. split; [exact H | apply String.eqb_refl].
Qed.

(** [shouldSendToUser]: a user receives the campaign exactly when the
    audience is empty or lists the user, and the excluded audience does
    not list the user; exclusion wins over inclusion. *)
Theorem shouldSendToUser_iff (c : CampaignDoc.t) (userId : string) :
  Campaign.shouldSendToUser c userId = true
  <-> (CampaignDoc.audience c = [] \/ In userId (CampaignDoc.audience c))
      /\ ~ In userId (CampaignDoc.excludedAudience c).
Proof.
  unfold Campaign.shouldSendToUser.
  assert (He : Campaign.includes (CampaignDoc.excludedAudience c) userId = false
               <-> ~ In userId (CampaignDoc.excludedAudience c)).
  { rewrite <- includes_In. now destruct (Campaign.includes _ userId). }
  destruct (CampaignDoc.audience c) as [|a l].
  - cbn [List.length Nat.ltb Nat.leb andb].
    destruct (Campaign.includes (CampaignDoc.excludedAudience c) userId).
    + split; [discriminate|]. intros [_ H]. now apply He in H.
    + split; [|reflexivity]. intros _. split; [now left | now apply He].
  - replace (Nat.ltb 0 (List.length (a :: l))) with true by reflexivity.
    cbn [andb].
    destruct (Campaign.includes (a :: l) userId) eqn:Ea; cbn [negb].
    + apply includes_In in Ea.
      destruct (Campaign.includes (CampaignDoc.excludedAudience c) userId).
      * split; [discriminate|]. intros [_ H]. now apply He in H.
      * split; [|reflexivity]. intros _. split; [now right | now apply He].
    + split; [discriminate|]. intros [[H|H] _]; [discriminate H|].
      apply includes_In in H. congruence.
Qed.

Example shouldSendToUser_examples :
  Campaign.shouldSendToUser Sample2.campaignAudience "64b0000000000000000000b1" = true
  /\ Campaign.shouldSendToUser Sample2.campaignAudience "64b0000000000000000000b2" = false
  /\ Campaign.shouldSendToUser Sample2.campaignAudience "64b0000000000000000000b3" = false
  /\ Campaign.shouldSendToUser Sample.campaign "64b0000000000000000000b3" = true.
Proof. repeat split. Qed.

(** ** Conditions *)

Section ConditionLaws.
Context {R : Runtime}.

Lemma checkEntries_true (entries : list (string * value)) (ev : value) :
  Campaign.checkEntries entries ev = Ok true
  <-> Forall (fun entry => Campaign.checkEntry entry ev = Ok true) entries.
Proof.
  induction entries as [|entry rest IH]; cbn [Campaign.checkEntries].
  - split; [constructor | reflexivity].
  - destruct (Campaign.checkEntry entry ev) as [[|]|e] eqn:E.
    + rewrite IH. split; [now constructor|]. intros H. now inversion H.
    + split; [discriminate|]. intros H. inversion H; congruence.
    + split; [discriminate|]. intros H. inversion H; congruence.
Qed.

Lemma matchesConditions_true (c : CampaignDoc.t) (event : EventDoc.t) :
  Campaign.matchesConditions c event = Ok true
  <-> Forall (fun entry => Campaign.checkEntry entry (EventDoc.asValue event) = Ok true)
        (CampaignDoc.conditions c).
Proof.
  unfold Campaign.matchesConditions.
  destruct (CampaignDoc.conditions c) as [|entry rest].
  - cbn. split; [constructor | reflexivity].
  - cbn [List.length Nat.eqb]. apply checkEntries_true.
Qed.

(** [matchesConditions]: the entries are a conjunction.  A campaign
    matches an event exactly when every entry of its conditions holds on
    the event; no entry at all is a match. *)
Theorem matchesConditions_is_a_conjunction (c : CampaignDoc.t) (event : EventDoc.t) :
  Campaign.matchesConditions c event = Ok true
  <-> Forall (fun entry => Campaign.checkEntry entry (EventDoc.asValue event) = Ok true)
        (CampaignDoc.conditions c).
Proof. apply matchesConditions_true. Qed.

Lemma split_not_nil (sep : ascii) (s : string) : split sep s <> [].
Proof.
  destruct s as [|c s]; cbn [split]; [discriminate|].
  destruct (Ascii.eqb c sep); [discriminate|].
  destruct (split sep s); discriminate.
Qed.

Lemma descend_truthy (parts : list string) (v ev : value) :
  parts <> [] -> Campaign.descend parts v = Some ev -> toBoolean ev = true.
Proof.
  revert v. induction parts as [|part parts IH]; intros v Hne; [congruence|].
  cbn [Campaign.descend].
  destruct (negb (toBoolean v) || negb (toBoolean (getProp v part))) eqn:G;
    [discriminate|].
  apply orb_false_elim in G as [_ G]. apply negb_false_iff in G.
  destruct parts as [|part' parts'].
  - cbn. intros H. injection H as <-. exact G.
  - apply IH. discriminate.
Qed.

(** [matchesConditions]: an entry [{exists: false}] can never hold.  The
    descent only returns truthy values, so a campaign whose conditions
    hold such an entry matches no event at all. *)
Theorem exists_false_never_matches (c : CampaignDoc.t) (event : EventDoc.t)
  (key : string) (props : list (string * value)) :
  In (key, VObj props) (CampaignDoc.conditions c) ->
  lookup "exists" props = Some (VBool false) ->
  Campaign.matchesConditions c event <> Ok true.
Proof.
  intros Hin Hex Hm. apply matchesConditions_true in Hm.
  rewrite Forall_forall in Hm. specialize (Hm _ Hin).
  unfold Campaign.checkEntry in Hm.
  destruct (Campaign.descend (split "." key) (EventDoc.asValue event)) as [ev|] eqn:Hd;
    [|discriminate].
  apply descend_truthy in Hd; [|apply split_not_nil].
  cbn [typeofObject getProp] in Hm. rewrite Hex in Hm.
  rewrite Hd in Hm. cbn in Hm. discriminate.
Qed.

End ConditionLaws.

Lemma exists_false_never_matches_witness :
  In ("metadata.productId", VObj [("exists", VBool false)])
    (CampaignDoc.conditions Sample.campaignMissing)
  /\ Campaign.matchesConditions (R := Sample.runtime) Sample.campaignMissing
       Sample2.eventPrice <> Ok true.
Proof.
  split; [now left|].
  apply (@exists_false_never_matches Sample.runtime Sample.campaignMissing
           Sample2.eventPrice "metadata.productId" [("exists", VBool false)]);
    [now left | reflexivity].
Defined.


Section ConditionErrors.
Context {R : Runtime}.





(** [matchesConditions]: a [null] condition value on a path that
    resolves raises a [TypeError] (the code reads [value.exists] of an
    operand whose [typeof] is ['object']), provided the entries before
    it hold. *)
Theorem null_condition_throws (c : CampaignDoc.t) (event : EventDoc.t)
  (pre rest : list (string * value)) (key : string) (ev : value) :
  CampaignDoc.conditions c = (pre ++ (key, VNull) :: rest)%list ->
  Campaign.checkEntries pre (EventDoc.asValue event) = Ok true ->
  Campaign.descend (split "." key) (EventDoc.asValue event) = Some ev ->
  exists msg, Campaign.matchesConditions c event = Throw (TypeError msg).
Proof.
  intros Hc Hpre Hd. unfold Campaign.matchesConditions. rewrite Hc.
  destruct (Nat.eqb _ 0) eqn:E.
  - apply Nat.eqb_eq in E. rewrite length_app in E. simpl in E. lia.
  - rewrite checkEntries_app by exact Hpre. cbn [Campaign.checkEntries].
    unfold Campaign.checkEntry. rewrite Hd. cbn. eauto.
Qed.

(** The operators [gt] and [lt] on a path that resolves to a number are
    strict comparisons with a number: a value equal to the bound fails
    both. *)
Theorem thresholds_are_strict (key : string) (ev : value) (n lo hi : Z) :
  Campaign.descend (split "." key) ev = Some (VNum n) ->
  Campaign.checkEntry (key, VObj [("gt", VNum lo)]) ev = Ok (lo <? n)%Z
  /\ Campaign.checkEntry (key, VObj [("lt", VNum hi)]) ev = Ok (n <? hi)%Z
  /\ Campaign.checkEntry (key, VObj [("gt", VNum lo); ("lt", VNum hi)]) ev
     = Ok ((lo <? n) && (n <? hi))%Z.
Proof.
  intros Hd. unfold Campaign.checkEntry. rewrite Hd. cbn.
  rewrite !Z.leb_antisym.
  destruct (lo <? n)%Z, (n <? hi)%Z; auto.
Qed.

End ConditionErrors.


Lemma null_condition_throws_witness :
  Campaign.descend (split "." "metadata.price") (EventDoc.asValue Sample2.eventPrice)
  = Some (VNum 150)
  /\ exists msg,
       Campaign.matchesConditions (R := Sample.runtime) Sample2.campaignNull
         Sample2.eventPrice = Throw (TypeError msg).
Proof.
  split; [reflexivity|].
  apply (@null_condition_throws Sample.runtime Sample2.campaignNull Sample2.eventPrice
           [] [] "metadata.price" (VNum 150)); reflexivity.
Defined.

Lemma thresholds_are_strict_witness :
  Campaign.checkEntry (R := Sample.runtime) ("metadata.price", VObj [("gt", VNum 150)])
    (EventDoc.asValue Sample2.eventPrice) = Ok false
  /\ Campaign.checkEntry (R := Sample.runtime) ("metadata.price", VObj [("gt", VNum 100)])
       (EventDoc.asValue Sample2.eventPrice) = Ok true.
Proof.
  split.
  - apply (@thresholds_are_strict Sample.runtime "metadata.price"
             (EventDoc.asValue Sample2.eventPrice) 150 150 0). reflexivity.
  - apply (@thresholds_are_strict Sample.runtime "metadata.price"
             (EventDoc.asValue Sample2.eventPrice) 150 100 0). reflexivity.
Defined.

(** ** The Email model *)

Lemma insertBy_sorted (A : Type) (key : A -> Z) (x : A) (l : list A) :
  StronglySorted (fun a b => (key a <= key b)%Z) l ->
  StronglySorted (fun a b => (key a <= key b)%Z) (Event.insertBy key x l).
Proof.
  induction l as [|y l IH]; intros Hs; cbn [Event.insertBy].
  - constructor; constructor.
  - destruct (key x <? key y)%Z eqn:E.
    + constructor; [exact Hs|].
      apply StronglySorted_inv in Hs as [_ Hy].
      constructor; [lia|]. rewrite Forall_forall in *. intros z Hz.
      specialize (Hy z Hz). lia.
    + apply StronglySorted_inv in Hs as [Hl Hy].
      constructor; [now apply IH|].
      rewrite Forall_forall in *. intros z Hz.
      apply In_insertBy in Hz as [->|Hz]; [lia | now apply Hy].
Qed.

Lemma sortBy_sorted (A : Type) (key : A -> Z) (l : list A) :
  StronglySorted (fun a b => (key a <= key b)%Z) (Event.sortBy key l).
Proof.
  unfold Event.sortBy. induction l as [|x l IH]; simpl; [constructor|].
  now apply insertBy_sorted.
Qed.

Lemma firstn_sorted (A : Type) (P : A -> A -> Prop) (n : nat) (l : list A) :
  StronglySorted P l -> StronglySorted P (firstn n l).
Proof.
  revert l. induction n as [|n IH]; intros [|x l] Hs; simpl; try constructor.
  - apply IH. now apply StronglySorted_inv in Hs.
  - apply StronglySorted_inv in Hs as [_ Hx].
    rewrite Forall_forall in *. intros z Hz. apply Hx.
    revert Hz. clear. revert l. induction n as [|n IH]; intros [|y l]; simpl; try tauto.
    intros [->|H]; [now left | right; now apply IH].
Qed.

Lemma limit_sorted (A : Type) (P : A -> A -> Prop) (n : nat) (l : list A) :
  StronglySorted P l -> StronglySorted P (Event.limit n l).
Proof.
  unfold Event.limit. destruct (Nat.eqb n 0); [auto | apply firstn_sorted].
Qed.

(** [findPendingEmails]: the result holds only stored deliveries that
    are [scheduled] and due, in ascending order of [scheduledFor]; a
    positive limit bounds its length, and the limit 0 leaves out no due
    delivery. *)
Theorem findPendingEmails_due_sorted_bounded (now : Z) (n : nat) (w : world) :
  (forall x, In x (Email.findPendingEmails now n w) ->
             In x (emails w) /\ EmailDoc.state x = EmailDoc.scheduled
             /\ (EmailDoc.scheduledFor x <= now)%Z)
  /\ StronglySorted (fun a b => (EmailDoc.scheduledFor a <= EmailDoc.scheduledFor b)%Z)
       (Email.findPendingEmails now n w)
  /\ (0 < n -> List.length (Email.findPendingEmails now n w) <= n)
  /\ (forall x, In x (emails w) -> EmailDoc.state x = EmailDoc.scheduled ->
                (EmailDoc.scheduledFor x <= now)%Z ->
                In x (Email.findPendingEmails now 0 w)).
Proof.
  split; [intros x; apply In_findPendingEmails|].
  split; [apply limit_sorted, sortBy_sorted|]. split.
  - intros Hn. unfold Email.findPendingEmails, Event.limit.
    destruct (Nat.eqb_spec n 0) as [->|_]; [lia|]. apply firstn_le_length.
  - intros x Hin Hs Hd. unfold Email.findPendingEmails, Event.limit.
    cbn [Nat.eqb]. apply In_sortBy, filter_In. split; [exact Hin|].
    rewrite Hs. cbn. lia.
Qed.

(** ** The delivery worker, item by item *)

Section BatchFacts.
Context {R : Runtime} {C : Collaborators}.

Lemma processScheduledEmails_outbox (now : Z) (n : nat) (w : world) :
  fst (CampaignService.processScheduledEmails now n w)
  = Ok (List.length (filter accepted (Email.findPendingEmails now n w)))
  /\ outbox (snd (CampaignService.processScheduledEmails now n w))
     = (outbox w ++ map outgoing (filter accepted (Email.findPendingEmails now n w)))%list.
Proof.
  unfold CampaignService.processScheduledEmails, tryCatch, bind, get.
  destruct (Email.findPendingEmails now n w) as [|e l] eqn:Hp.
  - cbn. now rewrite app_nil_r.
  - cbn [List.length Nat.eqb].
    destruct (sendAll_effect now (e :: l) 0 w) as (w' & Hrun & Hout & _).
    { intros e' Hin. rewrite <- Hp in Hin. apply In_findPendingEmails in Hin.
      now apply In_findBy. }
    rewrite Hrun. cbn [fst snd]. split; [reflexivity | exact Hout].
Qed.

(** [processScheduledEmails]: when the stored deliveries are as the
    schema requires, the batch completes whatever the transport does
    with each message.  It returns the number of due deliveries whose
    message the transport accepted, and these messages, each with the
    sender, the recipient, the subject and the body stored on its
    delivery, are appended to the outbox in the order of the query. *)
Theorem worker_batch_always_completes (now : Z) (n : nat) (w : world) :
  Forall (fun e => schemaValid e = true) (emails w) ->
  fst (CampaignService.processScheduledEmails now n w)
  = Ok (List.length (filter acceptedMessage (Email.findPendingEmails now n w)))
  /\ outbox (snd (CampaignService.processScheduledEmails now n w))
     = (outbox w
        ++ map messageOf (filter acceptedMessage (Email.findPendingEmails now n w)))%list.
Proof.
  intros Hvalid.
  assert (Hv : forall e, In e (Email.findPendingEmails now n w) -> schemaValid e = true).
  { intros e Hin. apply In_findPendingEmails in Hin. destruct Hin as [Hin _].
    rewrite Forall_forall in Hvalid. now apply Hvalid. }
  assert (Hacc : filter accepted (Email.findPendingEmails now n w)
                 = filter acceptedMessage (Email.findPendingEmails now n w)).
  { apply filter_ext_in. intros e Hin. now apply accepted_valid, Hv. }
  destruct (processScheduledEmails_outbox now n w) as [Hr Ho].
  rewrite Hr, Ho, Hacc. split; [reflexivity|]. f_equal.
  apply map_ext_in. intros e Hin. apply filter_In in Hin.
  now apply outgoing_valid, Hv.
Qed.

(** [processScheduledEmails]: when the stored deliveries have distinct
    ids, every delivery of the batch is left [sent] if the transport
    accepted its message and [failed] if not; none stays [scheduled] or
    [sending]. *)
Theorem worker_batch_settles_every_item (now : Z) (n : nat) (w : world) (e : EmailDoc.t) :
  NoDup (map EmailDoc._id (emails w)) ->
  In e (Email.findPendingEmails now n w) ->
  option_map EmailDoc.state
    (findBy EmailDoc._id (EmailDoc._id e)
       (emails (snd (CampaignService.processScheduledEmails now n w))))
  = Some (statusAfterSend e).
Proof.
  intros Hnd Hin.
  unfold CampaignService.processScheduledEmails, tryCatch, bind, get.
  destruct (Email.findPendingEmails now n w) as [|e0 l] eqn:Hp; [destruct Hin|].
  cbn [List.length Nat.eqb].
  destruct (sendAll_effect now (e0 :: l) 0 w) as (w' & Hrun & _ & _ & _ & _ & Hst).
  { intros e' Hin'. rewrite <- Hp in Hin'. apply In_findPendingEmails in Hin'.
    now apply In_findBy. }
  rewrite Hrun. cbn [snd]. apply Hst; [|exact Hin].
  rewrite <- Hp. now apply findPendingEmails_NoDup.
Qed.

End BatchFacts.

Lemma worker_batch_always_completes_witness :
  Forall (fun e => schemaValid e = true) (emails Sample2.worldBatch)
  /\ fst (CampaignService.processScheduledEmails (R := Sample.runtime)
            (C := Sample2.collaboratorsPicky) 5000 10 Sample2.worldBatch) = Ok 1
  /\ outbox (snd (CampaignService.processScheduledEmails (R := Sample.runtime)
                    (C := Sample2.collaboratorsPicky) 5000 10 Sample2.worldBatch))
     = [messageOf Sample2.toAda].
Proof.
  assert (Hv : Forall (fun e => schemaValid e = true) (emails Sample2.worldBatch)).
  { repeat constructor. }
  split; [exact Hv|].
  exact (@worker_batch_always_completes Sample.runtime Sample2.collaboratorsPicky
           5000 10 Sample2.worldBatch Hv).
Defined.

Lemma worker_batch_settles_every_item_witness :
  NoDup (map EmailDoc._id (emails Sample2.worldBatch))
  /\ Email.findPendingEmails 5000 10 Sample2.worldBatch = [Sample2.toBob; Sample2.toAda]
  /\ option_map EmailDoc.state
       (findBy EmailDoc._id (EmailDoc._id Sample2.toBob)
          (emails (snd (CampaignService.processScheduledEmails
                          (R := Sample.runtime) (C := Sample2.collaboratorsPicky)
                          5000 10 Sample2.worldBatch))))
     = Some EmailDoc.failed.
Proof.
  assert (Hnd : NoDup (map EmailDoc._id (emails Sample2.worldBatch))).
  { simpl. constructor; [|constructor; [simpl; tauto | constructor]].
    simpl. intros [H|[]]. discriminate H. }
  split; [exact Hnd|]. split; [reflexivity|].
  apply (@worker_batch_settles_every_item Sample.runtime Sample2.collaboratorsPicky
           5000 10 Sample2.worldBatch Sample2.toBob Hnd).
  now left.
Defined.

Section BatchCounters.
Context {R : Runtime} {C : Collaborators}.

Lemma sendOne_campaigns (now : Z) (e d : EmailDoc.t) (count : nat) (w : world) :
  findBy EmailDoc._id (EmailDoc._id e) (emails w) = Some d ->
  campaigns (snd (CampaignService.sendOne now e count w))
  = updateBy CampaignDoc._id (EmailDoc.campaignId e)
      (fun c => CampaignDoc.setAnalytics
                  ((if accepted e then CampaignDoc.incSent else CampaignDoc.incBounced)
                     (CampaignDoc.analytics c)) c)
      (campaigns w).
Proof.
  intros Hd.
  unfold CampaignService.sendOne, tryCatch, bind.
  unfold Email.saveModified at 1. rewrite Hd.
  rewrite sendEmail_outgoing. unfold accepted.
  destruct (sendMail (outgoing e)) as [messageId|err].
  - unfold Email.updateStatus, Email.saveModified, bind, ret.
    cbn [emails setOutbox setEmails].
    rewrite findBy_updateBy_same by reflexivity. rewrite Hd. reflexivity.
  - unfold Email.updateStatus, Email.saveModified, bind, ret. cbn [emails setEmails].
    rewrite findBy_updateBy_same by reflexivity. rewrite Hd. reflexivity.
Qed.

Lemma sendAll_counters (now : Z) (l : list EmailDoc.t) (count : nat) (w : world)
  (cid : string) :
  (forall e, In e l -> exists d, findBy EmailDoc._id (EmailDoc._id e) (emails w) = Some d) ->
  option_map (fun c => (sentOf c, bouncedOf c))
    (findBy CampaignDoc._id cid (campaigns (snd (CampaignService.sendAll now l count w))))
  = option_map
      (fun c => (sentOf c + Z.of_nat (List.length (acceptedFor cid l)),
                 bouncedOf c + Z.of_nat (List.length (rejectedFor cid l))))%Z
      (findBy CampaignDoc._id cid (campaigns w)).
Proof.
  revert count w. induction l as [|e l IH]; intros count w Hstored.
  - cbn. destruct (findBy CampaignDoc._id cid (campaigns w)); cbn; [|reflexivity].
    now rewrite !Z.add_0_r.
  - destruct (Hstored e (or_introl eq_refl)) as [d Hd].
    pose proof (sendOne_campaigns now e count w Hd) as Hc.
    destruct (sendOne_effect now e count w Hd)
      as (w1 & f & g & Hrun & _ & Hem & Hf & _).
    rewrite Hrun in Hc. cbn [snd] in Hc.
    cbn [CampaignService.sendAll]. unfold bind. rewrite Hrun.
    rewrite IH.
    2:{ intros e' Hin. destruct (Hstored e' (or_intror Hin)) as [d' Hd'].
        rewrite Hem. eapply findBy_updateBy_some; eauto. }
    rewrite Hc. unfold acceptedFor, rejectedFor. cbn [filter].
    destruct (String.eqb (EmailDoc.campaignId e) cid) eqn:E.
    + apply String.eqb_eq in E. subst cid.
      rewrite findBy_updateBy_same by reflexivity.
      destruct (findBy CampaignDoc._id (EmailDoc.campaignId e) (campaigns w)) as [c|];
        [|reflexivity].
      cbn [option_map andb]. destruct (accepted e); cbn [negb List.length];
        unfold sentOf, bouncedOf; cbn; f_equal; f_equal; lia.
    + apply String.eqb_neq in E.
      rewrite findBy_updateBy_other by (try reflexivity; congruence).
      reflexivity.
Qed.

(** [processScheduledEmails]: for every campaign, [analytics.sent] grows
    by the number of deliveries of the batch the transport accepted for
    it, and [analytics.bounced] by the number it refused; the failures
    of the transport are counted as bounces. *)
Theorem worker_batch_counts_per_campaign (now : Z) (n : nat) (w : world) (cid : string) :
  option_map (fun c => (sentOf c, bouncedOf c))
    (findBy CampaignDoc._id cid
       (campaigns (snd (CampaignService.processScheduledEmails now n w))))
  = option_map
      (fun c =>
         (sentOf c
          + Z.of_nat (List.length (acceptedFor cid (Email.findPendingEmails now n w))),
          bouncedOf c
          + Z.of_nat (List.length (rejectedFor cid (Email.findPendingEmails now n w)))))%Z
      (findBy CampaignDoc._id cid (campaigns w)).
Proof.
  unfold CampaignService.processScheduledEmails, tryCatch, bind, get.
  destruct (Email.findPendingEmails now n w) as [|e l] eqn:Hp.
  - cbn. destruct (findBy CampaignDoc._id cid (campaigns w)); cbn; [|reflexivity].
    now rewrite !Z.add_0_r.
  - cbn [List.length Nat.eqb].
    pose proof (sendAll_counters now (e :: l) 0 w cid) as H.
    destruct (sendAll_effect now (e :: l) 0 w) as (w' & Hrun & _).
    { intros e' Hin. rewrite <- Hp in Hin. apply In_findPendingEmails in Hin.
      now apply In_findBy. }
    rewrite Hrun in *. cbn [snd] in *. apply H.
    intros e' Hin. rewrite <- Hp in Hin. apply In_findPendingEmails in Hin.
    now apply In_findBy.
Qed.

End BatchCounters.

(** ** The matcher, further *)

Lemma map_updateBy (A B : Type) (key : A -> string) (g : A -> B) (id : string)
  (f : A -> A) (l : list A) :
  (forall x, g (f x) = g x) ->
  map g (updateBy key id f l) = map g l.
Proof.
  intros H. induction l as [|x l IH]; simpl; [reflexivity|].
  destruct (String.eqb (key x) id); simpl; [now rewrite H | now rewrite IH].
Qed.

Lemma matcherEffect_processed (id : string) (sel : list CampaignDoc.t) (w w' : world) :
  matcherEffect id sel w w' ->
  map EventDoc.processed (events w') = map EventDoc.processed (events w).
Proof.
  intros (_ & _ & _ & _ & _ & (entries & _ & He) & _). rewrite He.
  now apply map_updateBy.
Qed.

Section MatcherAbort.
Context {R : Runtime} {C : Collaborators}.

Lemma processCampaigns_processed (now : Z) (user : UserDoc.t) (cs : list CampaignDoc.t)
  (event : EventDoc.t) (triggered : list CampaignDoc.t) (w : world) :
  map EventDoc.processed
    (events (snd (CampaignService.processCampaigns now user cs (event, triggered) w)))
  = map EventDoc.processed (events w).
Proof.
  revert event triggered w. induction cs as [|c cs IH]; intros event triggered w.
  - reflexivity.
  - cbn [CampaignService.processCampaigns]. unfold bind.
    destruct (CampaignService.processCampaign now user c (event, triggered) w)
      as [r1 w1] eqn:Hstep.
    apply processCampaign_effect in Hstep. destruct Hstep as (_ & Hok & Herr).
    destruct r1 as [[event1 triggered1]|err].
    + destruct (Hok _ _ eq_refl) as (sel & _ & _ & _ & Heff). rewrite IH.
      eapply matcherEffect_processed; eauto.
    + cbn. now rewrite (Herr _ eq_refl).
Qed.

(** [processEvent]: when the conditions of a candidate raise an error,
    the run rejects with that error and [processed] is not written:
    nothing is added to the journal of finalized events and the
    [processed] flag of every stored event is as before. *)
Theorem condition_error_aborts_run (now : Z) (event : EventDoc.t) (w : world)
  (user : UserDoc.t) (err : exn) :
  findBy UserDoc._id (EventDoc.userId event) (users w) = Some user ->
  evaluateAll now (CampaignService.findCandidates (EventDoc.eventType event) w)
    (event, []) = Throw err ->
  fst (CampaignService.processEvent now event w) = Throw err
  /\ finalized (snd (CampaignService.processEvent now event w)) = finalized w
  /\ map EventDoc.processed (events (snd (CampaignService.processEvent now event w)))
     = map EventDoc.processed (events w).
Proof.
  intros Hu Hev. unfold CampaignService.processEvent, tryCatch, bind, get.
  destruct (CampaignService.findCandidates (EventDoc.eventType event) w)
    as [|c cs] eqn:Hc; [discriminate|].
  cbn [List.length Nat.eqb]. rewrite Hu.
  pose proof (processCampaigns_processed now user (c :: cs) event [] w) as Hp.
  destruct (CampaignService.processCampaigns now user (c :: cs) (event, []) w)
    as [r1 w1] eqn:Hloop.
  apply processCampaigns_effect in Hloop. destruct Hloop as (-> & _ & Herr).
  rewrite Hev in *. cbn [fst snd] in *.
  split; [reflexivity|]. split; [apply (Herr err eq_refl) | exact Hp].
Qed.

(** What a run resolves to is read off the campaigns and the users. *)
Lemma processEvent_outcome (now : Z) (event : EventDoc.t) (w : world) :
  fst (CampaignService.processEvent now event w)
  = match findBy UserDoc._id (EventDoc.userId event) (users w) with
    | None => Ok []
    | Some _ =>
        match evaluateAll now
                (CampaignService.findCandidates (EventDoc.eventType event) w)
                (event, []) with
        | Ok (_, triggered) => Ok triggered
        | Throw err => Throw err
        end
    end.
Proof.
  destruct (findBy UserDoc._id (EventDoc.userId event) (users w)) as [user|] eqn:Hu.
  - now apply processEvent_result with (user := user).
  - unfold CampaignService.processEvent. rewrite tryCatch_rethrow. unfold bind, get.
    rewrite Hu.
    destruct (Nat.eqb (List.length (CampaignService.findCandidates
                                      (EventDoc.eventType event) w)) 0); reflexivity.
Qed.

Lemma resolves_stable (now : Z) (x : EventDoc.t) (w w' : world) :
  campaigns w' = campaigns w -> users w' = users w ->
  resolves now w' x = resolves now w x.
Proof.
  intros Hc Hu. unfold resolves. rewrite !processEvent_outcome.
  unfold CampaignService.findCandidates. now rewrite Hc, Hu.
Qed.

Lemma flag_updateBy (id id' : string) (f : EventDoc.t -> EventDoc.t)
  (l : list EventDoc.t) :
  (forall x, EventDoc._id (f x) = EventDoc._id x) ->
  (forall x, EventDoc.processed (f x) = EventDoc.processed x
             \/ EventDoc.processed (f x) = true) ->
  (option_map EventDoc.processed (findBy EventDoc._id id' l) = Some true ->
   option_map EventDoc.processed (findBy EventDoc._id id' (updateBy EventDoc._id id f l))
   = Some true)
  /\ (findBy EventDoc._id id' l <> None ->
      findBy EventDoc._id id' (updateBy EventDoc._id id f l) <> None).
Proof.
  intros Hid Hp. induction l as [|y l IH]; cbn [findBy updateBy]; [auto|].
  destruct (String.eqb (EventDoc._id y) id) eqn:E; cbn [findBy].
  - rewrite Hid. destruct (String.eqb (EventDoc._id y) id'); [|auto].
    cbn. split; [|discriminate]. intros H. injection H as H.
    destruct (Hp y) as [Hy|Hy]; rewrite Hy; [now rewrite H | reflexivity].
  - destruct (String.eqb (EventDoc._id y) id'); [auto | exact IH].
Qed.

(** What one run of the matcher in the sweep does to the journal of
    finalized events and to the [processed] flags. *)
Lemma processEvent_flags (now : Z) (event : EventDoc.t) (w : world) :
  let w' := snd (CampaignService.processEvent now event w) in
  campaigns w' = campaigns w /\ users w' = users w
  /\ finalized w'
     = (finalized w ++ (if resolves now w event then [EventDoc._id event] else []))%list
  /\ (forall id, processedFlag id w = Some true -> processedFlag id w' = Some true)
  /\ (forall id, processedFlag id w <> None -> processedFlag id w' <> None)
  /\ (resolves now w event = true ->
      processedFlag (EventDoc._id event) w <> None ->
      processedFlag (EventDoc._id event) w' = Some true).
Proof.
  intros w'. unfold resolves.
  destruct (CampaignService.processEvent now event w) as [r w1] eqn:Hrun.
  apply processEvent_any in Hrun. destruct Hrun as (sel & w0 & _ & Heff & Hw).
  destruct Heff as (Hc & _ & Hu & _ & Hf & (entries & _ & He) & _).
  assert (H0 : forall id,
             (processedFlag id w = Some true -> processedFlag id w0 = Some true)
             /\ (processedFlag id w <> None -> processedFlag id w0 <> None)).
  { intros id. unfold processedFlag. rewrite He.
    destruct (@flag_updateBy (EventDoc._id event) id
                (fun e => EventDoc.setTriggeredCampaigns
                            (EventDoc.triggeredCampaigns e ++ entries)%list e)
                (events w)) as [H1 H2]; [reflexivity | now left |].
    split; [exact H1|]. intros Hn.
    destruct (findBy EventDoc._id id (events w)) as [e0|] eqn:E0; [|now destruct Hn].
    specialize (H2 ltac:(discriminate)).
    destruct (findBy EventDoc._id id (updateBy _ _ _ _)); [discriminate | now destruct H2]. }
  cbn [fst snd] in *. subst w'.
  destruct Hw as [(err & -> & ->)|(t & -> & ->)].
  - split; [exact Hc|]. split; [exact Hu|]. split; [now rewrite app_nil_r|].
    split; [intros id; apply H0|]. split; [intros id; apply H0 | discriminate].
  - cbn. split; [exact Hc|]. split; [exact Hu|]. split; [now rewrite Hf|].
    assert (H1 : forall id,
               (processedFlag id w0 = Some true ->
                option_map EventDoc.processed
                  (findBy EventDoc._id id
                     (updateBy EventDoc._id (EventDoc._id event)
                        (EventDoc.setProcessed true) (events w0))) = Some true)
               /\ (findBy EventDoc._id id (events w0) <> None ->
                   findBy EventDoc._id id
                     (updateBy EventDoc._id (EventDoc._id event)
                        (EventDoc.setProcessed true) (events w0)) <> None)).
    { intros id. apply flag_updateBy; [reflexivity | now right]. }
    split; [intros id H; apply H1; now apply H0|]. split.
    + intros id H. apply H0 in H. unfold processedFlag in *.
      destruct (findBy EventDoc._id id (events w0)) as [e0|] eqn:E0; [|now destruct H].
      destruct (H1 id) as [_ H2]. rewrite E0 in H2. specialize (H2 ltac:(discriminate)).
      cbn. destruct (findBy EventDoc._id id (updateBy _ _ _ _));
        [discriminate | now destruct H2].
    + intros _ H. apply H0 in H. unfold processedFlag in *. cbn.
      rewrite findBy_updateBy_same by reflexivity.
      destruct (findBy EventDoc._id (EventDoc._id event) (events w0));
        [reflexivity | now destruct H].
Qed.

Lemma processAll_exact (now : Z) (evs : list EventDoc.t) (count : nat) (w : world) :
  exists w',
    CampaignService.processAll now evs count w
    = (Ok (count + List.length (filter (resolves now w) evs)), w')
    /\ campaigns w' = campaigns w /\ users w' = users w
    /\ finalized w' = (finalized w ++ map EventDoc._id (filter (resolves now w) evs))%list
    /\ (forall id, processedFlag id w = Some true -> processedFlag id w' = Some true)
    /\ (forall id, processedFlag id w <> None -> processedFlag id w' <> None)
    /\ (forall x, In x (filter (resolves now w) evs) ->
                  processedFlag (EventDoc._id x) w <> None ->
                  processedFlag (EventDoc._id x) w' = Some true).
Proof.
  revert count w. induction evs as [|event evs IH]; intros count w.
  - exists w. cbn. rewrite Nat.add_0_r, app_nil_r. repeat split; auto. intros x [].
  - cbn [CampaignService.processAll]. unfold bind at 1. unfold tryCatch, bind.
    pose proof (processEvent_flags now event w) as Hstep. cbv zeta in Hstep.
    destruct Hstep as (Hc & Hu & Hf & Hkeep & Hsome & Hdone).
    assert (Hres : resolves now w event
                   = match fst (CampaignService.processEvent now event w) with
                     | Ok _ => true
                     | Throw _ => false
                     end) by reflexivity.
    destruct (CampaignService.processEvent now event w) as [r w1].
    cbn [fst snd] in *.
    assert (Hfilter : filter (resolves now w1) evs = filter (resolves now w) evs).
    { apply filter_ext. intros x. now apply resolves_stable. }
    destruct r as [triggered|err]; unfold ret.
    + destruct (IH (S count) w1)
        as (w' & Hrun' & Hc' & Hu' & Hf' & Hkeep' & Hsome' & Hdone').
      rewrite Hfilter in *. exists w'. rewrite Hrun'. cbn [filter]. rewrite Hres.
      cbn [List.length map].
      split; [f_equal; f_equal; lia|]. split; [congruence|]. split; [congruence|].
      split; [rewrite Hf', Hf, Hres, <- app_assoc; reflexivity|].
      split; [auto|]. split; [auto|].
      intros x [<-|Hin] Hx; [apply Hkeep', Hdone; auto | apply Hdone'; auto].
    + destruct (IH count w1)
        as (w' & Hrun' & Hc' & Hu' & Hf' & Hkeep' & Hsome' & Hdone').
      rewrite Hfilter in *. exists w'. rewrite Hrun'. cbn [filter]. rewrite Hres.
      split; [reflexivity|]. split; [congruence|]. split; [congruence|].
      split; [rewrite Hf', Hf, Hres, app_nil_r; reflexivity|].
      split; [auto|]. split; [auto|].
      intros x Hin Hx. apply Hdone'; auto.
Qed.

(** [processUnprocessedEvents] never rejects, whatever the runs of the
    matcher do.  Of the batch it fetched, the events it finalizes are
    exactly those whose run of the matcher resolves, which depends on
    the campaigns and the users only: it resolves to their number,
    writes them to the journal in the order of the batch and leaves
    every one of them [processed].  An event whose run fails is left
    out and the sweep goes on with the events after it. *)
Theorem sweep_counts_what_it_finalizes (now : Z) (n : nat) (w : world) :
  let batch := Event.findUnprocessed n w in
  let done := filter (resolves now w) batch in
  let w' := snd (CampaignService.processUnprocessedEvents now n w) in
  fst (CampaignService.processUnprocessedEvents now n w) = Ok (List.length done)
  /\ finalized w' = (finalized w ++ map EventDoc._id done)%list
  /\ (forall x, In x done -> processedFlag (EventDoc._id x) w' = Some true)
  /\ (forall x, In x batch ->
                In x done
                <-> exists triggered,
                      fst (CampaignService.processEvent now x w) = Ok triggered).
Proof.
  intros batch done w'. subst w'.
  assert (Hstored : forall x, In x batch -> processedFlag (EventDoc._id x) w <> None).
  { intros x Hin. apply In_findUnprocessed in Hin. destruct Hin as [Hin _].
    destruct (In_findBy EventDoc._id x (events w) Hin) as [e0 He0].
    unfold processedFlag. now rewrite He0. }
  assert (Hiff : forall x, In x batch ->
                   In x done
                   <-> exists triggered,
                         fst (CampaignService.processEvent now x w) = Ok triggered).
  { intros x Hin. unfold done. rewrite filter_In. unfold resolves.
    destruct (fst (CampaignService.processEvent now x w)) as [t|err].
    - split; [eauto | auto].
    - split; [intros [_ H]; discriminate | intros [t H]; discriminate]. }
  unfold CampaignService.processUnprocessedEvents. rewrite tryCatch_rethrow.
  unfold bind, get. fold batch.
  destruct batch as [|e l] eqn:Hq.
  - cbn. rewrite app_nil_r. split; [reflexivity|]. split; [reflexivity|].
    split; [intros x [] | exact Hiff].
  - cbn [List.length Nat.eqb].
    destruct (processAll_exact now (e :: l) 0 w)
      as (w' & Hrun & _ & _ & Hf & _ & _ & Hdone).
    rewrite Hrun. cbn [fst snd]. fold done in Hf, Hdone.
    split; [reflexivity|]. split; [exact Hf|]. split; [|exact Hiff].
    intros x Hin. apply Hdone; [exact Hin|]. apply Hstored.
    unfold done in Hin. apply filter_In in Hin. tauto.
Qed.

End MatcherAbort.

Lemma sweep_counts_what_it_finalizes_witness :
  Event.findUnprocessed 10 Sample2.worldSweep = [Sample2.eventPrice; Sample2.eventLater]
  /\ (exists err,
        fst (CampaignService.processEvent (R := Sample.runtime)
               (C := Sample.collaborators) 5000 Sample2.eventPrice Sample2.worldSweep)
        = Throw err)
  /\ fst (CampaignService.processUnprocessedEvents (R := Sample.runtime)
            (C := Sample.collaborators) 5000 10 Sample2.worldSweep) = Ok 1
  /\ finalized (snd (CampaignService.processUnprocessedEvents (R := Sample.runtime)
                       (C := Sample.collaborators) 5000 10 Sample2.worldSweep))
     = ["64b0000000000000000000e2"]
  /\ map EventDoc.processed
       (events (snd (CampaignService.processUnprocessedEvents (R := Sample.runtime)
                       (C := Sample.collaborators) 5000 10 Sample2.worldSweep)))
     = [true; false].
Proof.
  split; [reflexivity|]. split; [eexists; reflexivity|].
  pose proof (@sweep_counts_what_it_finalizes Sample.runtime Sample.collaborators
                5000 10 Sample2.worldSweep) as H.
  cbv zeta in H. destruct H as (Hcount & Hfin & _).
  split; [exact Hcount|]. split; [exact Hfin|]. reflexivity.
Defined.

Lemma condition_error_aborts_run_witness :
  exists err,
    fst (CampaignService.processEvent (R := Sample.runtime) (C := Sample.collaborators)
           5000 Sample2.eventPrice Sample2.worldNull) = Throw err
    /\ finalized (snd (CampaignService.processEvent (R := Sample.runtime)
                         (C := Sample.collaborators)
                         5000 Sample2.eventPrice Sample2.worldNull)) = []
    /\ map EventDoc.processed
         (events (snd (CampaignService.processEvent (R := Sample.runtime)
                         (C := Sample.collaborators)
                         5000 Sample2.eventPrice Sample2.worldNull)))
       = [false].
Proof.
  exists (TypeError "Cannot read properties of null (reading 'exists')").
  destruct (@condition_error_aborts_run Sample.runtime Sample.collaborators
              5000 Sample2.eventPrice Sample2.worldNull Sample.user
              (TypeError "Cannot read properties of null (reading 'exists')")
              eq_refl eq_refl) as (Hr & Hf & Hp).
  split; [exact Hr|]. split; [exact Hf|]. exact Hp.
Defined.

(** *** Which candidates are triggered *)

Lemma getProp_setTriggered (l : list EventDoc.triggered) (e : EventDoc.t) (part : string) :
  part <> "triggeredCampaigns" ->
  getProp (EventDoc.asValue (EventDoc.setTriggeredCampaigns l e)) part
  = getProp (EventDoc.asValue e) part.
Proof.
  intros Hne. unfold EventDoc.asValue, getProp.
  cbn [app Js.lookup EventDoc.setTriggeredCampaigns EventDoc._id EventDoc.userId
       EventDoc.eventType EventDoc.timestamp EventDoc.metadata EventDoc.processed
       EventDoc.triggeredCampaigns EventDoc.otherPaths].
  repeat match goal with
         | |- context [String.eqb ?k part] =>
             destruct (String.eqb k part) eqn:?; [try reflexivity|]
         end.
  - match goal with H : String.eqb _ part = true |- _ => apply String.eqb_eq in H end.
    congruence.
  - reflexivity.
Qed.

Lemma descend_setTriggered (l : list EventDoc.triggered) (e : EventDoc.t) (key : string) :
  firstPart key <> "triggeredCampaigns" ->
  Campaign.descend (split "." key) (EventDoc.asValue (EventDoc.setTriggeredCampaigns l e))
  = Campaign.descend (split "." key) (EventDoc.asValue e).
Proof.
  unfold firstPart. pose proof (split_not_nil "." key) as Hnil.
  destruct (split "." key) as [|part rest]; [congruence|].
  cbn [hd Campaign.descend]. intros Hne.
  now rewrite getProp_setTriggered.
Qed.

Section Selection.
Context {R : Runtime}.

Lemma checkEntries_setTriggered (l : list EventDoc.triggered) (e : EventDoc.t)
  (entries : list (string * value)) :
  existsb (fun entry => String.eqb (firstPart (fst entry)) "triggeredCampaigns") entries
  = false ->
  Campaign.checkEntries entries (EventDoc.asValue (EventDoc.setTriggeredCampaigns l e))
  = Campaign.checkEntries entries (EventDoc.asValue e).
Proof.
  induction entries as [|[key v] entries IH]; [reflexivity|].
  cbn [existsb fst]. intros H. apply orb_false_iff in H. destruct H as [Hk Hrest].
  apply String.eqb_neq in Hk.
  cbn [Campaign.checkEntries]. unfold Campaign.checkEntry.
  rewrite descend_setTriggered by exact Hk. now rewrite IH.
Qed.

Lemma matchesConditions_setTriggered (l : list EventDoc.triggered) (e : EventDoc.t)
  (c : CampaignDoc.t) :
  readsTriggered c = false ->
  Campaign.matchesConditions c (EventDoc.setTriggeredCampaigns l e)
  = Campaign.matchesConditions c e.
Proof.
  intros H. unfold Campaign.matchesConditions.
  destruct (Nat.eqb _ 0); [reflexivity|]. now apply checkEntries_setTriggered.
Qed.

Lemma evaluateAll_selects (now : Z) (cs : list CampaignDoc.t) (event : EventDoc.t)
  (l : list EventDoc.triggered) (triggered triggered' : list CampaignDoc.t)
  (ev' : EventDoc.t) :
  forallb (fun c => negb (readsTriggered c)) cs = true ->
  evaluateAll now cs (EventDoc.setTriggeredCampaigns l event, triggered)
  = Ok (ev', triggered') ->
  triggered' = (triggered ++ filter (passes now event) cs)%list.
Proof.
  revert l triggered. induction cs as [|c cs IH]; intros l triggered Hno.
  - cbn. intros H. injection H as _ <-. now rewrite app_nil_r.
  - cbn [forallb] in Hno. apply andb_true_iff in Hno. destruct Hno as [Hc Hcs].
    apply negb_true_iff in Hc.
    cbn [evaluateAll filter]. unfold evaluate, passes.
    rewrite matchesConditions_setTriggered by exact Hc.
    cbn [EventDoc.userId EventDoc.setTriggeredCampaigns].
    destruct (Campaign.isDateActive now c); cbn [negb andb]; [|now apply IH].
    destruct (Campaign.shouldSendToUser c (EventDoc.userId event)); cbn [negb andb];
      [|now apply IH].
    destruct (Campaign.matchesConditions c event) as [[|]|err];
      [|now apply IH|discriminate].
    unfold Event.pushTriggered. cbn [EventDoc.setTriggeredCampaigns EventDoc.timestamp
      EventDoc.triggeredCampaigns].
    match goal with
    | |- evaluateAll now cs (?e, _) = _ -> _ =>
        change e with (EventDoc.setTriggeredCampaigns
                         (l ++ [{| EventDoc.campaignId := CampaignDoc._id c;
                                   EventDoc.processedAt := now;
                                   EventDoc.status := EventDoc.scheduled;
                                   EventDoc.scheduledFor :=
                                     (EventDoc.timestamp event
                                      + CampaignDoc.delay c * 1000)%Z |}])%list event)
    end.
    intros H. apply IH in H; [|exact Hcs]. rewrite H. now rewrite <- app_assoc.
Qed.

End Selection.

Lemma readsStable_not_triggered (c : CampaignDoc.t) :
  readsStable c = true -> negb (readsTriggered c) = true.
Proof.
  unfold readsStable, readsTriggered. intros H. apply negb_true_iff.
  induction (CampaignDoc.conditions c) as [|entry l IH]; [reflexivity|].
  cbn [forallb existsb] in *. apply andb_prop in H. destruct H as [Hs Hl].
  rewrite (IH Hl), orb_false_r.
  destruct (String.eqb (firstPart (fst entry)) "triggeredCampaigns") eqn:E; [|reflexivity].
  apply String.eqb_eq in E. rewrite E in Hs. discriminate Hs.
Qed.

(** [processEvent]: when every condition of every candidate starts at a
    path of the Event schema that the run does not change ([_id],
    [userId], [eventType], [timestamp], [metadata], [processed],
    [source], [sessionId], [ip], [userAgent]), a run that resolves
    returns exactly the candidates (active campaigns with the trigger
    event of the event) that are inside their date window, admit the
    user of the event and whose conditions the event matches, in the
    order of the query. *)
Theorem matcher_selects_passing_candidates {R : Runtime} {C : Collaborators}
  (now : Z) (event : EventDoc.t) (w : world) (user : UserDoc.t)
  (triggered : list CampaignDoc.t) :
  findBy UserDoc._id (EventDoc.userId event) (users w) = Some user ->
  forallb readsStable
    (CampaignService.findCandidates (EventDoc.eventType event) w) = true ->
  fst (CampaignService.processEvent now event w) = Ok triggered ->
  triggered
  = filter (passes now event) (CampaignService.findCandidates (EventDoc.eventType event) w).
Proof.
  intros Hu Hstable Hrun.
  assert (Hno : forallb (fun c => negb (readsTriggered c))
                  (CampaignService.findCandidates (EventDoc.eventType event) w) = true).
  { rewrite forallb_forall in *. intros c Hc.
    now apply readsStable_not_triggered, Hstable. }
  rewrite (processEvent_result now event w Hu) in Hrun.
  destruct (evaluateAll now _ (event, [])) as [[ev' triggered']|err] eqn:Hev;
    [|discriminate].
  injection Hrun as <-.
  assert (He : event = EventDoc.setTriggeredCampaigns (EventDoc.triggeredCampaigns event)
                         event) by now destruct event.
  rewrite He in Hev at 2.
  apply evaluateAll_selects in Hev; [|exact Hno]. exact Hev.
Qed.

Lemma matcher_selects_passing_candidates_witness :
  fst (CampaignService.processEvent (R := Sample.runtime) (C := Sample.collaborators)
         5000 Sample2.eventPrice Sample2.worldFour)
  = Ok [Sample.campaign; Sample2.campaignPrice; Sample2.campaignAudience]
  /\ [Sample.campaign; Sample2.campaignPrice; Sample2.campaignAudience]
     = filter (passes (R := Sample.runtime) 5000 Sample2.eventPrice)
         (CampaignService.findCandidates (EventDoc.eventType Sample2.eventPrice)
            Sample2.worldFour).
Proof.
  assert (Hrun : fst (CampaignService.processEvent (R := Sample.runtime)
                        (C := Sample.collaborators) 5000 Sample2.eventPrice
                        Sample2.worldFour)
                 = Ok [Sample.campaign; Sample2.campaignPrice; Sample2.campaignAudience])
    by (vm_compute; reflexivity).
  split; [exact Hrun|].
  apply (@matcher_selects_passing_candidates Sample.runtime Sample.collaborators
           5000 Sample2.eventPrice Sample2.worldFour Sample.user _ eq_refl eq_refl Hrun).
Defined.

(** A condition on a path that the run changes makes the selection
    depend on the order of the candidates: a condition on
    [triggeredCampaigns.0.status] holds once a candidate before it has
    been triggered in the same run. *)
Example chained_condition_sees_earlier_push :
  evaluateAll (R := Sample.runtime) 5000 [Sample2.campaignChained] (Sample.event, [])
  = Ok (Sample.event, [])
  /\ option_map snd
       (match evaluateAll (R := Sample.runtime) 5000
                [Sample.campaign; Sample2.campaignChained] (Sample.event, []) with
        | Ok r => Some r
        | Throw _ => None
        end)
     = Some [Sample.campaign; Sample2.campaignChained].
Proof. split; vm_compute; reflexivity. Qed.

(** ** Decimal indices *)

Lemma size_nat_gt (n : N) : (n < 2 ^ N.of_nat (N.size_nat n))%N.
Proof.
  destruct n as [|p]; [reflexivity|]. cbn [N.size_nat].
  induction p as [p IH|p IH|]; cbn [Pos.size_nat];
    rewrite ?Nat2N.inj_succ, ?N.pow_succ_r'; lia.
Qed.

Lemma digitChar_decimal (d : N) :
  (d < 10)%N -> isDigit (digitChar d) = true /\ digitVal (digitChar d) = Z.of_N d.
Proof.
  intros H.
  assert (Hall : forallb (fun k => isDigit (digitChar (N.of_nat k))
                                   && (digitVal (digitChar (N.of_nat k)) =? Z.of_nat k)%Z)
                   (seq 0 10) = true) by reflexivity.
  rewrite forallb_forall in Hall.
  specialize (Hall (N.to_nat d)). rewrite N2Nat.id in Hall.
  destruct (andb_prop _ _ (Hall ltac:(apply in_seq; lia))) as [H1 H2].
  split; [exact H1|]. apply Z.eqb_eq in H2. lia.
Qed.

Lemma readDigits_digitsAux (fuel : nat) (n : N) (acc : string) :
  (n < 2 ^ N.of_nat fuel)%N ->
  readDigits (digitsAux fuel 10 n acc) 0 = readDigits acc (Z.of_N n).
Proof.
  revert n acc. induction fuel as [|fuel IH]; intros n acc Hn.
  - cbn in Hn. assert (n = 0%N) by lia. subst n. reflexivity.
  - cbn [digitsAux].
    destruct (digitChar_decimal (d := (n mod 10)%N)) as [Hd Hv];
      [apply N.mod_lt; discriminate|].
    pose proof (N.div_mod n 10 ltac:(discriminate)) as Hdm.
    destruct (n / 10 =? 0)%N eqn:E.
    + apply N.eqb_eq in E. cbn [readDigits]. rewrite Hd, Hv. f_equal. lia.
    + apply N.eqb_neq in E. rewrite IH.
      * cbn [readDigits]. rewrite Hd, Hv. f_equal. lia.
      * rewrite Nat2N.inj_succ, N.pow_succ_r' in Hn.
        apply N.Div0.div_lt_upper_bound. lia.
Qed.

Lemma digitsAux_decimal (fuel : nat) (n : N) (acc : string) :
  allChars isDigit acc = true -> allChars isDigit (digitsAux fuel 10 n acc) = true.
Proof.
  revert n acc. induction fuel as [|fuel IH]; intros n acc Hacc; [exact Hacc|].
  cbn [digitsAux].
  destruct (digitChar_decimal (d := (n mod 10)%N)) as [Hd _];
    [apply N.mod_lt; discriminate|].
  assert (Hacc' : allChars isDigit (String (digitChar (n mod 10)) acc) = true)
    by (cbn [allChars]; now rewrite Hd).
  destruct (n / 10 =? 0)%N; [exact Hacc' | now apply IH].
Qed.

Lemma digitsAux_not_empty (fuel : nat) (radix n : N) (c : ascii) (acc : string) :
  exists d s, digitsAux fuel radix n (String c acc) = String d s.
Proof.
  revert n c acc. induction fuel as [|fuel IH]; intros n c acc; [cbn; eauto|].
  cbn [digitsAux]. destruct (n / radix =? 0)%N; [eauto | apply IH].
Qed.

Lemma digits_not_empty (radix n : N) : exists d s, digits radix n = String d s.
Proof.
  unfold digits. cbn [digitsAux]. destruct (n / radix =? 0)%N; [eauto|].
  apply digitsAux_not_empty.
Qed.

Lemma readDigits_digits (n : N) : readDigits (digits 10 n) 0 = Z.of_N n.
Proof.
  unfold digits. rewrite readDigits_digitsAux; [reflexivity|].
  rewrite Nat2N.inj_succ, N.pow_succ_r'. pose proof (size_nat_gt n). lia.
Qed.

Lemma numToString_of_nat (i : nat) : numToString (Z.of_nat i) = digits 10 (N.of_nat i).
Proof.
  unfold numToString, toStringRadix.
  destruct (Z.of_nat i <? 0)%Z eqn:E; [apply Z.ltb_lt in E; lia|].
  f_equal. lia.
Qed.

(** The decimal rendering of an index is the key of that index. *)
Lemma arrayIndex_numToString (i : nat) : arrayIndex (numToString (Z.of_nat i)) = Some i.
Proof.
  rewrite numToString_of_nat.
  assert (Hall : allChars isDigit (digits 10 (N.of_nat i)) = true)
    by (unfold digits; now apply digitsAux_decimal).
  assert (Hback : numToString (readDigits (digits 10 (N.of_nat i)) 0)
                  = digits 10 (N.of_nat i)).
  { rewrite readDigits_digits.
    replace (Z.of_N (N.of_nat i)) with (Z.of_nat i) by lia.
    apply numToString_of_nat. }
  assert (Hval : Z.to_nat (readDigits (digits 10 (N.of_nat i)) 0) = i)
    by (rewrite readDigits_digits; lia).
  destruct (digits_not_empty 10 (N.of_nat i)) as (d & s & Hds).
  revert Hall Hback Hval. generalize (digits 10 (N.of_nat i)) Hds.
  intros key -> Hall Hback Hval. unfold arrayIndex.
  now rewrite Hall, Hback, String.eqb_refl, Hval.
Qed.

(** ** The tracking collector, further *)

Lemma findOneByTrackingId_updateBy (tid : string) (l : list EmailDoc.t) (e : EmailDoc.t)
  (f : EmailDoc.t -> EmailDoc.t) :
  (forall x, EmailDoc.trackingId (f x) = EmailDoc.trackingId x) ->
  Email.findOneByTrackingId tid l = Some e ->
  findBy EmailDoc._id (EmailDoc._id e) l = Some e ->
  Email.findOneByTrackingId tid (updateBy EmailDoc._id (EmailDoc._id e) f l) = Some (f e).
Proof.
  intros Hf. induction l as [|x l IH];
    cbn [Email.findOneByTrackingId findBy updateBy]; [discriminate|].
  destruct (Email.sameTracking (EmailDoc.trackingId x) (Some tid)) eqn:E.
  - intros H _. injection H as <-. rewrite String.eqb_refl.
    cbn [Email.findOneByTrackingId]. now rewrite Hf, E.
  - intros H1 H2. destruct (String.eqb (EmailDoc._id x) (EmailDoc._id e)) eqn:Eid.
    + injection H2 as ->.
      apply findOneByTrackingId_sound in H1. destruct H1 as [_ Ht].
      unfold Email.sameTracking in E. rewrite Ht, String.eqb_refl in E. discriminate.
    + cbn [Email.findOneByTrackingId]. rewrite E. now apply IH.
Qed.

(** [trackEmailOpen]: the first open hit on a delivery that is stored
    and not [opened] adds one to [analytics.opened] of its campaign; an
    open hit that follows it, at any time, changes nothing and resolves
    to the document as the first hit left it, [openedAt] included. *)
Theorem open_hit_counted_once (now now' : Z) (tid : string) (w : world) (e : EmailDoc.t) :
  Email.findOneByTrackingId tid (emails w) = Some e ->
  findBy EmailDoc._id (EmailDoc._id e) (emails w) = Some e ->
  EmailDoc.state e <> EmailDoc.opened ->
  let w1 := snd (CampaignService.trackEmailOpen now tid w) in
  option_map openedOf (findBy CampaignDoc._id (EmailDoc.campaignId e) (campaigns w1))
  = option_map (fun c => openedOf c + 1)%Z
      (findBy CampaignDoc._id (EmailDoc.campaignId e) (campaigns w))
  /\ CampaignService.trackEmailOpen now' tid w1
     = (Ok (Some (EmailDoc.apply (Email.statusPatch now EmailDoc.opened) e)), w1).
Proof.
  intros Hfind Hstored Hst w1. subst w1.
  rewrite (trackEmailOpen_not_opened now tid w Hfind Hstored Hst). cbn [snd].
  split.
  - cbn [campaigns setCampaigns]. rewrite findBy_updateBy_same by reflexivity.
    now destruct (findBy CampaignDoc._id (EmailDoc.campaignId e) (campaigns w)).
  - apply trackEmailOpen_opened; [|reflexivity].
    cbn [emails setCampaigns setEmails].
    now apply findOneByTrackingId_updateBy.
Qed.

Lemma open_hit_counted_once_witness :
  option_map openedOf
    (findBy CampaignDoc._id "64b0000000000000000000c1"
       (campaigns (snd (CampaignService.trackEmailOpen 7000 Sample.deliveryTrackingId
                          (Sample.worldWith EmailDoc.sent)))))
  = Some 1%Z
  /\ CampaignService.trackEmailOpen 9000 Sample.deliveryTrackingId
       (snd (CampaignService.trackEmailOpen 7000 Sample.deliveryTrackingId
               (Sample.worldWith EmailDoc.sent)))
     = (Ok (Some (EmailDoc.apply (Email.statusPatch 7000 EmailDoc.opened)
                    (Sample.delivery EmailDoc.sent))),
        snd (CampaignService.trackEmailOpen 7000 Sample.deliveryTrackingId
               (Sample.worldWith EmailDoc.sent))).
Proof.
  apply (@open_hit_counted_once 7000 9000 Sample.deliveryTrackingId
           (Sample.worldWith EmailDoc.sent) (Sample.delivery EmailDoc.sent)
           eq_refl eq_refl).
  discriminate.
Defined.

(** [trackEmailClick]: a click hit whose index, read as a number, is
    the position of no link of a delivery that is not [clicked] leaves
    the delivery as it is and adds one to [analytics.clicked] of its
    campaign; as the delivery does not change, every such hit counts
    again.  What it resolves to depends on the index read as a property
    key of the array of links: no URL when the key names a truthy
    member of the array (a method, the length of a non-empty array),
    the default destination otherwise. *)
Theorem click_without_link_counts {R : Runtime} (now : Z) (tid idx : string)
  (w : world) (e : EmailDoc.t) :
  Email.findOneByTrackingId tid (emails w) = Some e ->
  Email.linkAt e (parseInt10 idx) = None ->
  EmailDoc.state e <> EmailDoc.clicked ->
  CampaignService.trackEmailClick now tid idx w
  = (Ok {| CampaignService.url :=
             match CampaignService.linkByKey e idx with
             | CampaignService.Member => None
             | _ => Some "/"
             end;
           CampaignService.email := Some e |},
     setCampaigns
       (updateBy CampaignDoc._id (EmailDoc.campaignId e)
          (fun c => CampaignDoc.setAnalytics
                      (CampaignDoc.incClicked (CampaignDoc.analytics c)) c)
          (campaigns w)) w)
  /\ forall l, CampaignService.linkByKey e idx <> CampaignService.Element l.
Proof.
  intros Hfind Hlink Hst.
  assert (Hk : forall l, CampaignService.linkByKey e idx <> CampaignService.Element l).
  { intros l Hl. apply linkByKey_linkAt in Hl. congruence. }
  split; [|exact Hk].
  unfold CampaignService.trackEmailClick, tryCatch, bind, get.
  rewrite Hfind. unfold Email.trackClick. rewrite Hlink.
  assert (Hs : EmailDoc.status_eqb (EmailDoc.state e) EmailDoc.clicked = false)
    by (destruct (EmailDoc.state e); try reflexivity; congruence).
  destruct (CampaignService.linkByKey e idx) as [l| |] eqn:Hl;
    [now destruct (Hk l) | |];
    destruct (parseInt10 idx); cbn; rewrite Hs, Hl; reflexivity.
Qed.

Lemma click_without_link_counts_witness :
  fst (CampaignService.trackEmailClick (R := Sample.runtime) 7000
         Sample.deliveryTrackingId "7" (Sample.worldWith EmailDoc.sent))
  = Ok {| CampaignService.url := Some "/";
          CampaignService.email := Some (Sample.delivery EmailDoc.sent) |}
  /\ CampaignService.trackEmailClick (R := Sample.runtime) 7000
       Sample.deliveryTrackingId "push" (Sample.worldWith EmailDoc.sent)
     = (Ok {| CampaignService.url := None;
              CampaignService.email := Some (Sample.delivery EmailDoc.sent) |},
        setCampaigns
          (updateBy CampaignDoc._id "64b0000000000000000000c1"
             (fun c => CampaignDoc.setAnalytics
                         (CampaignDoc.incClicked (CampaignDoc.analytics c)) c)
             (campaigns (Sample.worldWith EmailDoc.sent)))
          (Sample.worldWith EmailDoc.sent)).
Proof.
  split.
  - destruct (@click_without_link_counts Sample.runtime 7000 Sample.deliveryTrackingId
               "7" (Sample.worldWith EmailDoc.sent) (Sample.delivery EmailDoc.sent)
               eq_refl eq_refl) as [H _]; [discriminate|].
    now rewrite H.
  - destruct (@click_without_link_counts Sample.runtime 7000 Sample.deliveryTrackingId
               "push" (Sample.worldWith EmailDoc.sent) (Sample.delivery EmailDoc.sent)
               eq_refl eq_refl) as [H _]; [discriminate|].
    exact H.
Defined.

(** The click endpoint, end to end: for a stored delivery, the request
    for the index [i] written in decimal, as [addTracking] writes it in
    the tracking URL of the link [i], is answered with a redirect to the
    original URL of that link. *)
Theorem click_url_redirects_to_original {R : Runtime} (now : Z) (tid : string) (i : nat)
  (w : world) (e : EmailDoc.t) (l : EmailDoc.link) :
  Email.findOneByTrackingId tid (emails w) = Some e ->
  nth_error (EmailDoc.links e) i = Some l ->
  EmailDoc.original l <> EmptyString ->
  fst (TrackingController.trackEmailClick now tid (numToString (Z.of_nat i)) w)
  = Ok (TrackingController.Redirect (EmailDoc.original l)).
Proof.
  intros Hfind Hnth Hne.
  pose proof (arrayIndex_numToString i) as Hidx.
  assert (Hkey : CampaignService.linkByKey e (numToString (Z.of_nat i))
                 = CampaignService.Element l).
  { unfold CampaignService.linkByKey. now rewrite Hidx, Hnth. }
  destruct (trackEmailClick_element now tid _ w Hfind Hkey) as (r & Hr & Hu).
  unfold TrackingController.trackEmailClick.
  exact (clickHandler_resolved _ _ Hr Hu Hne).
Qed.

Lemma click_url_redirects_to_original_witness :
  fst (TrackingController.trackEmailClick (R := Sample.runtime) 7000
         Sample.deliveryTrackingId
         (numToString (Z.of_nat 0)) (Sample.worldWith EmailDoc.sent))
  = Ok (TrackingController.Redirect "https://x.test").
Proof.
  apply (@click_url_redirects_to_original Sample.runtime 7000 Sample.deliveryTrackingId 0
           (Sample.worldWith EmailDoc.sent) (Sample.delivery EmailDoc.sent)
           (EmailService.newLink "https://x.test" "https://mail.example/track/click/t/0")
           eq_refl eq_refl).
  discriminate.
Defined.

(** ** The instrumentation, further *)

Lemma trackLinks_registry (fuel : nat) (base tid rest html : string)
  (links : list EmailDoc.link) (index : nat) :
  index = List.length links ->
  (forall i l, nth_error links i = Some l ->
               EmailDoc.tracking l = EmailService.clickUrl base tid i
               /\ EmailService.toTrack (EmailDoc.original l) = true) ->
  forall i l,
    nth_error (snd (EmailService.trackLinks fuel base tid rest html links index)) i
    = Some l ->
    EmailDoc.tracking l = EmailService.clickUrl base tid i
    /\ EmailService.toTrack (EmailDoc.original l) = true.
Proof.
  revert rest html links index.
  induction fuel as [|fuel IH]; intros rest html links index Hidx Hinv;
    cbn [EmailService.trackLinks]; [exact Hinv|].
  destruct (EmailService.exec rest) as [[url rest']|]; [|exact Hinv].
  destruct (EmailService.toTrack url) eqn:Hurl; [|now apply IH].
  apply IH.
  - rewrite length_app. cbn [List.length]. lia.
  - intros i l Hnth.
    destruct (Nat.lt_ge_cases i (List.length links)) as [Hlt|Hge].
    + rewrite nth_error_app1 in Hnth by exact Hlt. now apply Hinv.
    + rewrite nth_error_app2 in Hnth by exact Hge.
      destruct (i - List.length links) as [|k] eqn:Hk.
      * cbn in Hnth. injection Hnth as <-. cbn.
        split; [|exact Hurl]. f_equal. lia.
      * destruct k; discriminate.
Qed.

(** [addTracking]: in the registry it returns, the entry at the index
    [i] carries the tracking URL that ends in [i], and its original URL
    is one the loop tracks: not empty, no fragment, no [mailto:]. *)
Theorem registry_is_indexed_by_position (html tid base : string) (i : nat)
  (l : EmailDoc.link) :
  nth_error (snd (EmailService.addTracking html tid base)) i = Some l ->
  EmailDoc.tracking l = EmailService.clickUrl base tid i
  /\ EmailService.toTrack (EmailDoc.original l) = true.
Proof.
  unfold EmailService.addTracking. apply trackLinks_registry; [reflexivity|].
  intros j x H. destruct j; discriminate.
Qed.

Lemma registry_is_indexed_by_position_witness :
  EmailDoc.tracking
    (EmailService.newLink "https://x.test" "https://mail.example/track/click/t1/1")
  = EmailService.clickUrl "https://mail.example" "t1" 1
  /\ EmailService.toTrack
       (EmailDoc.original
          (EmailService.newLink "https://x.test" "https://mail.example/track/click/t1/1"))
     = true.
Proof.
  apply (@registry_is_indexed_by_position Sample.twoAnchors "t1" "https://mail.example" 1).
  vm_compute. reflexivity.
Defined.

Lemma trackLinks_grows (fuel : nat) (base tid rest html : string)
  (links : list EmailDoc.link) (index : nat) :
  exists news,
    snd (EmailService.trackLinks fuel base tid rest html links index)
    = (links ++ news)%list
    /\ (news = [] ->
        fst (EmailService.trackLinks fuel base tid rest html links index) = html).
Proof.
  revert rest html links index.
  induction fuel as [|fuel IH]; intros rest html links index;
    cbn [EmailService.trackLinks].
  - exists []. now rewrite app_nil_r.
  - destruct (EmailService.exec rest) as [[url rest']|];
      [|exists []; now rewrite app_nil_r].
    destruct (EmailService.toTrack url); [|apply IH].
    match goal with
    | |- context [EmailService.trackLinks fuel base tid rest' ?h ?ls ?ix] =>
        destruct (IH rest' h ls ix) as (news & Hs & _)
    end.
    eexists. rewrite Hs, <- app_assoc. split; [reflexivity|].
    cbn. discriminate.
Qed.

(** [addTracking]: the body is rewritten only where a link is
    registered; when the registry comes back empty (no anchor, or only
    anchors to fragments and mailboxes), the body is the input followed
    by the pixel. *)
Theorem body_without_links_only_gains_pixel (html tid base : string) :
  snd (EmailService.addTracking html tid base) = [] ->
  fst (EmailService.addTracking html tid base)
  = html ++ EmailService.trackingPixel base tid.
Proof.
  unfold EmailService.addTracking.
  match goal with
  | |- context [EmailService.trackLinks ?f base tid html ?h [] 0] =>
      destruct (trackLinks_grows f base tid html h [] 0) as (news & Hs & Hb)
  end.
  rewrite Hs. cbn [app]. intros Hn. now apply Hb.
Qed.

Lemma body_without_links_only_gains_pixel_witness :
  snd (EmailService.addTracking Sample2.mailtoBody "t1" "https://mail.example") = []
  /\ fst (EmailService.addTracking Sample2.mailtoBody "t1" "https://mail.example")
     = Sample2.mailtoBody ++ EmailService.trackingPixel "https://mail.example" "t1".
Proof.
  assert (H : snd (EmailService.addTracking Sample2.mailtoBody "t1" "https://mail.example")
              = []) by (vm_compute; reflexivity).
  split; [exact H|].
  apply (@body_without_links_only_gains_pixel Sample2.mailtoBody "t1"
           "https://mail.example" H).
Defined.

(** *** Anchors in single quotes *)

Lemma notSquote_eqb (c : ascii) : notSquote c = true -> Ascii.eqb c squote = false.
Proof. unfold notSquote. intros H. now apply negb_true_iff in H. Qed.

Lemma lazyDotsThenQuote_single (u rest : string) :
  allChars notSquote u = true -> allChars notSpace u = true ->
  EmailService.lazyDotsThenQuote squote (u ++ String squote rest) = Some (u, rest).
Proof.
  induction u as [|c u IH]; intros Hq Hs.
  - cbn [append EmailService.lazyDotsThenQuote]. now rewrite Ascii.eqb_refl.
  - cbn [allChars] in Hq, Hs.
    apply andb_prop in Hq as [Hc Hq]. apply andb_prop in Hs as [Hc' Hs].
    cbn [append EmailService.lazyDotsThenQuote].
    rewrite (notSquote_eqb _ Hc), (notSpace_lineTerminator _ Hc'), IH by assumption.
    reflexivity.
Qed.

Lemma exec_anchor_single (u r : string) :
  allChars notSquote u = true -> allChars notSpace u = true ->
  EmailService.exec (anchorTagSingle u ++ r) = Some (u, String ">" r).
Proof.
  intros Hq Hs. unfold anchorTagSingle. norm_append.
  cbn [EmailService.exec EmailService.matchHere].
  replace (chr "<" 60 && eqLetterCI "a" "a") with true by reflexivity.
  cbn [EmailService.spaces1].
  replace (isSpace " ") with true by reflexivity.
  replace (isSpace "h") with false by reflexivity. cbv iota.
  unfold EmailService.optGroupThenHref.
  assert (Hx : allChars notSpace ("href=" ++ String squote u ++ String squote EmptyString)
               = true).
  { cbn [append allChars]. rewrite allChars_app, Hs. reflexivity. }
  pose proof (lazyNotGt_none EmailService.hrefAttr _ r Hx) as Hn.
  repeat first [rewrite append_assoc in Hn | progress cbn [append] in Hn].
  rewrite Hn.
  unfold EmailService.hrefAttr.
  replace (startsWithCI _ "href=") with true by reflexivity.
  cbn [drop].
  replace (EmailService.isQuote squote) with true by reflexivity.
  rewrite lazyDotsThenQuote_single by assumption. reflexivity.
Qed.

(** [addTracking]: an anchor whose [href] is in single quotes is
    matched and registered, with a tracking URL, but the text the loop
    then replaces is the [href] in double quotes: when the body holds
    none for that URL the anchor is left as it is, so the registered
    tracking URL is in no message. *)
Theorem single_quoted_anchor_is_not_rewritten (base tid pre u post : string) :
  let html := pre ++ anchorTagSingle u ++ post in
  allChars notLt pre = true ->
  allChars notSquote u = true ->
  allChars notSpace u = true ->
  EmailService.toTrack u = true ->
  EmailService.exec post = None ->
  indexOf (html ++ EmailService.trackingPixel base tid) (EmailService.hrefOf u) = None ->
  EmailService.addTracking html tid base
  = (html ++ EmailService.trackingPixel base tid,
     [EmailService.newLink u (EmailService.clickUrl base tid 0)]).
Proof.
  intros html Hpre Hq Hs Htrack Hpost Hnone.
  rewrite (addTracking_fuel (fuel := S (S (String.length html)))) by lia.
  cbn [EmailService.trackLinks]. unfold html at 1.
  rewrite exec_skip by exact Hpre.
  rewrite exec_anchor_single by assumption.
  rewrite Htrack. cbn [EmailService.trackLinks].
  change (String ">" post) with (">" ++ post).
  rewrite (exec_skip ">" post) by reflexivity. rewrite Hpost.
  unfold replace. fold html. rewrite Hnone. reflexivity.
Qed.

Lemma single_quoted_anchor_is_not_rewritten_witness :
  EmailService.addTracking Sample2.singleQuoted "t1" "https://mail.example"
  = (Sample2.singleQuoted ++ EmailService.trackingPixel "https://mail.example" "t1",
     [EmailService.newLink "https://x.test"
        (EmailService.clickUrl "https://mail.example" "t1" 0)]).
Proof.
  apply (@single_quoted_anchor_is_not_rewritten "https://mail.example" "t1"
           "See " "https://x.test" "the shop");
    vm_compute; reflexivity.
Defined.

(** ** The Template model *)

Lemma trimEnd_idempotent (s : string) : trimEnd (trimEnd s) = trimEnd s.
Proof.
  induction s as [|c s IH]; [reflexivity|].
  cbn [trimEnd]. destruct (trimEnd s) as [|d t] eqn:E.
  - destruct (isSpace c) eqn:Ec; [reflexivity|]. cbn [trimEnd]. now rewrite Ec.
  - cbn [trimEnd]. cbn [trimEnd] in IH. now rewrite IH.
Qed.

Lemma trimStart_head (s : string) :
  match trimStart s with
  | String c _ => isSpace c = false
  | EmptyString => True
  end.
Proof.
  induction s as [|c s IH]; cbn [trimStart]; [exact I|].
  destruct (isSpace c) eqn:E; [exact IH | exact E].
Qed.

Lemma trimStart_trimEnd (s : string) :
  match s with String c _ => isSpace c = false | EmptyString => True end ->
  trimStart (trimEnd s) = trimEnd s.
Proof.
  destruct s as [|c s]; [reflexivity|]. intros Hc.
  cbn [trimEnd]. destruct (trimEnd s); rewrite ?Hc; cbn [trimStart]; now rewrite Hc.
Qed.

Lemma trim_idempotent (s : string) : trim (trim s) = trim s.
Proof.
  unfold trim. rewrite trimStart_trimEnd by apply trimStart_head.
  apply trimEnd_idempotent.
Qed.

Lemma allChars_trimStart (f : ascii -> bool) (s : string) :
  allChars f s = true -> allChars f (trimStart s) = true.
Proof.
  induction s as [|c s IH]; cbn [trimStart]; [auto|].
  intros H. destruct (isSpace c); [|exact H].
  cbn [allChars] in H. apply andb_prop in H as [_ H]. now apply IH.
Qed.

Lemma allChars_trimEnd (f : ascii -> bool) (s : string) :
  allChars f s = true -> allChars f (trimEnd s) = true.
Proof.
  induction s as [|c s IH]; [auto|].
  cbn [allChars trimEnd]. intros H. apply andb_prop in H as [Hc Hs].
  specialize (IH Hs). destruct (trimEnd s).
  - destruct (isSpace c); [reflexivity|]. cbn [allChars]. now rewrite Hc.
  - cbn [allChars] in *. now rewrite Hc, IH.
Qed.

Lemma allChars_trim (f : ascii -> bool) (s : string) :
  allChars f s = true -> allChars f (trim s) = true.
Proof. intros H. unfold trim. now apply allChars_trimEnd, allChars_trimStart. Qed.

Lemma nameThenClose_group (s u rest : string) :
  Template.nameThenClose s = Some (u, rest) ->
  allChars notClose u = true /\ String.length rest < String.length s.
Proof.
  revert u rest. induction s as [|c s IH]; intros u rest;
    cbn [Template.nameThenClose]; [discriminate|].
  destruct (chr c 125) eqn:Ec; [discriminate|].
  destruct (Template.nameThenClose s) as [[u' rest']|].
  - intros H. injection H as <- <-. destruct (IH u' rest' eq_refl) as [Hu Hl].
    split; [cbn [allChars]; rewrite Hu; unfold notClose; now rewrite Ec|].
    cbn [String.length]. lia.
  - destruct (startsWith s "}}"); [|discriminate].
    intros H. injection H as <- <-. split.
    + cbn [allChars]. unfold notClose. now rewrite Ec.
    + pose proof (length_drop 2 s) as H. cbn [String.length]. apply Nat.lt_succ_r. exact H.
Qed.

Lemma template_exec_group (s u rest : string) :
  Template.exec s = Some (u, rest) ->
  allChars notClose u = true /\ String.length rest < String.length s.
Proof.
  induction s as [|c s IH]; cbn [Template.exec].
  - unfold Template.matchHere. cbn. discriminate.
  - destruct (Template.matchHere (String c s)) as [[u' rest']|] eqn:E.
    + intros H. injection H as <- <-. unfold Template.matchHere in E.
      destruct (startsWith (String c s) "{{"); [|discriminate].
      apply nameThenClose_group in E. destruct E as [Hu Hl].
      split; [exact Hu|]. pose proof (length_drop 2 (String c s)). lia.
    + intros H. destruct (IH H) as [Hu Hl]. split; [exact Hu|].
      cbn [String.length]. lia.
Qed.

(** Every fuel above the length of the text that is left gives the same
    result. *)
Lemma collect_fuel (fuel1 fuel2 : nat) (rest : string) (variables : list string) :
  String.length rest < fuel1 -> String.length rest < fuel2 ->
  Template.collect fuel1 rest variables = Template.collect fuel2 rest variables.
Proof.
  revert fuel2 rest variables.
  induction fuel1 as [|fuel1 IH]; intros fuel2 rest variables H1 H2; [lia|].
  destruct fuel2 as [|fuel2]; [lia|].
  cbn [Template.collect].
  destruct (Template.exec rest) as [[u rest']|] eqn:E; [|reflexivity].
  apply template_exec_group in E. destruct E as [_ Hl]. apply IH; lia.
Qed.

Lemma add_NoDup (x : string) (l : list string) : NoDup l -> NoDup (Template.add x l).
Proof.
  intros H. unfold Template.add.
  destruct (Campaign.includes l x) eqn:E; [exact H|].
  apply NoDup_app; [exact H | constructor; [intros [] | constructor] |].
  intros y Hy [<-|[]]. apply includes_In in Hy. congruence.
Qed.

Lemma add_Forall (P : string -> Prop) (x : string) (l : list string) :
  P x -> Forall P l -> Forall P (Template.add x l).
Proof.
  intros Hx Hl. unfold Template.add. destruct (Campaign.includes l x); [exact Hl|].
  apply Forall_app. split; [exact Hl | constructor; [exact Hx | constructor]].
Qed.

Lemma collect_names (fuel : nat) (rest : string) (variables : list string) :
  NoDup variables ->
  Forall (fun n => trim n = n /\ allChars notClose n = true) variables ->
  NoDup (Template.collect fuel rest variables)
  /\ Forall (fun n => trim n = n /\ allChars notClose n = true)
       (Template.collect fuel rest variables).
Proof.
  revert rest variables. induction fuel as [|fuel IH]; intros rest variables Hnd Hall;
    cbn [Template.collect]; [auto|].
  destruct (Template.exec rest) as [[u rest']|] eqn:E; [|auto].
  apply template_exec_group in E. destruct E as [Hu _].
  apply IH; [now apply add_NoDup|].
  apply add_Forall; [|exact Hall].
  split; [apply trim_idempotent | now apply allChars_trim].
Qed.

Lemma detectVariables_names (t : TemplateDoc.t) :
  NoDup (Template.detectVariables t)
  /\ Forall (fun n => trim n = n /\ allChars notClose n = true)
       (Template.detectVariables t).
Proof.
  unfold Template.detectVariables.
  apply collect_names; apply collect_names; constructor.
Qed.

(** [detectVariables]: the names it returns are pairwise different, are
    trimmed, and hold no closing brace; the fuel of its loops is never
    used up. *)
Theorem detected_names_are_distinct_and_trimmed (t : TemplateDoc.t) (fuel1 fuel2 : nat) :
  String.length (TemplateDoc.subject t) < fuel1 ->
  String.length (TemplateDoc.body t) < fuel2 ->
  Template.detectVariables t
  = Template.collect fuel2 (TemplateDoc.body t)
      (Template.collect fuel1 (TemplateDoc.subject t) [])
  /\ NoDup (Template.detectVariables t)
  /\ Forall (fun n => trim n = n /\ allChars notClose n = true)
       (Template.detectVariables t).
Proof.
  intros H1 H2. split; [|apply detectVariables_names].
  unfold Template.detectVariables.
  rewrite (@collect_fuel (S (String.length (TemplateDoc.subject t))) fuel1) by lia.
  apply collect_fuel; lia.
Qed.

Lemma detected_names_are_distinct_and_trimmed_witness :
  Template.detectVariables Sample2.templateVars
  = Template.collect 100 (TemplateDoc.body Sample2.templateVars)
      (Template.collect 100 (TemplateDoc.subject Sample2.templateVars) [])
  /\ NoDup (Template.detectVariables Sample2.templateVars)
  /\ Forall (fun n => trim n = n /\ allChars notClose n = true)
       (Template.detectVariables Sample2.templateVars).
Proof.
  apply (@detected_names_are_distinct_and_trimmed Sample2.templateVars 100 100);
    vm_compute; lia.
Defined.

Lemma fold_left_push (existing : list string) (detected : list string)
  (variables : list Template.variable) :
  fold_left
    (fun vars varName =>
       if negb (Campaign.includes existing varName)
       then (vars ++ [Template.newVariable varName])%list
       else vars)
    detected variables
  = (variables
     ++ map Template.newVariable
          (filter (fun n => negb (Campaign.includes existing n)) detected))%list.
Proof.
  revert variables. induction detected as [|n detected IH]; intros variables;
    cbn [fold_left filter]; [now rewrite app_nil_r|].
  rewrite IH. destruct (negb (Campaign.includes existing n)); [|reflexivity].
  cbn [map]. now rewrite <- app_assoc.
Qed.

Lemma preSave_pushes (t : TemplateDoc.t) (variables : list Template.variable) :
  Template.preSave t variables
  = (variables
     ++ map Template.newVariable
          (filter (fun n => negb (Campaign.includes (map Template.name variables) n))
             (Template.detectVariables t)))%list.
Proof. unfold Template.preSave. apply fold_left_push. Qed.

Lemma names_of_pushed (l : list string) :
  Forall (fun n => trim n = n /\ allChars notClose n = true) l ->
  map Template.name (map Template.newVariable l) = l.
Proof.
  induction 1 as [|n l [Hn _] _ IH]; [reflexivity|].
  cbn [map Template.name Template.newVariable]. now rewrite Hn, IH.
Qed.

Lemma Forall_filter (A : Type) (P : A -> Prop) (f : A -> bool) (l : list A) :
  Forall P l -> Forall P (filter f l).
Proof.
  induction 1 as [|x l Hx _ IH]; cbn [filter]; [constructor|].
  destruct (f x); [now constructor | exact IH].
Qed.

Lemma filter_none (A : Type) (f : A -> bool) (l : list A) :
  (forall x, In x l -> f x = false) -> filter f l = [].
Proof.
  induction l as [|x l IH]; intros H; cbn [filter]; [reflexivity|].
  rewrite (H x (or_introl eq_refl)). apply IH. intros y Hy. apply H. now right.
Qed.

Lemma preSave_names (t : TemplateDoc.t) (variables : list Template.variable) :
  map Template.name (Template.preSave t variables)
  = (map Template.name variables
     ++ filter (fun n => negb (Campaign.includes (map Template.name variables) n))
          (Template.detectVariables t))%list.
Proof.
  rewrite preSave_pushes, map_app. f_equal. apply names_of_pushed.
  apply Forall_filter. apply detectVariables_names.
Qed.

Lemma preSave_declares (t : TemplateDoc.t) (variables : list Template.variable)
  (n : string) :
  In n (Template.detectVariables t) ->
  In n (map Template.name (Template.preSave t variables)).
Proof.
  intros Hn. rewrite preSave_names. apply in_or_app.
  destruct (Campaign.includes (map Template.name variables) n) eqn:E.
  - left. now apply includes_In.
  - right. apply filter_In. split; [exact Hn | now rewrite E].
Qed.

(** The [pre('save')] hook of the template: the array [variables] keeps
    its elements, in place; afterwards every detected name is the name
    of a variable; and names that were pairwise different stay so. *)
Theorem hook_declares_every_detected_name (t : TemplateDoc.t)
  (variables : list Template.variable) :
  firstn (List.length variables) (Template.preSave t variables) = variables
  /\ (forall n, In n (Template.detectVariables t) ->
                In n (map Template.name (Template.preSave t variables)))
  /\ (NoDup (map Template.name variables) ->
      NoDup (map Template.name (Template.preSave t variables))).
Proof.
  split; [|split].
  - rewrite preSave_pushes. rewrite firstn_app, Nat.sub_diag, firstn_all.
    cbn [firstn]. now rewrite app_nil_r.
  - intros n. apply preSave_declares.
  - intros Hnd. rewrite preSave_names. apply NoDup_app; [exact Hnd | |].
    + apply NoDup_filter. apply detectVariables_names.
    + intros n Hin Hf. apply filter_In in Hf. destruct Hf as [_ Hf].
      apply includes_In in Hin. rewrite Hin in Hf. discriminate.
Qed.

(** The [pre('save')] hook of the template is idempotent: a second save
    of the same subject and body adds nothing. *)
Theorem hook_is_idempotent (t : TemplateDoc.t) (variables : list Template.variable) :
  Template.preSave t (Template.preSave t variables) = Template.preSave t variables.
Proof.
  rewrite (preSave_pushes t (Template.preSave t variables)).
  replace (filter _ (Template.detectVariables t)) with (@nil string);
    [cbn [map]; now rewrite app_nil_r|].
  symmetry. apply filter_none. intros n Hn. apply negb_false_iff.
  apply includes_In.
  now apply preSave_declares.
Qed.

Example hook_on_sample_template :
  Template.detectVariables Sample2.templateVars = ["firstName"; "orderId"; "city"]
  /\ map Template.name (Template.preSave Sample2.templateVars Sample2.declared)
     = ["city"; "firstName"; "orderId"].
Proof. split; vm_compute; reflexivity. Qed.

(** *** Deliveries and due dates of a run *)

Section DeliveryFacts.
Context {R : Runtime} {C : Collaborators}.


End DeliveryFacts.

Example sample_entry_is_due_after_the_delay :
  option_map (fun e => map (fun x => (EventDoc.campaignId x, EventDoc.scheduledFor x))
                         (EventDoc.triggeredCampaigns e))
    (findBy EventDoc._id "64b0000000000000000000e1"
       (events (snd (CampaignService.processEvent (R := Sample.runtime)
                       (C := Sample.collaborators) 5000 Sample.event Sample.world0))))
  = Some [("64b0000000000000000000c1", 61000%Z)]
  /\ emails (snd (CampaignService.processEvent (R := Sample.runtime)
                    (C := Sample.collaborators) 5000 Sample.event Sample.world0))
     = [].
Proof. split; vm_compute; reflexivity. Qed.

(** ** The event sweep *)

(** The query of [processUnprocessedEvents]: the batch holds stored
    events that are not processed, in ascending order of timestamp; a
    positive batch size bounds its length, and the size zero is no
    limit: the batch then holds every unprocessed event. *)
Theorem sweep_batch_is_unprocessed_sorted_bounded (n : nat) (w : world) :
  (forall x, In x (Event.findUnprocessed n w) ->
             In x (events w) /\ EventDoc.processed x = false)
  /\ StronglySorted (fun a b => (EventDoc.timestamp a <= EventDoc.timestamp b)%Z)
       (Event.findUnprocessed n w)
  /\ (0 < n -> List.length (Event.findUnprocessed n w) <= n)
  /\ (forall x, In x (events w) -> EventDoc.processed x = false ->
                In x (Event.findUnprocessed 0 w)).
Proof.
  split; [intros x; apply In_findUnprocessed|]. split; [|split].
  - unfold Event.findUnprocessed. apply limit_sorted, sortBy_sorted.
  - intros Hn. unfold Event.findUnprocessed, Event.limit.
    destruct (Nat.eqb_spec n 0) as [->|_]; [lia|]. apply firstn_le_length.
  - intros x Hin Hp. unfold Event.findUnprocessed, Event.limit. cbn [Nat.eqb].
    eapply Permutation_in; [apply Permutation_sym, Permutation_sortBy|].
    apply filter_In. split; [exact Hin | now rewrite Hp].
Qed.

(** ** Indices that are numbers but not keys *)

Lemma identifier_start (c : ascii) :
  isLetter c || chr c 36 || chr c 95 = true ->
  isSpace c = false /\ isDigit c = false /\ chr c 45 = false /\ chr c 43 = false.
Proof.
  destruct c as [[] [] [] [] [] [] [] []]; vm_compute; intros H;
    try discriminate H; repeat split.
Qed.

(** A string that [parseInt] reads as a number does not begin as an
    identifier does. *)
Lemma parsed_not_identifier (idx : string) (z : Z) :
  parseInt10 idx = Some z -> identifierKey idx = false.
Proof.
  destruct idx as [|c s]; [reflexivity|].
  unfold identifierKey. destruct (isLetter c || chr c 36 || chr c 95) eqn:E;
    [|reflexivity].
  destruct (identifier_start c E) as (Hs & Hd & H45 & H43).
  unfold parseInt10. cbn [trimStart]. rewrite Hs, H45, H43, Hd. discriminate.
Qed.

Lemma parsed_key_absent {R : Runtime} (e : EmailDoc.t) (idx : string) (z : Z) :
  parseInt10 idx = Some z -> arrayIndex idx = None ->
  CampaignService.linkByKey e idx = CampaignService.Absent.
Proof.
  intros Hparse Hkey. unfold CampaignService.linkByKey. rewrite Hkey.
  rewrite (@parsed_not_identifier idx z Hparse). cbn [andb].
  destruct (String.eqb idx "length") eqn:E; [|reflexivity].
  apply String.eqb_eq in E. subst idx. discriminate Hparse.
Qed.

(** [trackEmailClick]: the link is found twice, by the number
    [parseInt] reads and by the string of the route as a property key.
    When the string is read as the index of a link but is not the
    canonical decimal of that index (a leading zero, a sign, white space
    in front, text after the digits), the click is recorded on that link
    and the delivery becomes [clicked], yet the key finds no link and
    the request is sent to the default destination. *)
Theorem noncanonical_index_clicks_but_redirects_home {R : Runtime} (now : Z)
  (tid idx : string) (w : world) (e : EmailDoc.t) (l : EmailDoc.link) (z : Z) :
  Email.findOneByTrackingId tid (emails w) = Some e ->
  parseInt10 idx = Some z ->
  Email.linkAt e (Some z) = Some l ->
  arrayIndex idx = None ->
  fst (CampaignService.trackEmailClick now tid idx w)
  = Ok {| CampaignService.url := Some "/";
          CampaignService.email := Some (EmailDoc.apply (clickPatch now z e) e) |}
  /\ Email.linkAt (EmailDoc.apply (clickPatch now z e) e) (Some z)
     = Some (Email.clickLink now l)
  /\ fst (TrackingController.trackEmailClick now tid idx w)
     = Ok (TrackingController.Redirect "/").
Proof.
  intros Hfind Hparse Hlink Hkey.
  destruct (@findOneByTrackingId_sound _ _ _ Hfind) as [Hin _].
  destruct (In_findBy EmailDoc._id e (emails w) Hin) as [e0 He0].
  assert (Hrun : fst (CampaignService.trackEmailClick now tid idx w)
                 = Ok {| CampaignService.url := Some "/";
                         CampaignService.email :=
                           Some (EmailDoc.apply (clickPatch now z e) e) |}).
  { unfold CampaignService.trackEmailClick, tryCatch, bind, get.
    rewrite Hfind, Hparse. rewrite (trackClick_valid now z e w Hlink), He0.
    cbn [EmailDoc.state EmailDoc.apply clickPatch EmailDoc.p_state
         EmailDoc.status_eqb negb].
    rewrite (@parsed_key_absent R _ idx z Hparse Hkey). reflexivity. }
  split; [exact Hrun|]. split.
  - destruct (linkAt_some _ _ Hlink) as (z' & Hz & Hneg & Hnth).
    injection Hz as <-. unfold Email.linkAt. rewrite Hneg.
    cbn [EmailDoc.links EmailDoc.apply clickPatch EmailDoc.p_links].
    now rewrite nth_error_updateNth, Hnth.
  - unfold TrackingController.trackEmailClick, TrackingController.clickHandler,
      tryCatch, bind.
    destruct (CampaignService.trackEmailClick now tid idx w) as [r w1].
    cbn [fst] in Hrun. rewrite Hrun. reflexivity.
Qed.

Lemma noncanonical_index_clicks_but_redirects_home_witness :
  fst (CampaignService.trackEmailClick (R := Sample.runtime) 7000
         Sample.deliveryTrackingId "00" (Sample.worldWith EmailDoc.sent))
  = Ok {| CampaignService.url := Some "/";
          CampaignService.email :=
            Some (EmailDoc.apply (clickPatch 7000 0 (Sample.delivery EmailDoc.sent))
                    (Sample.delivery EmailDoc.sent)) |}
  /\ Email.linkAt (EmailDoc.apply (clickPatch 7000 0 (Sample.delivery EmailDoc.sent))
                     (Sample.delivery EmailDoc.sent)) (Some 0%Z)
     = Some (Email.clickLink 7000
               (EmailService.newLink "https://x.test"
                  "https://mail.example/track/click/t/0"))
  /\ fst (TrackingController.trackEmailClick (R := Sample.runtime) 7000
            Sample.deliveryTrackingId "00" (Sample.worldWith EmailDoc.sent))
     = Ok (TrackingController.Redirect "/").
Proof.
  apply (@noncanonical_index_clicks_but_redirects_home Sample.runtime 7000
           Sample.deliveryTrackingId
           "00" (Sample.worldWith EmailDoc.sent) (Sample.delivery EmailDoc.sent)
           (EmailService.newLink "https://x.test" "https://mail.example/track/click/t/0")
           0%Z eq_refl eq_refl eq_refl eq_refl).
Defined.

(** ** Successive batches of the delivery worker *)

Section SuccessiveBatches.
Context {R : Runtime} {C : Collaborators}.

Lemma processScheduledEmails_ids (now : Z) (n : nat) (w : world) :
  map EmailDoc._id (emails (snd (CampaignService.processScheduledEmails now n w)))
  = map EmailDoc._id (emails w).
Proof.
  unfold CampaignService.processScheduledEmails, tryCatch, bind, get.
  destruct (Email.findPendingEmails now n w) as [|e l] eqn:Hp; [reflexivity|].
  cbn [List.length Nat.eqb].
  pose proof (sendAll_ids now (e :: l) 0 w) as H.
  destruct (sendAll_effect now (e :: l) 0 w) as (w' & Hrun & _).
  { intros e' Hin. rewrite <- Hp in Hin. apply In_findPendingEmails in Hin.
    now apply In_findBy. }
  rewrite Hrun in *. cbn [snd] in *. apply H.
  intros e' Hin. rewrite <- Hp in Hin. apply In_findPendingEmails in Hin.
  now apply In_findBy.
Qed.

Lemma processScheduledEmails_settles (now : Z) (n : nat) (w : world) (e : EmailDoc.t) :
  NoDup (map EmailDoc._id (emails w)) ->
  In e (Email.findPendingEmails now n w) ->
  option_map EmailDoc.state
    (findBy EmailDoc._id (EmailDoc._id e)
       (emails (snd (CampaignService.processScheduledEmails now n w))))
  = Some (statusAfterSend e).
Proof.
  intros Hnd Hin.
  unfold CampaignService.processScheduledEmails, tryCatch, bind, get.
  destruct (Email.findPendingEmails now n w) as [|e0 l] eqn:Hp; [destruct Hin|].
  cbn [List.length Nat.eqb].
  destruct (sendAll_effect now (e0 :: l) 0 w) as (w' & Hrun & _ & _ & _ & _ & Hst).
  { intros e' Hin'. rewrite <- Hp in Hin'. apply In_findPendingEmails in Hin'.
    now apply In_findBy. }
  rewrite Hrun. cbn [snd]. apply Hst; [|exact Hin].
  rewrite <- Hp. now apply findPendingEmails_NoDup.
Qed.

(** [processScheduledEmails]: when the stored deliveries have distinct
    ids, no later query for due deliveries, at any time and with any
    limit, returns a delivery of a batch that has run: a delivery is
    handed to the transport by one batch only, and a [failed] one is
    not tried again. *)
Theorem settled_items_are_never_sent_again (now : Z) (n : nat) (w : world)
  (e : EmailDoc.t) :
  NoDup (map EmailDoc._id (emails w)) ->
  In e (Email.findPendingEmails now n w) ->
  forall (now' : Z) (n' : nat) (x : EmailDoc.t),
    In x (Email.findPendingEmails now' n'
            (snd (CampaignService.processScheduledEmails now n w))) ->
    EmailDoc._id x <> EmailDoc._id e.
Proof.
  intros Hnd Hin now' n' x Hx Heq.
  apply In_findPendingEmails in Hx. destruct Hx as (Hx & Hstate & _).
  pose proof (processScheduledEmails_settles now n w e Hnd Hin) as Hs.
  rewrite <- Heq in Hs. rewrite (findBy_NoDup EmailDoc._id) in Hs.
  - cbn in Hs. injection Hs as Hs. rewrite Hstate in Hs.
    unfold statusAfterSend in Hs. destruct (accepted e); discriminate.
  - rewrite processScheduledEmails_ids. exact Hnd.
  - exact Hx.
Qed.

End SuccessiveBatches.

Lemma settled_items_are_never_sent_again_witness :
  In Sample2.toBob (Email.findPendingEmails 5000 10 Sample2.worldBatch)
  /\ forall x,
       In x (Email.findPendingEmails 9000 0
               (snd (CampaignService.processScheduledEmails
                       (R := Sample.runtime) (C := Sample2.collaboratorsPicky)
                       5000 10 Sample2.worldBatch))) ->
       EmailDoc._id x <> EmailDoc._id Sample2.toBob.
Proof.
  assert (Hnd : NoDup (map EmailDoc._id (emails Sample2.worldBatch))).
  { simpl. constructor; [|constructor; [simpl; tauto | constructor]].
    simpl. intros [H|[]]. discriminate H. }
  assert (Hin : In Sample2.toBob (Email.findPendingEmails 5000 10 Sample2.worldBatch))
    by (now left).
  split; [exact Hin|].
  exact (@settled_items_are_never_sent_again Sample.runtime Sample2.collaboratorsPicky
           5000 10 Sample2.worldBatch Sample2.toBob Hnd Hin 9000 0).
Defined.

(** ** Rendering *)

Lemma startsWith_length (s p : string) :
  startsWith s p = true ->
  String.length (drop (String.length p) s) + String.length p = String.length s.
Proof.
  revert s. induction p as [|a p IH]; intros s; cbn [startsWith String.length drop].
  - intros _. lia.
  - destruct s as [|b s]; [discriminate|].
    intros H. apply andb_prop in H as [_ H]. specialize (IH s H).
    cbn [String.length]. lia.
Qed.

Lemma literal_shorter (p : string) (k : string -> option string) (s r : string) :
  (forall s' r', k s' = Some r' -> String.length r' <= String.length s') ->
  Rendering.literal p k s = Some r ->
  String.length r + String.length p <= String.length s.
Proof.
  intros Hk. unfold Rendering.literal.
  destruct (startsWith s p) eqn:E; [|discriminate].
  intros H. apply Hk in H. apply startsWith_length in E. lia.
Qed.

Lemma spaces0_shorter (k : string -> option string) (s r : string) :
  (forall s' r', k s' = Some r' -> String.length r' <= String.length s') ->
  Rendering.spaces0 k s = Some r -> String.length r <= String.length s.
Proof.
  intros Hk. induction s as [|c s IH]; cbn [Rendering.spaces0]; [apply Hk|].
  destruct (isSpace c); [|apply Hk].
  destruct (Rendering.spaces0 k s) as [r'|].
  - intros H. injection H as <-. specialize (IH eq_refl). cbn [String.length]. lia.
  - apply Hk.
Qed.

Lemma render_matchHere_shorter (key s r : string) :
  Rendering.matchHere key s = Some r -> String.length r < String.length s.
Proof.
  unfold Rendering.matchHere. intros H.
  apply literal_shorter in H; [cbn [String.length] in H; lia|].
  intros s1 r1 H1. apply spaces0_shorter in H1; [exact H1|].
  intros s2 r2 H2. apply literal_shorter in H2; [lia|].
  intros s3 r3 H3. apply spaces0_shorter in H3; [exact H3|].
  intros s4 r4 H4. apply literal_shorter in H4; [lia|].
  intros s5 r5 H5. injection H5 as <-. lia.
Qed.

(** Every fuel above the length of the text that is left gives the same
    result. *)
Lemma replaceAll_fuel (fuel1 fuel2 : nat) (key value before rest : string) :
  String.length rest < fuel1 -> String.length rest < fuel2 ->
  Rendering.replaceAll fuel1 key value before rest
  = Rendering.replaceAll fuel2 key value before rest.
Proof.
  revert fuel2 before rest.
  induction fuel1 as [|fuel1 IH]; intros fuel2 before rest H1 H2; [lia|].
  destruct fuel2 as [|fuel2]; [lia|].
  cbn [Rendering.replaceAll].
  destruct (Rendering.matchHere key rest) as [after|] eqn:E.
  - apply render_matchHere_shorter in E. cbv zeta. f_equal. apply IH; lia.
  - destruct rest as [|c rest]; [reflexivity|]. f_equal.
    cbn [String.length] in H1, H2. apply IH; lia.
Qed.

Lemma render_matchHere_notOpen (key : string) (c : ascii) (s : string) :
  notOpen c = true -> Rendering.matchHere key (String c s) = None.
Proof.
  unfold notOpen, chr. intros H. apply negb_true_iff in H.
  unfold Rendering.matchHere, Rendering.literal. cbn [startsWith].
  destruct (Ascii.eqb "{" c) eqn:E; [|reflexivity].
  apply Ascii.eqb_eq in E. subst c. discriminate H.
Qed.

Lemma replaceAll_notOpen (fuel : nat) (key value before x rest : string) :
  allChars notOpen x = true ->
  String.length x <= fuel ->
  Rendering.replaceAll fuel key value before (x ++ rest)
  = x ++ Rendering.replaceAll (fuel - String.length x) key value (before ++ x) rest.
Proof.
  revert fuel before. induction x as [|c x IH]; intros fuel before Hx Hlen.
  - cbn [append String.length]. now rewrite Nat.sub_0_r, append_nil_r.
  - cbn [allChars] in Hx. apply andb_prop in Hx as [Hc Hx].
    cbn [String.length] in Hlen. destruct fuel as [|fuel]; [lia|].
    cbn [append Rendering.replaceAll String.length Nat.sub].
    rewrite render_matchHere_notOpen by exact Hc.
    rewrite IH by (try assumption; lia).
    rewrite append_assoc. reflexivity.
Qed.

Lemma replaceAll_plain_text (fuel : nat) (key value before x : string) :
  allChars notOpen x = true ->
  Rendering.replaceAll fuel key value before x = x.
Proof.
  revert fuel before. induction x as [|c x IH]; intros fuel before Hx.
  - destruct fuel; reflexivity.
  - cbn [allChars] in Hx. apply andb_prop in Hx as [Hc Hx].
    destruct fuel as [|fuel]; [reflexivity|].
    cbn [Rendering.replaceAll]. rewrite render_matchHere_notOpen by exact Hc.
    now rewrite IH.
Qed.

Lemma spaces0_skip (k : string -> option string) (ws t r : string) :
  allChars isSpace ws = true ->
  Rendering.spaces0 k t = Some r ->
  Rendering.spaces0 k (ws ++ t) = Some r.
Proof.
  intros Hws Ht. induction ws as [|c ws IH]; [exact Ht|].
  cbn [allChars] in Hws. apply andb_prop in Hws as [Hc Hws].
  cbn [append Rendering.spaces0]. now rewrite Hc, IH.
Qed.

Lemma spaces0_here (k : string -> option string) (c : ascii) (s : string) :
  isSpace c = false -> Rendering.spaces0 k (String c s) = k (String c s).
Proof. intros H. cbn [Rendering.spaces0]. now rewrite H. Qed.

Lemma literal_app (p : string) (k : string -> option string) (r : string) :
  Rendering.literal p k (p ++ r) = k r.
Proof. unfold Rendering.literal. now rewrite startsWith_append, drop_append. Qed.

Lemma matchHere_placeholder (ws1 ws2 key post : string) :
  allChars isSpace ws1 = true -> allChars isSpace ws2 = true ->
  allChars notSpace key = true -> key <> EmptyString ->
  Rendering.matchHere key (placeholder ws1 key ws2 ++ post) = Some post.
Proof.
  intros H1 H2 Hk Hne. unfold placeholder, Rendering.matchHere.
  rewrite !append_assoc. rewrite literal_app.
  apply spaces0_skip; [exact H1|].
  destruct key as [|c key]; [congruence|].
  cbn [allChars] in Hk. apply andb_prop in Hk as [Hc Hk].
  unfold notSpace in Hc. apply negb_true_iff in Hc.
  change (String c key ++ ws2 ++ "}}" ++ post)
    with (String c (key ++ ws2 ++ "}}" ++ post)).
  rewrite spaces0_here by exact Hc.
  change (String c (key ++ ws2 ++ "}}" ++ post))
    with (String c key ++ ws2 ++ "}}" ++ post).
  rewrite literal_app.
  apply spaces0_skip; [exact H2|].
  change ("}}" ++ post) with (String "}" ("}" ++ post)).
  rewrite spaces0_here by reflexivity.
  change (String "}" ("}" ++ post)) with ("}}" ++ post).
  apply literal_app.
Qed.

Lemma replaceKey_placeholder (pre ws1 key ws2 post value : string) :
  allChars notOpen pre = true ->
  allChars isSpace ws1 = true -> allChars isSpace ws2 = true ->
  allChars notSpace key = true -> key <> EmptyString ->
  allChars notOpen post = true ->
  allChars notDollar value = true ->
  Rendering.replaceKey (pre ++ placeholder ws1 key ws2 ++ post) key value
  = pre ++ value ++ post.
Proof.
  intros Hpre H1 H2 Hk Hne Hpost Hv. unfold Rendering.replaceKey.
  rewrite replaceAll_notOpen by (try assumption; rewrite length_append; lia).
  f_equal.
  match goal with
  | |- Rendering.replaceAll ?f _ _ _ _ = _ =>
      assert (Hf : exists f', f = S f')
  end.
  { rewrite !length_append. unfold placeholder. cbn [append String.length].
    eexists. rewrite Nat.sub_succ_l by lia. reflexivity. }
  destruct Hf as [f' ->]. cbn [Rendering.replaceAll].
  rewrite matchHere_placeholder by assumption. cbv zeta.
  rewrite getSubstitution_plain by exact Hv.
  now rewrite replaceAll_plain_text.
Qed.

(** [renderTemplate]: a template that holds one placeholder of a
    variable, with any white space around the key inside the braces and
    no opening brace elsewhere, renders to the template with the
    placeholder replaced by the value (a value without a dollar sign is
    inserted as it is). *)
Theorem placeholder_is_replaced_by_the_value (pre ws1 key ws2 post value : string) :
  Rendering.plainKey key = true ->
  allChars notSpace key = true -> key <> EmptyString ->
  allChars isSpace ws1 = true -> allChars isSpace ws2 = true ->
  allChars notOpen pre = true -> allChars notOpen post = true ->
  allChars notDollar value = true ->
  Rendering.renderTemplate (pre ++ placeholder ws1 key ws2 ++ post) [(key, value)]
  = Some (pre ++ value ++ post).
Proof.
  intros Hplain Hk Hne H1 H2 Hpre Hpost Hv.
  unfold Rendering.renderTemplate. cbn [fold_left fst snd]. rewrite Hplain.
  now rewrite replaceKey_placeholder.
Qed.

Lemma placeholder_is_replaced_by_the_value_witness :
  Rendering.renderTemplate "Hello {{ user_name }}, welcome." [("user_name", "Ada")]
  = Some "Hello Ada, welcome.".
Proof.
  apply (@placeholder_is_replaced_by_the_value "Hello " " " "user_name" " "
           ", welcome." "Ada"); try reflexivity.
  discriminate.
Defined.

Lemma renderTemplate_from (variables : list (string * string)) (r : option string) :
  fold_left
    (fun rendered entry =>
       match rendered with
       | Some r =>
           if Rendering.plainKey (fst entry)
           then Some (Rendering.replaceKey r (fst entry) (snd entry))
           else None
       | None => None
       end)
    variables r
  = match r with
    | Some t => Rendering.renderTemplate t variables
    | None => None
    end.
Proof.
  destruct r as [t|]; [reflexivity|].
  induction variables as [|entry variables IH]; [reflexivity|]. exact IH.
Qed.

(** [renderTemplate]: a template without an opening brace renders to
    itself, whatever the variables are (with keys that are plain). *)
Theorem text_without_braces_renders_to_itself (template : string)
  (variables : list (string * string)) :
  allChars notOpen template = true ->
  forallb (fun entry => Rendering.plainKey (fst entry)) variables = true ->
  Rendering.renderTemplate template variables = Some template.
Proof.
  intros Ht. unfold Rendering.renderTemplate.
  induction variables as [|[key value] variables IH]; [reflexivity|].
  cbn [forallb fold_left fst snd]. intros H. apply andb_prop in H as [Hk Hrest].
  rewrite Hk. unfold Rendering.replaceKey. rewrite replaceAll_plain_text by exact Ht.
  now apply IH.
Qed.

Lemma text_without_braces_renders_to_itself_witness :
  Rendering.renderTemplate "Your order has shipped."
    [("user_name", "Ada"); ("company_name", "Shop")]
  = Some "Your order has shipped.".
Proof.
  apply (@text_without_braces_renders_to_itself "Your order has shipped."
           [("user_name", "Ada"); ("company_name", "Shop")]); reflexivity.
Defined.

(** [renderTemplate]: the variables are substituted one after the
    other, each in the text the ones before it left.  So a value that is
    the placeholder of a later variable is substituted in turn: the
    rendered text holds the value of the later variable, not the value
    that was given. *)
Theorem value_with_placeholder_is_rendered_again (pre post key1 key2 value2 : string) :
  Rendering.plainKey key1 = true -> Rendering.plainKey key2 = true ->
  allChars notSpace key1 = true -> key1 <> EmptyString ->
  allChars notSpace key2 = true -> key2 <> EmptyString ->
  allChars notOpen pre = true -> allChars notOpen post = true ->
  allChars notDollar key2 = true ->
  allChars notDollar value2 = true ->
  Rendering.renderTemplate
    (pre ++ placeholder EmptyString key1 EmptyString ++ post)
    [(key1, placeholder EmptyString key2 EmptyString); (key2, value2)]
  = Some (pre ++ value2 ++ post).
Proof.
  intros Hp1 Hp2 Hk1 Hne1 Hk2 Hne2 Hpre Hpost Hd2 Hv2.
  unfold Rendering.renderTemplate. cbn [fold_left fst snd]. rewrite Hp1.
  rewrite replaceKey_placeholder; try assumption; try reflexivity.
  - rewrite Hp2. now rewrite replaceKey_placeholder.
  - unfold placeholder. cbn [append allChars]. rewrite allChars_app, Hd2. reflexivity.
Qed.

Lemma value_with_placeholder_is_rendered_again_witness :
  Rendering.renderTemplate "Dear {{user_name}},"
    [("user_name", "{{unsubscribe_link}}");
     ("unsubscribe_link", "https://mail.example/api/unsubscribe/64b0000000000000000000b1")]
  = Some "Dear https://mail.example/api/unsubscribe/64b0000000000000000000b1,".
Proof.
  apply (@value_with_placeholder_is_rendered_again "Dear " "," "user_name"
           "unsubscribe_link"
           "https://mail.example/api/unsubscribe/64b0000000000000000000b1");
    try reflexivity; discriminate.
Defined.
